(** * netMonitor: the accounting core of [main.go]

    A shallow embedding of the traffic accountant: the accumulation of
    the interface counters (the body of the loop of [main]), the cycle
    check [checkReset], the cycle close [resetStatistics] and the
    threshold evaluation [performComparison], followed by the properties
    of the specification, proved or refuted on them.

    The file has two parts: the definitions (the Go values, the part of
    Go's [time] package the program calls, the program itself), then the
    lemmas and theorems. *)

From Stdlib Require Import ZArith List String Ascii Bool Lia Floats.
Import ListNotations.

Local Open Scope Z_scope.

(** ** Unsigned 64-bit integers

    Go's [uint64]: a [Z] in [0, 2^64) with the wrap-around of [+] and
    [-] written out. *)

Module U64.

Definition modulus : Z := 2 ^ 64.

Definition wrap (x : Z) : Z := x mod modulus.

Definition add (x y : Z) : Z := wrap (x + y).

Definition sub (x y : Z) : Z := wrap (x - y).

Definition ok (x : Z) : Prop := 0 <= x < modulus.

End U64.

(** ** The part of Go's [time] package that main.go calls

    A [Time] is an instant (nanoseconds since 1970-01-01T00:00:00Z)
    together with the offset of its location, in seconds east of UTC.
    The host's zone [time.Local] is a fixed offset here: daylight-saving
    transitions are not modelled. *)

Module GoTime.

Record Time : Type := mkTime {
  unixNano : Z;
  loc : Z
}.

Definition UTC : Z := 0.

Definition nsPerSecond : Z := 1000000000.
Definition secondsPerDay : Z := 86400.
Definition nsPerDay : Z := secondsPerDay * nsPerSecond.

Definition isLeap (year : Z) : bool :=
  (year mod 4 =? 0) && (negb (year mod 100 =? 0) || (year mod 400 =? 0)).

(** [daysBefore m]: the days of a non-leap year before month [m + 1]
    (Go's table of the same name). *)
Definition daysBefore (m : Z) : Z :=
  match m with
  | 0 => 0
  | 1 => 31
  | 2 => 59
  | 3 => 90
  | 4 => 120
  | 5 => 151
  | 6 => 181
  | 7 => 212
  | 8 => 243
  | 9 => 273
  | 10 => 304
  | 11 => 334
  | _ => 365
  end.

Definition daysIn (month year : Z) : Z :=
  if (month =? 2) && isLeap year then 29
  else daysBefore month - daysBefore (month - 1).

(** Days from 1970-01-01 to January 1st of [year]. *)
Definition daysSinceEpoch (year : Z) : Z :=
  let y := year - 1 in
  365 * (year - 1970) + (y / 4 - y / 100 + y / 400) - 477.

(** The day number of [year]-[month]-[day]; as in [time.Date], a month
    outside 1..12 overflows into the year and a day outside the month is
    counted from the first of the month. *)
Definition dateToDays (year month day : Z) : Z :=
  let m := month - 1 in
  let year := year + m / 12 in
  let month := m mod 12 + 1 in
  daysSinceEpoch year + daysBefore (month - 1)
  + (if isLeap year && (3 <=? month) then 1 else 0)
  + (day - 1).

Definition Date (year month day hour min sec nsec : Z) (l : Z) : Time :=
  let secs :=
    dateToDays year month day * secondsPerDay
    + hour * 3600 + min * 60 + sec - l in
  mkTime (secs * nsPerSecond + nsec) l.

(** The year of a day number: an estimate from the mean length of a
    year, corrected by at most one. *)
Definition yearOfDays (n : Z) : Z :=
  let g := 1970 + n * 400 / 146097 in
  if n <? daysSinceEpoch g then g - 1
  else if daysSinceEpoch (g + 1) <=? n then g + 1
  else g.

(** The month of the [yday]-th day (from 0) of a year. *)
Definition monthOfYday (leap : bool) (yday : Z) : Z :=
  let l := if leap then 1 else 0 in
  if yday <? 31 then 1
  else if yday <? 59 + l then 2
  else if yday <? 90 + l then 3
  else if yday <? 120 + l then 4
  else if yday <? 151 + l then 5
  else if yday <? 181 + l then 6
  else if yday <? 212 + l then 7
  else if yday <? 243 + l then 8
  else if yday <? 273 + l then 9
  else if yday <? 304 + l then 10
  else if yday <? 334 + l then 11
  else 12.

Definition civilOfDays (n : Z) : Z * Z * Z :=
  let year := yearOfDays n in
  let yday := n - daysSinceEpoch year in
  let month := monthOfYday (isLeap year) yday in
  let before :=
    daysBefore (month - 1) + (if isLeap year && (3 <=? month) then 1 else 0) in
  (year, month, yday - before + 1).

(** Nanoseconds of the wall clock of [t] in its own location. *)
Definition wallNano (t : Time) : Z := unixNano t + loc t * nsPerSecond.

Definition civil (t : Time) : Z * Z * Z := civilOfDays (wallNano t / nsPerDay).

Definition Year (t : Time) : Z := fst (fst (civil t)).
Definition Month (t : Time) : Z := snd (fst (civil t)).
Definition Day (t : Time) : Z := snd (civil t).

(** Nanoseconds since the midnight that began the day of [t]. *)
Definition nanoOfDay (t : Time) : Z := wallNano t mod nsPerDay.

Definition AddDate (t : Time) (years months days : Z) : Time :=
  let r := nanoOfDay t in
  Date (Year t + years) (Month t + months) (Day t + days)
    (r / (3600 * nsPerSecond)) (r / (60 * nsPerSecond) mod 60)
    (r / nsPerSecond mod 60) (r mod nsPerSecond) (loc t).

Definition Before (t u : Time) : bool := unixNano t <? unixNano u.
Definition After (t u : Time) : bool := unixNano u <? unixNano t.

(** *** Decimal text *)

Definition digit (d : Z) : ascii := ascii_of_N (Z.to_N (48 + d)).

Definition isDigit (c : ascii) : bool :=
  let n := Z.of_N (N_of_ascii c) in (48 <=? n) && (n <=? 57).

Definition digitVal (c : ascii) : Z := Z.of_N (N_of_ascii c) - 48.

Fixpoint decimal (fuel : nat) (u : Z) (acc : string) : string :=
  match fuel with
  | O => acc
  | S fuel' =>
      let acc := String (digit (u mod 10)) acc in
      if u / 10 =? 0 then acc else decimal fuel' (u / 10) acc
  end.

Fixpoint zeros (n : nat) (s : string) : string :=
  match n with
  | O => s
  | S n' => String "0" (zeros n' s)
  end.

(** [appendInt]: the decimal form of [x], zero-padded to [width], with
    the two fast paths of the library for fields of width 2 and 4. *)
Definition appendInt (x : Z) (width : Z) : string :=
  let u := Z.abs x in
  let sign := if x <? 0 then "-"%string else EmptyString in
  let body :=
    if (width =? 2) && (u <? 100) then
      String (digit (u / 10)) (String (digit (u mod 10)) EmptyString)
    else if (width =? 4) && (u <? 10000) then
      String (digit (u / 1000)) (String (digit (u / 100 mod 10))
        (String (digit (u / 10 mod 10)) (String (digit (u mod 10)) EmptyString)))
    else
      let ds := decimal (S (Z.to_nat (Z.log2 u))) u EmptyString in
      zeros (Z.to_nat width - String.length ds) ds in
  (sign ++ body)%string.

(** [t.Format("2006-01-02")]. *)
Definition FormatDate (t : Time) : string :=
  (appendInt (Year t) 4 ++ "-" ++ appendInt (Month t) 2 ++ "-"
   ++ appendInt (Day t) 2)%string.

(** The fields read by [time.Parse("2006-01-02", s)]: four digits, a
    dash, two digits, a dash, two digits and nothing else; the month must
    be in 1..12 and the day must exist in that month of that year. *)
Definition parseFields (s : string) : option (Z * Z * Z) :=
  match s with
  | String y1 (String y2 (String y3 (String y4 (String s1
      (String m1 (String m2 (String s2 (String d1 (String d2
        EmptyString))))))))) =>
      if isDigit y1 && isDigit y2 && isDigit y3 && isDigit y4
         && Ascii.eqb s1 "-" && isDigit m1 && isDigit m2
         && Ascii.eqb s2 "-" && isDigit d1 && isDigit d2
      then
        let year :=
          digitVal y1 * 1000 + digitVal y2 * 100 + digitVal y3 * 10
          + digitVal y4 in
        let month := digitVal m1 * 10 + digitVal m2 in
        let day := digitVal d1 * 10 + digitVal d2 in
        if (month <=? 0) || (12 <? month) then None
        else if (day <? 1) || (daysIn month year <? day) then None
        else Some (year, month, day)
      else None
  | _ => None
  end.

(** [time.Parse("2006-01-02", s)]: the layout names no zone, so the
    result is midnight UTC of the date read; [None] is the parse error. *)
Definition ParseDate (s : string) : option Time :=
  match parseFields s with
  | Some (year, month, day) => Some (Date year month day 0 0 0 0 UTC)
  | None => None
  end.

(** [time.Now()] on a host whose zone is [Local], at instant [instant]. *)
Definition Now (Local instant : Z) : Time := mkTime instant Local.

(** *** Calendar notions used to state the properties *)

Definition leapDay (year : Z) : Z := if isLeap year then 1 else 0.

(** Days of the year before month [month], the leap day included. *)
Definition yearDaysBefore (year month : Z) : Z :=
  daysBefore (month - 1) + (if isLeap year && (3 <=? month) then 1 else 0).

Definition validDate (year month day : Z) : Prop :=
  1 <= month <= 12 /\ 1 <= day <= daysIn month year.

Definition valid (a : Z * Z * Z) : Prop :=
  let '(y, m, d) := a in validDate y m d.

(** The order of calendar dates. *)
Definition dateLt (a b : Z * Z * Z) : Prop :=
  let '(y1, m1, d1) := a in
  let '(y2, m2, d2) := b in
  y1 < y2 \/ (y1 = y2 /\ (m1 < m2 \/ (m1 = m2 /\ d1 < d2))).

Definition days (a : Z * Z * Z) : Z :=
  let '(y, m, d) := a in dateToDays y m d.

End GoTime.

(** ** The data model (the structs of main.go)

    Fields keep their Go names; where two structs share a field name, or
    a field has the name of its type, the field gets a short prefix. *)

Record NetStats : Type := mkNetStats {
  ReceiveBytes : Z;
  TransmitBytes : Z
}.

Record Statistics : Type := mkStatistics {
  TotalReceive : Z;
  TotalTransmit : Z;
  LastReceive : Z;
  LastTransmit : Z;
  LastReset : string
}.

Record Comparison : Type := mkComparison {
  Category : string;
  Limit : float;
  Threshold : float;
  Ratio : float
}.

Record TelegramMessage : Type := mkTelegramMessage {
  TgThresholdStatus : bool;
  TgRatioStatus : bool;
  Token : string;
  ChatID : string
}.

Record GotifyMessage : Type := mkGotifyMessage {
  GoThresholdStatus : bool;
  GoRatioStatus : bool;
  URL : string;
  AppToken : string
}.

Record Message : Type := mkMessage {
  Service : string;
  Telegram : TelegramMessage;
  Gotify : GotifyMessage
}.

Record Config : Type := mkConfig {
  Device : string;
  Interface : string;
  Interval : Z;
  StartDay : Z;
  cStatistics : Statistics;
  cComparison : Comparison;
  cMessage : Message
}.

(** Field updates, one per assignment form of the source. *)

Definition setTotalReceive (v : Z) (s : Statistics) : Statistics :=
  mkStatistics v (TotalTransmit s) (LastReceive s) (LastTransmit s) (LastReset s).

Definition setTotalTransmit (v : Z) (s : Statistics) : Statistics :=
  mkStatistics (TotalReceive s) v (LastReceive s) (LastTransmit s) (LastReset s).

Definition setLastReceive (v : Z) (s : Statistics) : Statistics :=
  mkStatistics (TotalReceive s) (TotalTransmit s) v (LastTransmit s) (LastReset s).

Definition setLastTransmit (v : Z) (s : Statistics) : Statistics :=
  mkStatistics (TotalReceive s) (TotalTransmit s) (LastReceive s) v (LastReset s).

Definition setLastReset (v : string) (s : Statistics) : Statistics :=
  mkStatistics (TotalReceive s) (TotalTransmit s) (LastReceive s) (LastTransmit s) v.

Definition setTgThresholdStatus (b : bool) (t : TelegramMessage) : TelegramMessage :=
  mkTelegramMessage b (TgRatioStatus t) (Token t) (ChatID t).

Definition setTgRatioStatus (b : bool) (t : TelegramMessage) : TelegramMessage :=
  mkTelegramMessage (TgThresholdStatus t) b (Token t) (ChatID t).

Definition setGoThresholdStatus (b : bool) (g : GotifyMessage) : GotifyMessage :=
  mkGotifyMessage b (GoRatioStatus g) (URL g) (AppToken g).

Definition setGoRatioStatus (b : bool) (g : GotifyMessage) : GotifyMessage :=
  mkGotifyMessage (GoThresholdStatus g) b (URL g) (AppToken g).

Definition updTelegram (f : TelegramMessage -> TelegramMessage) (m : Message) : Message :=
  mkMessage (Service m) (f (Telegram m)) (Gotify m).

Definition updGotify (f : GotifyMessage -> GotifyMessage) (m : Message) : Message :=
  mkMessage (Service m) (Telegram m) (f (Gotify m)).

Definition updStatistics (f : Statistics -> Statistics) (c : Config) : Config :=
  mkConfig (Device c) (Interface c) (Interval c) (StartDay c)
    (f (cStatistics c)) (cComparison c) (cMessage c).

Definition updMessage (f : Message -> Message) (c : Config) : Config :=
  mkConfig (Device c) (Interface c) (Interval c) (StartDay c)
    (cStatistics c) (cComparison c) (f (cMessage c)).

(** ** Floating point

    Go's [float64] is Rocq's primitive binary64 float. *)

Definition bytesToGB : float := 1073741824%float.

(** The conversion [float64(x)] of a [uint64], rounding to nearest even. *)
Definition float64_of_uint64 (x : Z) : float :=
  SF2Prim (SpecFloat.binary_normalize 53 1024 x 0 false).

(** [a >= b] on floats: false as soon as one side is NaN. *)
Definition float_ge (a b : float) : bool := PrimFloat.leb b a.

(** The builtin [max] on two floats: NaN if either is NaN. *)
Definition float_max (a b : float) : float :=
  if PrimFloat.is_nan a || PrimFloat.is_nan b then PrimFloat.nan
  else if PrimFloat.ltb a b then b
  else if PrimFloat.ltb b a then a
  else if PrimFloat.get_sign a then b else a.

(** ** The accumulation step (main.go, lines 443-459)

    The three groups of assignments of the loop body, in their order. *)

Definition detectReboot (stats : NetStats) (s : Statistics) : Statistics :=
  let s :=
    if ReceiveBytes stats <? LastReceive s
    then setTotalReceive (U64.add (TotalReceive s) (LastReceive s)) s
    else s in
  if TransmitBytes stats <? LastTransmit s
  then setTotalTransmit (U64.add (TotalTransmit s) (LastTransmit s)) s
  else s.

Definition updateTotals (stats : NetStats) (s : Statistics) : Statistics :=
  let s :=
    setTotalReceive
      (U64.add (TotalReceive s) (U64.sub (ReceiveBytes stats) (LastReceive s))) s in
  setTotalTransmit
    (U64.add (TotalTransmit s) (U64.sub (TransmitBytes stats) (LastTransmit s))) s.

Definition saveLast (stats : NetStats) (s : Statistics) : Statistics :=
  setLastTransmit (TransmitBytes stats) (setLastReceive (ReceiveBytes stats) s).

Definition accumulate (stats : NetStats) (s : Statistics) : Statistics :=
  saveLast stats (updateTotals stats (detectReboot stats s)).

(** The accumulation over the samples of successive ticks. *)
Definition accumulateAll (samples : list NetStats) (s : Statistics) : Statistics :=
  fold_left (fun s stats => accumulate stats s) samples s.

(** ** checkReset (main.go, lines 116-146)

    [Local] is the zone of the host and [instant] the value of
    [time.Now()]. *)

Definition lastDayOfMonth (Local : Z) (currentTime : GoTime.Time) : Z :=
  let firstOfMonth :=
    GoTime.Date (GoTime.Year currentTime) (GoTime.Month currentTime) 1 0 0 0 0
      Local in
  let nextMonth := GoTime.AddDate firstOfMonth 0 1 0 in
  GoTime.Day (GoTime.AddDate nextMonth 0 0 (-1)).

Definition resetDayOf (Local : Z) (currentTime : GoTime.Time) (config : Config) : Z :=
  let resetDay := StartDay config in
  if lastDayOfMonth Local currentTime <? resetDay
  then lastDayOfMonth Local currentTime
  else resetDay.

Definition resetDateOf (Local : Z) (currentTime : GoTime.Time) (config : Config)
  : GoTime.Time :=
  GoTime.Date (GoTime.Year currentTime) (GoTime.Month currentTime)
    (resetDayOf Local currentTime config) 0 0 0 0 Local.

Definition checkReset (Local instant : Z) (config : Config) : bool :=
  let currentTime := GoTime.Now Local instant in
  match GoTime.ParseDate (LastReset (cStatistics config)) with
  | None => true
  | Some lastReset =>
      let resetDate := resetDateOf Local currentTime config in
      if GoTime.Before lastReset resetDate && GoTime.After currentTime resetDate
      then true
      else false
  end.

(** The reset date of the month of [t]: the start day, or the last day
    of the month when the month is shorter. *)
Definition resetCivil (t : GoTime.Time) (c : Config) : Z * Z * Z :=
  (GoTime.Year t, GoTime.Month t,
   Z.min (StartDay c) (GoTime.daysIn (GoTime.Month t) (GoTime.Year t))).

(** What [checkReset] computes, in terms of calendar dates: with [L]
    the recorded date, [R] the reset date of the current month and the
    current wall clock, the answer is true when [L] cannot be read, and
    otherwise when [L] is before [R] (or on [R], on a host west of UTC)
    and the clock is past the midnight that begins [R]. *)
Definition checkResetSpec (Local instant : Z) (c : Config) : Prop :=
  let now := GoTime.Now Local instant in
  let R := resetCivil now c in
  match GoTime.parseFields (LastReset (cStatistics c)) with
  | None => True
  | Some L =>
      (GoTime.dateLt L R \/ (L = R /\ Local < 0))
      /\ (GoTime.dateLt R (GoTime.civil now)
          \/ (R = GoTime.civil now /\ 0 < GoTime.nanoOfDay now))
  end.

(** ** The outside world

    What the program does to its surroundings is a list of events, in
    the order they happen; what the surroundings answer (whether an HTTP
    request went through, whether the file was written, whether a
    command exists or ran) is read from a sequence of booleans, one per
    question asked. The text of a message is kept as the values it is
    formatted from. *)

Inductive CategoryUsage : Type :=
| UsageUnknown
| UsageDownload (gb percent : float)
| UsageUpload (gb percent : float)
| UsageTotal (gb percent : float)
| UsageAnyMax (gb percent : float).

Inductive Notice : Type :=
| ThresholdNotice (valueInGB percent : float)
| RatioNotice (valueInGB percent : float)
| SummaryNotice (since : string) (receiveGB transmitGB totalGB : float)
    (category : string) (limit : float) (usage : CategoryUsage).

Inductive error : Type :=
| ErrUnknownService (service : string)
| ErrDelivery (service : string)
| ErrInvalidCategory (category : string)
| ErrWriteFile
| ErrCommand.

Inductive LogLine : Type :=
| FailedSummary (e : error)
| FailedSaveAfterReset (e : error)
| FailedThresholdMessage (e : error)
| FailedSaveAfterThreshold (e : error)
| FailedRatioMessage (e : error)
| FailedSaveAfterRatio (e : error)
| FailedShutdown (e : error)
| ErrorReadingStats
| FailedUpdateStats (e : error)
| ComparisonError (e : error).

Inductive Event : Type :=
| EvSend (n : Notice) (r : option error)
| EvSave (c : Config) (r : option error)
| EvPrint (l : LogLine)
| EvSleep (seconds : Z)
| EvRun (command : string) (r : option error).

Record World : Type := mkWorld {
  config : Config;
  answers : nat -> bool;
  asked : nat
}.

(** The monad of the program: a state over [World] that also writes
    its events. *)
Definition M (A : Type) : Type := World -> A * World * list Event.

Definition ret {A : Type} (a : A) : M A := fun w => (a, w, []).

Definition bind {A B : Type} (m : M A) (k : A -> M B) : M B :=
  fun w =>
    let '(a, w1, e1) := m w in
    let '(b, w2, e2) := k a w1 in
    (b, w2, e1 ++ e2).

Declare Scope go_scope.
Delimit Scope go_scope with go.

Notation "x <- m ;; k" := (bind m (fun x => k))
  (at level 61, m at next level, right associativity) : go_scope.
Notation "m ;; k" := (bind m (fun _ => k))
  (at level 61, right associativity) : go_scope.

Local Open Scope go_scope.

Definition getConfig : M Config := fun w => (config w, w, []).

Definition modifyConfig (f : Config -> Config) : M unit :=
  fun w => (tt, mkWorld (f (config w)) (answers w) (asked w), []).

Definition ask : M bool :=
  fun w => (answers w (asked w), mkWorld (config w) (answers w) (S (asked w)), []).

Definition emit (e : Event) : M unit := fun w => (tt, w, [e]).

Definition events {A : Type} (m : M A) (w : World) : list Event := snd (m w).
Definition value {A : Type} (m : M A) (w : World) : A := fst (fst (m w)).
Definition worldAfter {A : Type} (m : M A) (w : World) : World := snd (fst (m w)).

(** [saveConfig]: the file is written or not; the configuration in
    memory is untouched either way. *)
Definition saveConfig : M (option error) :=
  c <- getConfig ;;
  ok <- ask ;;
  let r := if ok then None else Some ErrWriteFile in
  emit (EvSave c r) ;;
  ret r.

(** [sendTelegramMessage] (lines 225-240) and [sendGotifyMessage]
    (lines 243-273): one request each, and the answer of the world is
    whether the function returns nil. For Telegram that is whether
    [http.Post] returned without error, whatever the status of the
    response; for Gotify, whether the request could be built and sent
    and the status was below 400. *)
Definition sendTelegramMessage (token chatID : string) (message : Notice)
  (device : string) : M (option error) :=
  ok <- ask ;;
  ret (if ok then None else Some (ErrDelivery "telegram")).

Definition sendGotifyMessage (url appToken : string) (message : Notice)
  (device : string) : M (option error) :=
  ok <- ask ;;
  ret (if ok then None else Some (ErrDelivery "gotify")).

(** [sendMessage] (lines 276-295); the call and its outcome are
    recorded as an [EvSend] event. *)
Definition sendMessage (message : Notice) : M (option error) :=
  c <- getConfig ;;
  r <- (if String.eqb (Service (cMessage c)) "telegram" then
          sendTelegramMessage (Token (Telegram (cMessage c)))
            (ChatID (Telegram (cMessage c))) message (Device c)
        else if String.eqb (Service (cMessage c)) "gotify" then
          sendGotifyMessage (URL (Gotify (cMessage c)))
            (AppToken (Gotify (cMessage c))) message (Device c)
        else ret (Some (ErrUnknownService (Service (cMessage c))))) ;;
  emit (EvSend message r) ;;
  ret r.

Definition commandExists (cmd : string) : M bool := ask.

Definition runCommand (cmd : string) : M (option error) :=
  ok <- ask ;;
  let r := if ok then None else Some ErrCommand in
  emit (EvRun cmd r) ;;
  ret r.

(** ** sendStatisticsSummary (lines 149-192) *)

Definition sendStatisticsSummary : M (option error) :=
  c <- getConfig ;;
  let receiveGB := (float64_of_uint64 (TotalReceive (cStatistics c)) / bytesToGB)%float in
  let transmitGB := (float64_of_uint64 (TotalTransmit (cStatistics c)) / bytesToGB)%float in
  let totalGB := (receiveGB + transmitGB)%float in
  let limit := Limit (cComparison c) in
  let category := Category (cComparison c) in
  let categoryUsage :=
    if String.eqb category "download" then
      UsageDownload receiveGB (receiveGB / limit * 100)%float
    else if String.eqb category "upload" then
      UsageUpload transmitGB (transmitGB / limit * 100)%float
    else if String.eqb category "upload+download" then
      UsageTotal totalGB (totalGB / limit * 100)%float
    else if String.eqb category "anymax" then
      let maxGB := float_max receiveGB transmitGB in
      UsageAnyMax maxGB (maxGB / limit * 100)%float
    else UsageUnknown in
  let lastResetTime :=
    match GoTime.ParseDate (LastReset (cStatistics c)) with
    | Some t => t
    | None => GoTime.Date 1 1 1 0 0 0 0 GoTime.UTC
    end in
  sendMessage
    (SummaryNotice (GoTime.FormatDate lastResetTime) receiveGB transmitGB
       totalGB category limit categoryUsage).

(** ** resetStatistics (lines 195-222)

    [instant] is the value of [time.Now()] at line 207. *)

Definition resetStatistics (Local instant : Z) : M unit :=
  err <- sendStatisticsSummary ;;
  match err with
  | Some e => emit (EvPrint (FailedSummary e))
  | None => ret tt
  end ;;
  modifyConfig (updStatistics (setTotalReceive 0)) ;;
  modifyConfig (updStatistics (setTotalTransmit 0)) ;;
  modifyConfig
    (updStatistics (setLastReset (GoTime.FormatDate (GoTime.Now Local instant)))) ;;
  modifyConfig (updMessage (updTelegram (setTgThresholdStatus false))) ;;
  modifyConfig (updMessage (updTelegram (setTgRatioStatus false))) ;;
  modifyConfig (updMessage (updGotify (setGoThresholdStatus false))) ;;
  modifyConfig (updMessage (updGotify (setGoRatioStatus false))) ;;
  err <- saveConfig ;;
  match err with
  | Some e => emit (EvPrint (FailedSaveAfterReset e))
  | None => ret tt
  end.

(** ** performComparison (lines 304-397) *)

(** The [switch] on the category: the usage in GB, or no value for a
    category that is none of the four. *)
Definition usageInGB (c : Config) : option float :=
  let category := Category (cComparison c) in
  let s := cStatistics c in
  if String.eqb category "download" then
    Some (float64_of_uint64 (TotalReceive s) / bytesToGB)%float
  else if String.eqb category "upload" then
    Some (float64_of_uint64 (TotalTransmit s) / bytesToGB)%float
  else if String.eqb category "upload+download" then
    Some (float64_of_uint64 (U64.add (TotalReceive s) (TotalTransmit s)) / bytesToGB)%float
  else if String.eqb category "anymax" then
    let receiveGB := (float64_of_uint64 (TotalReceive s) / bytesToGB)%float in
    let transmitGB := (float64_of_uint64 (TotalTransmit s) / bytesToGB)%float in
    Some (float_max receiveGB transmitGB)
  else None.

Definition thresholdLimitOf (c : Config) : float :=
  (Limit (cComparison c) * Threshold (cComparison c))%float.

Definition ratioLimitOf (c : Config) : float :=
  (Limit (cComparison c) * Ratio (cComparison c))%float.

(** The local variables [thresholdStatus] and [ratioStatus] (lines
    327-334): the flags of the configured service, false when the
    service is neither of the two. *)
Definition thresholdStatusOf (c : Config) : bool :=
  if String.eqb (Service (cMessage c)) "telegram" then
    TgThresholdStatus (Telegram (cMessage c))
  else if String.eqb (Service (cMessage c)) "gotify" then
    GoThresholdStatus (Gotify (cMessage c))
  else false.

Definition ratioStatusOf (c : Config) : bool :=
  if String.eqb (Service (cMessage c)) "telegram" then
    TgRatioStatus (Telegram (cMessage c))
  else if String.eqb (Service (cMessage c)) "gotify" then
    GoRatioStatus (Gotify (cMessage c))
  else false.

Definition markThreshold (c : Config) : Config :=
  if String.eqb (Service (cMessage c)) "telegram" then
    updMessage (updTelegram (setTgThresholdStatus true)) c
  else if String.eqb (Service (cMessage c)) "gotify" then
    updMessage (updGotify (setGoThresholdStatus true)) c
  else c.

Definition markRatio (c : Config) : Config :=
  if String.eqb (Service (cMessage c)) "telegram" then
    updMessage (updTelegram (setTgRatioStatus true)) c
  else if String.eqb (Service (cMessage c)) "gotify" then
    updMessage (updGotify (setGoRatioStatus true)) c
  else c.

(** Lines 337-356. *)
Definition thresholdCheck (valueInGB : float) (thresholdStatus : bool) : M unit :=
  c <- getConfig ;;
  if float_ge valueInGB (thresholdLimitOf c) && negb thresholdStatus then
    err <- sendMessage
             (ThresholdNotice valueInGB (Threshold (cComparison c) * 100)%float) ;;
    match err with
    | Some e => emit (EvPrint (FailedThresholdMessage e))
    | None =>
        modifyConfig markThreshold ;;
        err <- saveConfig ;;
        match err with
        | Some e => emit (EvPrint (FailedSaveAfterThreshold e))
        | None => ret tt
        end
    end
  else ret tt.

(** Lines 359-394. *)
Definition ratioCheck (valueInGB : float) (ratioStatus : bool) : M unit :=
  c <- getConfig ;;
  if float_ge valueInGB (ratioLimitOf c) && negb ratioStatus then
    err <- sendMessage
             (RatioNotice valueInGB (Ratio (cComparison c) * 100)%float) ;;
    match err with
    | Some e => emit (EvPrint (FailedRatioMessage e))
    | None =>
        modifyConfig markRatio ;;
        err <- saveConfig ;;
        match err with
        | Some e => emit (EvPrint (FailedSaveAfterRatio e))
        | None => ret tt
        end ;;
        emit (EvSleep 30) ;;
        found <- commandExists "shutdown" ;;
        err <- runCommand (if found then "shutdown -h now" else "poweroff") ;;
        match err with
        | Some e => emit (EvPrint (FailedShutdown e))
        | None => ret tt
        end
    end
  else ret tt.

Definition performComparison : M (option error) :=
  c <- getConfig ;;
  match usageInGB c with
  | None => ret (Some (ErrInvalidCategory (Category (cComparison c))))
  | Some valueInGB =>
      let thresholdStatus := thresholdStatusOf c in
      let ratioStatus := ratioStatusOf c in
      thresholdCheck valueInGB thresholdStatus ;;
      ratioCheck valueInGB ratioStatus ;;
      ret None
  end.

(** ** One iteration of the loop of [main] (lines 429-481)

    The inputs of an iteration: the clock read by [checkReset], the clock
    read by [resetStatistics] when it runs, and what [readNetworkStats]
    returns ([None] is its error). *)

Record Tick : Type := mkTick {
  checkInstant : Z;
  resetInstant : Z;
  sample : option NetStats
}.

Definition intervalOf (c : Config) : Z :=
  if Interval c =? 0 then 600 else Interval c.

Definition iteration (Local : Z) (t : Tick) : M unit :=
  c <- getConfig ;;
  (if checkReset Local (checkInstant t) c
   then resetStatistics Local (resetInstant t)
   else ret tt) ;;
  match sample t with
  | None =>
      emit (EvPrint ErrorReadingStats) ;;
      emit (EvSleep (intervalOf c))
  | Some stats =>
      modifyConfig (updStatistics (accumulate stats)) ;;
      err <- saveConfig ;;
      match err with
      | Some e => emit (EvPrint (FailedUpdateStats e))
      | None => ret tt
      end ;;
      err <- performComparison ;;
      match err with
      | Some e => emit (EvPrint (ComparisonError e))
      | None => ret tt
      end ;;
      emit (EvSleep (intervalOf c))
  end.

(** The worlds reached after each of the given iterations, the initial
    one first. *)
Fixpoint history (Local : Z) (ticks : list Tick) (w : World) : list World :=
  match ticks with
  | [] => [w]
  | t :: ticks' => w :: history Local ticks' (worldAfter (iteration Local t) w)
  end.

(** The events of the given iterations, in order. *)
Fixpoint eventsOf (Local : Z) (ticks : list Tick) (w : World) : list Event :=
  match ticks with
  | [] => []
  | t :: ticks' =>
      events (iteration Local t) w
      ++ eventsOf Local ticks' (worldAfter (iteration Local t) w)
  end.

(** ** Notions used to state the properties *)

(** The received values of a sequence of samples, the differences of
    consecutive values starting from a baseline, and sequences that
    never go below the value before. *)
Definition received (samples : list NetStats) : list Z := map ReceiveBytes samples.

Fixpoint deltas (base : Z) (values : list Z) : list Z :=
  match values with
  | [] => []
  | v :: values' => (v - base) :: deltas v values'
  end.

Definition sum (l : list Z) : Z := fold_right Z.add 0 l.

Fixpoint nondecreasingFrom (base : Z) (values : list Z) : Prop :=
  match values with
  | [] => True
  | v :: values' => base <= v /\ nondecreasingFrom v values'
  end.

(** The two checks of [performComparison] for a usage of [v] GB. *)
Definition bothChecks (v : float) : M (option error) :=
  fun w =>
    (thresholdCheck v (thresholdStatusOf (config w)) ;;
     ratioCheck v (ratioStatusOf (config w)) ;;
     ret None) w.

(** The world after lines 443-465 of an iteration: the sample is
    accumulated and the configuration saved. *)
Definition sampled (stats : NetStats) (w : World) : World :=
  mkWorld (updStatistics (accumulate stats) (config w)) (answers w) (S (asked w)).

(** Kinds of events. *)
Definition isThresholdSend (e : Event) : bool :=
  match e with EvSend (ThresholdNotice _ _) _ => true | _ => false end.

Definition isRatioSend (e : Event) : bool :=
  match e with EvSend (RatioNotice _ _) _ => true | _ => false end.

Definition failedThresholdSend (e : Event) : bool :=
  match e with EvSend (ThresholdNotice _ _) (Some _) => true | _ => false end.

Definition failedRatioSend (e : Event) : bool :=
  match e with EvSend (RatioNotice _ _) (Some _) => true | _ => false end.

(** The shutdown: the command is run; before it, the program sleeps. *)
Definition isShutdown (e : Event) : bool :=
  match e with EvRun _ _ => true | _ => false end.

Definition isSleep (e : Event) : bool :=
  match e with EvSleep _ => true | _ => false end.

Definition isPrint (e : Event) : bool :=
  match e with EvPrint _ => true | _ => false end.

Definition isSend (e : Event) : bool :=
  match e with EvSend _ _ => true | _ => false end.

(** The service is one of the two the program knows. *)
Definition knownService (c : Config) : bool :=
  String.eqb (Service (cMessage c)) "telegram"
  || String.eqb (Service (cMessage c)) "gotify".

(** No iteration of the run closes the cycle: [checkReset] answers
    false each time it is asked. *)
Fixpoint noReset (Local : Z) (ticks : list Tick) (w : World) : Prop :=
  match ticks with
  | [] => True
  | t :: ticks' =>
      checkReset Local (checkInstant t) (config w) = false
      /\ noReset Local ticks' (worldAfter (iteration Local t) w)
  end.

(** The changes of a flag along a run: from false to true, and from
    true to false. *)
Fixpoint rises (l : list bool) : nat :=
  match l with
  | a :: (b :: _) as l' => (if negb a && b then 1 else 0) + rises l'
  | _ => 0
  end%nat.

Fixpoint falls (l : list bool) : nat :=
  match l with
  | a :: (b :: _) as l' => (if a && negb b then 1 else 0) + falls l'
  | _ => 0
  end%nat.

Fixpoint neverFalls (l : list bool) : Prop :=
  match l with
  | a :: (b :: _) as l' => (a = true -> b = true) /\ neverFalls l'
  | _ => True
  end.

Definition thresholdFlags (ws : list World) : list bool :=
  map (fun w => thresholdStatusOf (config w)) ws.

Definition ratioFlags (ws : list World) : list bool :=
  map (fun w => ratioStatusOf (config w)) ws.

(** The configuration that [resetStatistics] leaves (lines 203-215). *)
Definition closedConfig (Local instant : Z) (c : Config) : Config :=
  updMessage (updGotify (setGoRatioStatus false))
    (updMessage (updGotify (setGoThresholdStatus false))
       (updMessage (updTelegram (setTgRatioStatus false))
          (updMessage (updTelegram (setTgThresholdStatus false))
             (updStatistics
                (setLastReset (GoTime.FormatDate (GoTime.Now Local instant)))
                (updStatistics (setTotalTransmit 0)
                   (updStatistics (setTotalReceive 0) c)))))).

(** ** The rule of the specification for the cycle check

    Stated on calendar dates: reset when the recorded date cannot be
    read, and otherwise when the recorded date is before the reset date
    of the current month and today is on or after it. *)

Definition dateLtb (a b : Z * Z * Z) : bool :=
  let '(y1, m1, d1) := a in
  let '(y2, m2, d2) := b in
  (y1 <? y2) || ((y1 =? y2) && ((m1 <? m2) || ((m1 =? m2) && (d1 <? d2)))).

Definition shouldResetStated (today : Z * Z * Z) (recorded : string)
  (startDay : Z) : bool :=
  match GoTime.parseFields recorded with
  | None => true
  | Some L =>
      let '(y, m, _) := today in
      let R := (y, m, Z.min startDay (GoTime.daysIn m y)) in
      dateLtb L R && negb (dateLtb today R)
  end.

(** ** Sample configurations *)

Definition sampleComparison : Comparison :=
  mkComparison "upload+download" 100%float 0x1.999999999999ap-1%float
    0x1.e666666666666p-1%float.

Definition sampleMessage (service : string) (thresholdFired ratioFired : bool)
  : Message :=
  mkMessage service
    (mkTelegramMessage thresholdFired ratioFired "token" "chat")
    (mkGotifyMessage thresholdFired ratioFired "http://gotify" "app").

(** A configuration with start day 5, the given totals, last reset
    date, service and flags. *)
Definition sampleConfig (totalReceive totalTransmit : Z) (lastReset : string)
  (service : string) (thresholdFired ratioFired : bool) : Config :=
  mkConfig "host" "eth0" 600 5
    (mkStatistics totalReceive totalTransmit 1000 2000 lastReset)
    sampleComparison (sampleMessage service thresholdFired ratioFired).

(** A world in which every request, write and command succeeds, and one
    in which every one fails. *)
Definition fairWorld (c : Config) : World := mkWorld c (fun _ => true) 0.
Definition foulWorld (c : Config) : World := mkWorld c (fun _ => false) 0.

Definition GB : Z := 1024 * 1024 * 1024.

(** *** The scenario of the specification

    Limit 100 GB, threshold 0.8, ratio 0.95, category upload+download,
    every request delivered. At 80.5 GB the threshold notice is sent and
    its flag set; at 95.2 GB the shutdown warning is sent, its flag set
    and the shutdown run; at 96 GB nothing is sent. *)

Definition scenarioTicks : list Tick :=
  let t := GoTime.unixNano (GoTime.Date 2024 2 10 9 0 0 0 0) in
  [mkTick t t (Some (mkNetStats 86436217832 2000));
   mkTick (t + 600000000000) t (Some (mkNetStats 102220222645 2000));
   mkTick (t + 1200000000000) t (Some (mkNetStats 103079216360 2000))].

Definition scenarioWorld : World :=
  fairWorld (sampleConfig 0 0 "2024-02-05" "telegram" false false).

(** The usage stands at 96 GB and every request fails. *)
Definition outageWorld : World :=
  foulWorld (sampleConfig (96 * GB) 0 "2024-02-05" "gotify" false false).

(** The usage is far below the limits and the service is unknown. *)
Definition strayWorld : World :=
  fairWorld (sampleConfig GB 0 "2024-02-05" "slack" false false).

(** ** The statements of the specification that do not hold as written *)

(** Reset resilience, as the specification words it: across a detected
    reset the total grows by the stale baseline and by the new sample. *)
Definition resetResilienceAsStated (s : Statistics) (stats : NetStats) : Prop :=
  ReceiveBytes stats < LastReceive s ->
  TotalReceive (accumulate stats s)
  = TotalReceive s + LastReceive s + ReceiveBytes stats.

(** Monotonic accrual, as the specification words it, over the
    integers. *)
Definition monotonicAccrualAsStated (s : Statistics) (samples : list NetStats) : Prop :=
  nondecreasingFrom (LastReceive s) (received samples) ->
  TotalReceive (accumulateAll samples s)
  = TotalReceive s + sum (deltas (LastReceive s) (received samples))
  /\ TotalReceive (accumulateAll samples s)
     = TotalReceive s + last (received samples) (LastReceive s) - LastReceive s.

(** A configuration error: a category that is none of the four, or a
    service that is neither of the two. *)
Definition configError (c : Config) : Prop :=
  usageInGB c = None \/ knownService c = false.

(** The error is reported: returned to [main], which prints it, or
    printed by [performComparison] itself. *)
Definition errorReported (w : World) : Prop :=
  value performComparison w <> None
  \/ existsb isPrint (events performComparison w) = true.

(** Configuration errors, as the specification words them: the
    evaluation is aborted with the error reported, with no notification
    attempt, no flag update and no shutdown. *)
Definition configErrorAbortsAsStated (w : World) : Prop :=
  configError (config w) ->
  errorReported w
  /\ existsb isSend (events performComparison w) = false
  /\ config (worldAfter performComparison w) = config w
  /\ existsb isShutdown (events performComparison w) = false.

(** ** Further notions: the accumulation in general *)

(** What a tick adds to a total: the sample itself after a reset of the
    counter, the difference with the last value otherwise. *)
Definition increment (prev v : Z) : Z := if v <? prev then v else v - prev.

Fixpoint increments (base : Z) (values : list Z) : list Z :=
  match values with
  | [] => []
  | v :: values' => increment base v :: increments v values'
  end.

Definition transmitted (samples : list NetStats) : list Z :=
  map TransmitBytes samples.


(** ** Further notions: what a run leaves behind *)

Definition isSave (e : Event) : bool :=
  match e with EvSave _ _ => true | _ => false end.

(** The configuration of the last write attempted among the events. *)
Definition lastSaved (evs : list Event) : option Config :=
  fold_left (fun acc e => match e with EvSave c _ => Some c | _ => acc end)
    evs None.

(** A notice that went through. *)
Definition deliveredThresholdSend (e : Event) : bool :=
  match e with EvSend (ThresholdNotice _ _) None => true | _ => false end.

Definition deliveredRatioSend (e : Event) : bool :=
  match e with EvSend (RatioNotice _ _) None => true | _ => false end.

(** The figures and the date of a summary. *)
Definition summaryFigures (e : Event) : option (float * float * float) :=
  match e with
  | EvSend (SummaryNotice _ receiveGB transmitGB totalGB _ _ _) _ =>
      Some (receiveGB, transmitGB, totalGB)
  | _ => None
  end.

Definition summarySince (e : Event) : option string :=
  match e with
  | EvSend (SummaryNotice since _ _ _ _ _ _) _ => Some since
  | _ => None
  end.

Definition inGB (bytes : Z) : float := (float64_of_uint64 bytes / bytesToGB)%float.

(** The samples that the iterations could read. *)
Definition samplesOf (ticks : list Tick) : list NetStats :=
  flat_map (fun t => match sample t with Some stats => [stats] | None => [] end)
    ticks.

(** The settings: what the user writes in the configuration file, as
    opposed to the statistics and the flags that the program keeps
    there. *)
Definition sameSettings (c c' : Config) : Prop :=
  Device c' = Device c
  /\ Interface c' = Interface c
  /\ Interval c' = Interval c
  /\ StartDay c' = StartDay c
  /\ cComparison c' = cComparison c
  /\ Service (cMessage c') = Service (cMessage c)
  /\ Token (Telegram (cMessage c')) = Token (Telegram (cMessage c))
  /\ ChatID (Telegram (cMessage c')) = ChatID (Telegram (cMessage c))
  /\ URL (Gotify (cMessage c')) = URL (Gotify (cMessage c))
  /\ AppToken (Gotify (cMessage c')) = AppToken (Gotify (cMessage c)).

(** The world after lines 431-434 of an iteration: the cycle is closed
    when [checkReset] says so. *)
Definition closing (Local : Z) (t : Tick) (w : World) : World :=
  if checkReset Local (checkInstant t) (config w)
  then worldAfter (resetStatistics Local (resetInstant t)) w
  else w.

(** The world at the end of a run. *)
Fixpoint run (Local : Z) (ticks : list Tick) (w : World) : World :=
  match ticks with
  | [] => w
  | t :: ticks' => run Local ticks' (worldAfter (iteration Local t) w)
  end.

(** The part of the message settings that belongs to the service that
    is not the configured one is left alone. *)
Definition keepsOtherService (c c' : Config) : Prop :=
  (Service (cMessage c) <> "telegram"%string ->
   Telegram (cMessage c') = Telegram (cMessage c))
  /\ (Service (cMessage c) <> "gotify"%string ->
      Gotify (cMessage c') = Gotify (cMessage c)).

(** Every change of the configuration in memory has been followed by
    an attempt to write it: the last write among the events, when there
    is one, is of the final configuration, and when there is none the
    configuration has not changed. *)
Definition writtenBack (evs : list Event) (c c' : Config) : Prop :=
  match lastSaved evs with
  | Some saved => saved = c'
  | None => c' = c
  end.

(** The sleeps of the loop: thirty seconds before a shutdown, the
    interval otherwise. *)
Definition sleepsFor (interval : Z) (e : Event) : Prop :=
  match e with
  | EvSleep seconds => seconds = 30 \/ seconds = interval
  | _ => True
  end.


(** ** readNetworkStats (main.go, lines 70-90)

    The file is given as what [os.Open] and the scanner make of it:
    [None] when it cannot be opened, and otherwise the lines that
    [scanner.Scan] yields, in order, without their line ends. *)

Module Strings.

(** [strings.Contains]: the bytes of [substr] occur in [s]. *)
Fixpoint Contains (s substr : string) : bool :=
  String.prefix substr s
  || match s with
     | EmptyString => false
     | String _ s' => Contains s' substr
     end.

(** The white space of [strings.Fields] among the ASCII bytes: tab,
    line feed, vertical tab, form feed, carriage return and space. *)
Definition asciiSpace (c : ascii) : bool :=
  let n := Z.of_N (N_of_ascii c) in ((9 <=? n) && (n <=? 13)) || (n =? 32).

Definition isASCII (c : ascii) : bool := Z.of_N (N_of_ascii c) <? 128.

Fixpoint allASCII (s : string) : bool :=
  match s with
  | EmptyString => true
  | String c s' => isASCII c && allASCII s'
  end.

(** The fields of [s] after the field [cur] that is being read. *)
Fixpoint fieldsFrom (s : string) (cur : string) : list string :=
  match s with
  | EmptyString => if String.eqb cur "" then [] else [cur]
  | String c s' =>
      if asciiSpace c then
        if String.eqb cur "" then fieldsFrom s' ""
        else cur :: fieldsFrom s' ""
      else fieldsFrom s' (cur ++ String c "")
  end.

(** [strings.Fields] on a string of ASCII bytes: the maximal runs of
    bytes that are not white space. A string with a byte of 128 or more
    is split by the library on Unicode white space as well; it is
    outside of this model, which gives [None] for it. *)
Definition Fields (s : string) : option (list string) :=
  if allASCII s then Some (fieldsFrom s "") else None.

(** [strings.TrimRight(s, "/")]. *)
Fixpoint TrimRightSlash (s : string) : string :=
  match s with
  | EmptyString => EmptyString
  | String c s' =>
      match TrimRightSlash s' with
      | EmptyString => if Ascii.eqb c "/" then EmptyString else String c EmptyString
      | rest => String c rest
      end
  end.

End Strings.

Module Strconv.

Inductive NumError : Type := ErrSyntax | ErrRange.

Definition maxUint64 : Z := 18446744073709551615.

(** The smallest number [n] such that [n * 10] overflows. *)
Definition cutoff : Z := maxUint64 / 10 + 1.

(** The loop of [strconv.ParseUint] for base 10 and 64 bits, with [n]
    the value read so far. *)
Fixpoint parseLoop (s : string) (n : Z) : Z * option NumError :=
  match s with
  | EmptyString => (n, None)
  | String c s' =>
      if GoTime.isDigit c then
        if cutoff <=? n then (maxUint64, Some ErrRange)
        else
          let n := U64.wrap (n * 10) in
          let n1 := U64.add n (GoTime.digitVal c) in
          if (n1 <? n) || (maxUint64 <? n1) then
            (maxUint64, Some ErrRange)
          else parseLoop s' n1
      else (0, Some ErrSyntax)
  end.

(** [strconv.ParseUint(s, 10, 64)]. *)
Definition ParseUint (s : string) : Z * option NumError :=
  if String.eqb s "" then (0, Some ErrSyntax) else parseLoop s 0.

End Strconv.

Inductive ReadError : Type :=
| ErrOpen
| ErrInterfaceNotFound (iface : string).

(** What a call of [readNetworkStats] comes to: its two results, a
    panic of the runtime on an index out of range, or a line that is
    outside of the model of [strings.Fields]. *)
Inductive ReadOutcome : Type :=
| ReadOk (stats : NetStats)
| ReadFailed (e : ReadError)
| ReadPanic
| ReadUnmodelled.

(** Lines 81-85, for a line that names the interface. *)
Definition readLine (line : string) : ReadOutcome :=
  match Strings.Fields line with
  | None => ReadUnmodelled
  | Some fields =>
      match nth_error fields 1 with
      | None => ReadPanic
      | Some field1 =>
          let receiveBytes := fst (Strconv.ParseUint field1) in
          match nth_error fields 9 with
          | None => ReadPanic
          | Some field9 =>
              let transmitBytes := fst (Strconv.ParseUint field9) in
              ReadOk (mkNetStats receiveBytes transmitBytes)
          end
      end
  end.

Fixpoint scanLines (lines : list string) (iface : string) : ReadOutcome :=
  match lines with
  | [] => ReadFailed (ErrInterfaceNotFound iface)
  | line :: lines' =>
      if Strings.Contains line (iface ++ ":") then readLine line
      else scanLines lines' iface
  end.

Definition readNetworkStats (file : option (list string)) (iface : string)
  : ReadOutcome :=
  match file with
  | None => ReadFailed ErrOpen
  | Some lines => scanLines lines iface
  end.

(** *** A line of /proc/net/dev

    The name of the interface, padded on the left, a colon, and the
    counters in decimal, each after one space or more. *)

Fixpoint spaces (n : nat) : string :=
  match n with
  | O => EmptyString
  | S n' => String " " (spaces n')
  end.

Definition formatUint (u : Z) : string :=
  GoTime.decimal (S (Z.to_nat (Z.log2 u))) u EmptyString.

Fixpoint columns (cols : list (nat * Z)) : string :=
  match cols with
  | [] => EmptyString
  | (pad, u) :: cols' => spaces (S pad) ++ formatUint u ++ columns cols'
  end.

Definition deviceLine (pad : nat) (name : string) (cols : list (nat * Z)) : string :=
  spaces pad ++ name ++ ":" ++ columns cols.

(** A name without white space, in ASCII. *)
Fixpoint isWord (s : string) : bool :=
  match s with
  | EmptyString => true
  | String c s' => Strings.isASCII c && negb (Strings.asciiSpace c) && isWord s'
  end.

(** ** The address of the Gotify server (line 244) *)

Definition gotifyAPIURL (url : string) : string :=
  Strings.TrimRightSlash url ++ "/message".

Fixpoint slashes (n : nat) : string :=
  match n with
  | O => EmptyString
  | S n' => String "/" (slashes n')
  end.

Fixpoint endsWithSlash (s : string) : bool :=
  match s with
  | EmptyString => false
  | String c EmptyString => Ascii.eqb c "/"
  | String _ s' => endsWithSlash s'
  end.

(** * Part two: lemmas and theorems *)

(** ** The counters *)

Section Counters.

Lemma wrap_wrap x : U64.wrap (U64.wrap x) = U64.wrap x.
Proof. unfold U64.wrap. apply Z.mod_mod. discriminate. Qed.

Lemma add_wrap_l x y : U64.add (U64.wrap x) y = U64.wrap (x + y).
Proof. unfold U64.add, U64.wrap. apply Zplus_mod_idemp_l. Qed.

Lemma add_wrap_r x y : U64.add x (U64.wrap y) = U64.wrap (x + y).
Proof. unfold U64.add, U64.wrap. apply Zplus_mod_idemp_r. Qed.

Lemma wrap_small x : U64.ok x -> U64.wrap x = x.
Proof. unfold U64.ok, U64.wrap. intros H. apply Z.mod_small. exact H. Qed.

Lemma wrap_ok x : U64.ok (U64.wrap x).
Proof. unfold U64.ok, U64.wrap. apply Z.mod_pos_bound. reflexivity. Qed.

(** The fold of the stale baseline and the delta that follows cancel. *)
Lemma fold_then_delta total last v :
  U64.add (U64.add total last) (U64.sub v last) = U64.wrap (total + v).
Proof.
  unfold U64.add, U64.sub, U64.wrap.
  rewrite Zplus_mod_idemp_r, Zplus_mod_idemp_l. f_equal. ring.
Qed.

Lemma TotalReceive_steps stats s :
  TotalReceive (updateTotals stats (detectReboot stats s))
  = U64.add
      (if ReceiveBytes stats <? LastReceive s
       then U64.add (TotalReceive s) (LastReceive s) else TotalReceive s)
      (U64.sub (ReceiveBytes stats) (LastReceive s)).
Proof.
  unfold updateTotals, detectReboot.
  destruct (ReceiveBytes stats <? LastReceive s);
    cbn [LastTransmit LastReceive setTotalReceive];
    destruct (TransmitBytes stats <? LastTransmit s); reflexivity.
Qed.

Lemma TotalTransmit_steps stats s :
  TotalTransmit (updateTotals stats (detectReboot stats s))
  = U64.add
      (if TransmitBytes stats <? LastTransmit s
       then U64.add (TotalTransmit s) (LastTransmit s) else TotalTransmit s)
      (U64.sub (TransmitBytes stats) (LastTransmit s)).
Proof.
  unfold updateTotals, detectReboot.
  destruct (ReceiveBytes stats <? LastReceive s);
    cbn [LastTransmit LastReceive setTotalReceive];
    destruct (TransmitBytes stats <? LastTransmit s); reflexivity.
Qed.

Lemma TotalReceive_accumulate stats s :
  TotalReceive (accumulate stats s)
  = TotalReceive (updateTotals stats (detectReboot stats s)).
Proof. reflexivity. Qed.

Lemma TotalTransmit_accumulate stats s :
  TotalTransmit (accumulate stats s)
  = TotalTransmit (updateTotals stats (detectReboot stats s)).
Proof. reflexivity. Qed.

Lemma LastReceive_accumulate stats s :
  LastReceive (accumulate stats s) = ReceiveBytes stats.
Proof. reflexivity. Qed.

Lemma LastTransmit_accumulate stats s :
  LastTransmit (accumulate stats s) = TransmitBytes stats.
Proof. reflexivity. Qed.

Lemma LastReset_accumulate stats s :
  LastReset (accumulate stats s) = LastReset s.
Proof.
  unfold accumulate, saveLast, updateTotals, detectReboot.
  destruct (ReceiveBytes stats <? LastReceive s);
    cbn [LastTransmit LastReceive setTotalReceive];
    destruct (TransmitBytes stats <? LastTransmit s); reflexivity.
Qed.

(** Without a reset the tick adds the delta to the total. *)
Lemma TotalReceive_accumulate_monotone stats s :
  LastReceive s <= ReceiveBytes stats ->
  TotalReceive (accumulate stats s)
  = U64.wrap (TotalReceive s + (ReceiveBytes stats - LastReceive s)).
Proof.
  intros H. rewrite TotalReceive_accumulate, TotalReceive_steps.
  destruct (Z.ltb_spec (ReceiveBytes stats) (LastReceive s)); [lia|].
  unfold U64.sub. apply add_wrap_r.
Qed.

Lemma last_cons (v : Z) values : forall base,
  last (v :: values) base = last values v.
Proof.
  revert v. induction values as [|v' values IH]; intros v base.
  - reflexivity.
  - change (last (v :: v' :: values) base) with (last (v' :: values) base).
    rewrite !IH. reflexivity.
Qed.

Lemma sum_deltas base values :
  sum (deltas base values) = last values base - base.
Proof.
  revert base. induction values as [|v values IH]; intros base.
  - cbn. lia.
  - cbn [deltas sum fold_right]. fold (sum (deltas v values)).
    rewrite IH, last_cons. lia.
Qed.

Lemma nondecreasing_last base values :
  nondecreasingFrom base values -> base <= last values base.
Proof.
  revert base. induction values as [|v values IH]; intros base H.
  - cbn. lia.
  - destruct H as [H1 H2]. specialize (IH v H2).
    rewrite last_cons. lia.
Qed.

Lemma accumulateAll_monotone samples : forall s,
  U64.ok (TotalReceive s) ->
  nondecreasingFrom (LastReceive s) (received samples) ->
  TotalReceive (accumulateAll samples s)
  = U64.wrap (TotalReceive s + sum (deltas (LastReceive s) (received samples))).
Proof.
  induction samples as [|stats samples IH]; intros s Hok H.
  - cbn. rewrite Z.add_0_r. symmetry. apply wrap_small, Hok.
  - destruct H as [H1 H2]. cbn [accumulateAll fold_left].
    fold (accumulateAll samples (accumulate stats s)).
    rewrite IH.
    + rewrite LastReceive_accumulate, TotalReceive_accumulate_monotone by exact H1.
      cbn [received map deltas sum fold_right].
      fold (received samples). fold (sum (deltas (ReceiveBytes stats) (received samples))).
      rewrite <- add_wrap_l, wrap_wrap, add_wrap_l. f_equal. ring.
    + rewrite TotalReceive_accumulate_monotone by exact H1. apply wrap_ok.
    + rewrite LastReceive_accumulate. exact H2.
Qed.

(** C2. When a sample is below the last value seen, the fold of the
    stale baseline into the total (lines 444-451) followed by the
    unconditional delta (lines 454-455) amounts, in arithmetic modulo
    2^64, to [total += sample.value]; this holds for the receive counter
    and for the transmit counter, each whatever the other does. *)
Theorem reset_fold_then_delta_is_add_sample stats s :
  (ReceiveBytes stats < LastReceive s ->
   TotalReceive (updateTotals stats (detectReboot stats s))
   = U64.add (TotalReceive s) (ReceiveBytes stats))
  /\ (TransmitBytes stats < LastTransmit s ->
      TotalTransmit (updateTotals stats (detectReboot stats s))
      = U64.add (TotalTransmit s) (TransmitBytes stats)).
Proof.
  split; intros H.
  - rewrite TotalReceive_steps.
    destruct (Z.ltb_spec (ReceiveBytes stats) (LastReceive s)); [|lia].
    apply fold_then_delta.
  - rewrite TotalTransmit_steps.
    destruct (Z.ltb_spec (TransmitBytes stats) (LastTransmit s)); [|lia].
    apply fold_then_delta.
Qed.

Lemma reset_fold_then_delta_is_add_sample_witness :
  TotalReceive
    (updateTotals (mkNetStats 10 70)
       (detectReboot (mkNetStats 10 70) (mkStatistics 100 200 50 60 "")))
  = 110.
Proof.
  rewrite (proj1 (reset_fold_then_delta_is_add_sample (mkNetStats 10 70)
                    (mkStatistics 100 200 50 60 ""))).
  - reflexivity.
  - cbn. lia.
Defined.

(** C1, amended. On a tick whose received sample is below
    [LastReceive], the total after the tick is the total before plus the
    sample, in arithmetic modulo 2^64, hence exactly that sum when it
    fits in 64 bits; the stale baseline is not added on top of it. The
    same holds for the transmit counter. *)
Theorem reset_adds_the_sample_once stats s :
  (ReceiveBytes stats < LastReceive s ->
   TotalReceive (accumulate stats s)
   = U64.wrap (TotalReceive s + ReceiveBytes stats)
   /\ (U64.ok (TotalReceive s + ReceiveBytes stats) ->
       TotalReceive (accumulate stats s) = TotalReceive s + ReceiveBytes stats))
  /\ (TransmitBytes stats < LastTransmit s ->
      TotalTransmit (accumulate stats s)
      = U64.wrap (TotalTransmit s + TransmitBytes stats)
      /\ (U64.ok (TotalTransmit s + TransmitBytes stats) ->
          TotalTransmit (accumulate stats s)
          = TotalTransmit s + TransmitBytes stats)).
Proof.
  split; intros H.
  - assert (E : TotalReceive (accumulate stats s)
                = U64.wrap (TotalReceive s + ReceiveBytes stats)).
    { rewrite TotalReceive_accumulate, TotalReceive_steps.
      destruct (Z.ltb_spec (ReceiveBytes stats) (LastReceive s)); [|lia].
      apply fold_then_delta. }
    split; [exact E|]. intros Hok. rewrite E. apply wrap_small, Hok.
  - assert (E : TotalTransmit (accumulate stats s)
                = U64.wrap (TotalTransmit s + TransmitBytes stats)).
    { rewrite TotalTransmit_accumulate, TotalTransmit_steps.
      destruct (Z.ltb_spec (TransmitBytes stats) (LastTransmit s)); [|lia].
      apply fold_then_delta. }
    split; [exact E|]. intros Hok. rewrite E. apply wrap_small, Hok.
Qed.

Lemma reset_adds_the_sample_once_witness :
  TotalReceive (accumulate (mkNetStats 10 70) (mkStatistics 100 200 50 60 ""))
  = 100 + 10.
Proof.
  apply (proj1 (reset_adds_the_sample_once (mkNetStats 10 70)
                  (mkStatistics 100 200 50 60 ""))).
  - cbn. lia.
  - unfold U64.ok, U64.modulus. cbn. lia.
Defined.

(** C1 as the specification states it fails: from a total of 100 with
    baseline 50, a sample of 10 gives 110, not 100 + 50 + 10. *)
Lemma reset_resilience_as_stated_fails :
  ~ resetResilienceAsStated (mkStatistics 100 200 50 60 "") (mkNetStats 10 70).
Proof.
  unfold resetResilienceAsStated. intros H.
  assert (L : ReceiveBytes (mkNetStats 10 70)
              < LastReceive (mkStatistics 100 200 50 60 "")) by (cbn; lia).
  specialize (H L). vm_compute in H. discriminate H.
Qed.

(** C3, amended. Over samples whose received values never decrease,
    starting at or above the baseline, the total after the ticks is the
    initial total plus the sum of the consecutive deltas in arithmetic
    modulo 2^64; that sum is the last received value minus the initial
    baseline; and the equality is one over the integers whenever the
    initial total plus that difference is below 2^64. *)
Theorem monotonic_accrual_mod_2_64 samples s :
  U64.ok (TotalReceive s) ->
  nondecreasingFrom (LastReceive s) (received samples) ->
  TotalReceive (accumulateAll samples s)
  = U64.wrap (TotalReceive s + sum (deltas (LastReceive s) (received samples)))
  /\ sum (deltas (LastReceive s) (received samples))
     = last (received samples) (LastReceive s) - LastReceive s
  /\ (TotalReceive s + last (received samples) (LastReceive s) - LastReceive s
      < U64.modulus ->
      TotalReceive (accumulateAll samples s)
      = TotalReceive s + last (received samples) (LastReceive s) - LastReceive s).
Proof.
  intros Hok Hmono.
  pose proof (accumulateAll_monotone samples s Hok Hmono) as E.
  pose proof (sum_deltas (LastReceive s) (received samples)) as D.
  pose proof (nondecreasing_last _ _ Hmono) as L.
  split; [exact E|]. split; [exact D|].
  intros Hfit. rewrite E, D. unfold U64.ok in Hok.
  rewrite wrap_small; [lia|]. unfold U64.ok. lia.
Qed.

Lemma monotonic_accrual_mod_2_64_witness :
  TotalReceive
    (accumulateAll [mkNetStats 70 0; mkNetStats 70 5; mkNetStats 95 9]
       (mkStatistics 100 0 50 0 ""))
  = U64.wrap (100 + (20 + 0 + 25)).
Proof.
  refine (proj1 (monotonic_accrual_mod_2_64
                   [mkNetStats 70 0; mkNetStats 70 5; mkNetStats 95 9]
                   (mkStatistics 100 0 50 0 "") _ _)).
  - unfold U64.ok, U64.modulus. cbn. lia.
  - cbn. lia.
Defined.

(** C3 as the specification states it, over the integers, fails when
    the total wraps: from a total of 2^64 - 1 a single delta of 1 gives
    0, not 2^64. *)
Lemma monotonic_accrual_as_stated_fails :
  ~ monotonicAccrualAsStated (mkStatistics (2 ^ 64 - 1) 0 0 0 "") [mkNetStats 1 0].
Proof.
  unfold monotonicAccrualAsStated. intros H.
  assert (L : nondecreasingFrom
                (LastReceive (mkStatistics (2 ^ 64 - 1) 0 0 0 ""))
                (received [mkNetStats 1 0])) by (cbn; lia).
  destruct (H L) as [H1 _]. vm_compute in H1. discriminate H1.
Qed.

End Counters.

(** ** The calendar *)

Section Calendar.

Import GoTime.

Ltac divmod := Z.div_mod_to_equations; lia.

Lemma isLeap_spec y :
  isLeap y = true <-> (y mod 4 = 0 /\ (y mod 100 <> 0 \/ y mod 400 = 0)).
Proof.
  unfold isLeap.
  rewrite andb_true_iff, orb_true_iff, negb_true_iff, !Z.eqb_eq, Z.eqb_neq.
  tauto.
Qed.

Lemma daysSinceEpoch_step y :
  daysSinceEpoch (y + 1) = daysSinceEpoch y + 365 + leapDay y.
Proof.
  unfold daysSinceEpoch, leapDay. destruct (isLeap y) eqn:E.
  - apply isLeap_spec in E. divmod.
  - assert (~ (y mod 4 = 0 /\ (y mod 100 <> 0 \/ y mod 400 = 0)))
      by (rewrite <- isLeap_spec; congruence).
    divmod.
Qed.

Lemma leapDay_range y : 0 <= leapDay y <= 1.
Proof. unfold leapDay. destruct (isLeap y); lia. Qed.

Lemma daysSinceEpoch_mono y y' : y <= y' -> daysSinceEpoch y <= daysSinceEpoch y'.
Proof. unfold daysSinceEpoch. intros H. divmod. Qed.

Lemma yearOfDays_spec n :
  daysSinceEpoch (yearOfDays n) <= n < daysSinceEpoch (yearOfDays n + 1).
Proof.
  unfold yearOfDays. set (g := 1970 + n * 400 / 146097).
  assert (Hg : 146097 * (g - 1970) <= n * 400 < 146097 * (g - 1970) + 146097)
    by (subst g; divmod).
  clearbody g.
  destruct (Z.ltb_spec n (daysSinceEpoch g)) as [H1|H1].
  - replace (g - 1 + 1) with g by lia. split; [|exact H1].
    unfold daysSinceEpoch in *. divmod.
  - destruct (Z.leb_spec (daysSinceEpoch (g + 1)) n) as [H2|H2]; [|lia].
    split; [exact H2|]. unfold daysSinceEpoch in *. divmod.
Qed.


Lemma dateToDays_month y m d :
  1 <= m <= 12 ->
  dateToDays y m d = daysSinceEpoch y + yearDaysBefore y m + (d - 1).
Proof.
  intros H. unfold dateToDays, yearDaysBefore.
  replace ((m - 1) / 12) with 0 by divmod.
  replace ((m - 1) mod 12 + 1) with m by divmod.
  rewrite Z.add_0_r. lia.
Qed.

Ltac months m H :=
  assert (m = 1 \/ m = 2 \/ m = 3 \/ m = 4 \/ m = 5 \/ m = 6 \/ m = 7 \/ m = 8
          \/ m = 9 \/ m = 10 \/ m = 11 \/ m = 12) as H by lia;
  repeat (destruct H as [H|H]); subst m.

Lemma yearDaysBefore_next y m :
  1 <= m <= 12 ->
  yearDaysBefore y m + daysIn m y
  = if m =? 12 then 365 + leapDay y else yearDaysBefore y (m + 1).
Proof.
  intros H. unfold yearDaysBefore, daysIn, leapDay.
  months m Hm; destruct (isLeap y); reflexivity.
Qed.

Lemma yearDaysBefore_mono y m m' :
  1 <= m -> m < m' -> m' <= 12 ->
  yearDaysBefore y m + daysIn m y <= yearDaysBefore y m'.
Proof.
  intros H1 H2 H3. unfold yearDaysBefore, daysIn.
  months m Hm; months m' Hm'; try lia; destruct (isLeap y); cbn; lia.
Qed.

Lemma yearDaysBefore_range y m :
  1 <= m <= 12 -> 0 <= yearDaysBefore y m /\ yearDaysBefore y m + daysIn m y <= 365 + leapDay y.
Proof.
  intros H. unfold yearDaysBefore, daysIn, leapDay.
  months m Hm; destruct (isLeap y); cbn; lia.
Qed.

Lemma dateToDays_lt a b :
  (let '(y1, m1, d1) := a in validDate y1 m1 d1) ->
  (let '(y2, m2, d2) := b in validDate y2 m2 d2) ->
  dateLt a b ->
  (let '(y1, m1, d1) := a in dateToDays y1 m1 d1)
  < (let '(y2, m2, d2) := b in dateToDays y2 m2 d2).
Proof.
  destruct a as [[y1 m1] d1], b as [[y2 m2] d2].
  intros [Hm1 Hd1] [Hm2 Hd2] Hlt.
  rewrite !dateToDays_month by assumption.
  pose proof (yearDaysBefore_range y1 m1 Hm1).
  pose proof (yearDaysBefore_range y2 m2 Hm2).
  destruct Hlt as [Hy | [Hy [Hm | [Hm Hd]]]].
  - pose proof (daysSinceEpoch_step y1).
    pose proof (daysSinceEpoch_mono (y1 + 1) y2). lia.
  - subst y2. pose proof (yearDaysBefore_mono y1 m1 m2). lia.
  - subst y2 m2. lia.
Qed.

Lemma civilOfDays_spec n :
  let '(y, m, d) := civilOfDays n in validDate y m d /\ dateToDays y m d = n.
Proof.
  unfold civilOfDays.
  pose proof (yearOfDays_spec n) as Hy.
  set (y := yearOfDays n) in *. clearbody y.
  rewrite daysSinceEpoch_step in Hy.
  set (yd := n - daysSinceEpoch y).
  assert (Hyd : 0 <= yd < 365 + leapDay y) by (subst yd; lia).
  assert (Hn : n = daysSinceEpoch y + yd) by (subst yd; lia).
  clearbody yd. 
  assert (Hm : 1 <= monthOfYday (isLeap y) yd <= 12).
  { unfold monthOfYday.
    repeat match goal with |- context [?a <? ?b] => destruct (Z.ltb_spec a b) end; lia. }
  split.
  - split; [exact Hm|].
    unfold monthOfYday, daysIn, leapDay in *.
    destruct (isLeap y);
    repeat match goal with |- context [?a <? ?b] => destruct (Z.ltb_spec a b) end;
    cbn; lia.
  - rewrite dateToDays_month by exact Hm. unfold yearDaysBefore. lia.
Qed.

Lemma dateLt_trichotomy a b : dateLt a b \/ a = b \/ dateLt b a.
Proof.
  destruct a as [[y1 m1] d1], b as [[y2 m2] d2]. unfold dateLt.
  destruct (Z.lt_trichotomy y1 y2) as [?|[?|?]];
    [left; lia| |right; right; lia].
  destruct (Z.lt_trichotomy m1 m2) as [?|[?|?]];
    [left; lia| |right; right; lia].
  destruct (Z.lt_trichotomy d1 d2) as [?|[?|?]];
    [left; lia| |right; right; lia].
  right; left. congruence.
Qed.

Lemma civilOfDays_dateToDays y m d :
  validDate y m d -> civilOfDays (dateToDays y m d) = (y, m, d).
Proof.
  intros Hv. pose proof (civilOfDays_spec (dateToDays y m d)) as H.
  destruct (civilOfDays (dateToDays y m d)) as [[y' m'] d'].
  destruct H as [Hv' E].
  destruct (dateLt_trichotomy (y', m', d') (y, m, d)) as [L|[L|L]].
  - pose proof (dateToDays_lt (y', m', d') (y, m, d) Hv' Hv L). cbn in *; lia.
  - exact L.
  - pose proof (dateToDays_lt (y, m, d) (y', m', d') Hv Hv' L). cbn in *; lia.
Qed.

Lemma wallNano_Date y m d h mi s ns l :
  wallNano (Date y m d h mi s ns l)
  = dateToDays y m d * nsPerDay + ((h * 3600 + mi * 60 + s) * nsPerSecond + ns).
Proof. unfold wallNano, Date, nsPerDay. cbn [unixNano loc]. ring. Qed.

Lemma civil_Date y m d h mi s ns l :
  0 <= (h * 3600 + mi * 60 + s) * nsPerSecond + ns < nsPerDay ->
  civil (Date y m d h mi s ns l) = civilOfDays (dateToDays y m d)
  /\ nanoOfDay (Date y m d h mi s ns l)
     = (h * 3600 + mi * 60 + s) * nsPerSecond + ns.
Proof.
  intros H. unfold civil, nanoOfDay. rewrite wallNano_Date.
  set (c := (h * 3600 + mi * 60 + s) * nsPerSecond + ns) in *.
  assert (0 < nsPerDay) by reflexivity.
  split.
  - f_equal. rewrite Z.add_comm, Z.div_add by lia. rewrite Z.div_small by lia. lia.
  - rewrite Z.add_comm, Z.mod_add by lia. apply Z.mod_small. lia.
Qed.

Lemma civil_midnight y m d l :
  civil (Date y m d 0 0 0 0 l) = civilOfDays (dateToDays y m d)
  /\ nanoOfDay (Date y m d 0 0 0 0 l) = 0.
Proof. apply (civil_Date y m d 0 0 0 0 l). cbn. split; [lia|reflexivity]. Qed.

Lemma AddDate_midnight y m d l years months days :
  validDate y m d ->
  AddDate (Date y m d 0 0 0 0 l) years months days
  = Date (y + years) (m + months) (d + days) 0 0 0 0 l.
Proof.
  intros Hv. unfold AddDate, Year, Month, Day.
  destruct (civil_midnight y m d l) as [-> ->].
  rewrite civilOfDays_dateToDays by exact Hv. reflexivity.
Qed.

Lemma civil_valid t : let '(y, m, d) := civil t in validDate y m d.
Proof.
  unfold civil. pose proof (civilOfDays_spec (wallNano t / nsPerDay)) as H.
  destruct (civilOfDays (wallNano t / nsPerDay)) as [[y m] d]. apply H.
Qed.

Lemma Month_range t : 1 <= Month t <= 12.
Proof.
  unfold Month. pose proof (civil_valid t) as H.
  destruct (civil t) as [[y m] d]. apply H.
Qed.

Lemma first_valid y m : 1 <= m <= 12 -> validDate y m 1.
Proof.
  intros H. split; [exact H|]. unfold daysIn.
  months m Hm; destruct (isLeap y); cbn; lia.
Qed.

Lemma daysIn_range y m : 1 <= m <= 12 -> 28 <= daysIn m y <= 31.
Proof.
  intros H. unfold daysIn. months m Hm; destruct (isLeap y); cbn; lia.
Qed.

(** The day before the first of the next month is the last day of the
    month. *)
Lemma dateToDays_next_month y m :
  1 <= m <= 12 ->
  dateToDays y (m + 1) 0 = dateToDays y m (daysIn m y).
Proof.
  intros H. rewrite (dateToDays_month y m) by exact H.
  pose proof (yearDaysBefore_next y m H) as E.
  destruct (Z.eqb_spec m 12) as [->|Hne].
  - unfold dateToDays. change ((12 + 1 - 1) / 12) with 1.
    change ((12 + 1 - 1) mod 12 + 1) with 1.
    rewrite daysSinceEpoch_step.
    change (daysBefore (1 - 1)) with 0. change (3 <=? 1) with false.
    rewrite andb_false_r. lia.
  - rewrite dateToDays_month by lia. lia.
Qed.

Lemma lastDayOfMonth_daysIn Local t :
  lastDayOfMonth Local t = daysIn (Month t) (Year t).
Proof.
  unfold lastDayOfMonth.
  pose proof (Month_range t) as Hm.
  set (y := Year t). set (m := Month t) in *. clearbody y m.
  rewrite AddDate_midnight by (apply first_valid; exact Hm).
  rewrite !Z.add_0_r.
  unfold AddDate at 1.
  destruct (civil_midnight y (m + 1) 1 Local) as [Ec En].
  unfold Year, Month, Day. rewrite Ec, En.
  destruct (civilOfDays (dateToDays y (m + 1) 1)) as [[y' m'] d'] eqn:E.
  cbn [fst snd].
  assert (Hd : dateToDays (y' + 0) (m' + 0) (d' + -1) = dateToDays y (m + 1) 0).
  { rewrite !Z.add_0_r.
    pose proof (civilOfDays_spec (dateToDays y (m + 1) 1)) as Hs.
    rewrite E in Hs. destruct Hs as [[Hm' _] Hs].
    rewrite dateToDays_month in Hs by exact Hm'.
    rewrite dateToDays_month by exact Hm'.
    unfold dateToDays in *. lia. }
  change (0 / (3600 * nsPerSecond)) with 0.
  change (0 / (60 * nsPerSecond) mod 60) with 0.
  change (0 / nsPerSecond mod 60) with 0.
  change (0 mod nsPerSecond) with 0.
  change (loc (Date y (m + 1) 1 0 0 0 0 Local)) with Local.
  destruct (civil_midnight (y' + 0) (m' + 0) (d' + -1) Local) as [-> _].
  rewrite Hd, dateToDays_next_month by exact Hm.
  rewrite civilOfDays_dateToDays; [reflexivity|].
  split; [exact Hm|]. pose proof (daysIn_range y m Hm). lia.
Qed.

Lemma days_lt_iff a b : valid a -> valid b -> (days a < days b <-> dateLt a b).
Proof.
  intros Ha Hb. split.
  - intros H. destruct (dateLt_trichotomy a b) as [L|[L|L]]; [exact L| |].
    + subst b. lia.
    + pose proof (dateToDays_lt b a Hb Ha L). unfold days in *. lia.
  - apply dateToDays_lt; assumption.
Qed.

Lemma days_eq_iff a b : valid a -> valid b -> (days a = days b <-> a = b).
Proof.
  intros Ha Hb. split; [|congruence].
  intros H. destruct (dateLt_trichotomy a b) as [L|[L|L]]; [|exact L|].
  - pose proof (dateToDays_lt a b Ha Hb L). unfold days in *. lia.
  - pose proof (dateToDays_lt b a Hb Ha L). unfold days in *. lia.
Qed.

Lemma parseFields_valid s a : parseFields s = Some a -> valid a.
Proof.
  unfold parseFields.
  do 10 (destruct s as [|? s]; [discriminate|]).
  destruct s; [|discriminate].
  match goal with |- (if ?c then _ else _) = _ -> _ => destruct c end;
    [|discriminate].
  match goal with
  | |- (if (?m <=? 0) || (12 <? ?m) then _ else _) = _ -> _ =>
      destruct (Z.leb_spec m 0); [discriminate|];
      destruct (Z.ltb_spec 12 m); [discriminate|]
  end.
  cbn [orb].
  match goal with
  | |- (if (?d <? 1) || (?x <? ?d) then _ else _) = _ -> _ =>
      destruct (Z.ltb_spec d 1); [discriminate|];
      destruct (Z.ltb_spec x d); [discriminate|]
  end.
  cbn [orb]. intros E. injection E as <-. unfold valid, validDate. lia.
Qed.

(** The date of the wall clock of [t] and its day number. *)
Lemma days_civil t : days (civil t) = wallNano t / nsPerDay.
Proof.
  unfold civil, days. pose proof (civilOfDays_spec (wallNano t / nsPerDay)) as H.
  destruct (civilOfDays (wallNano t / nsPerDay)) as [[y m] d]. apply H.
Qed.

Lemma wallNano_split t :
  wallNano t = days (civil t) * nsPerDay + nanoOfDay t
  /\ 0 <= nanoOfDay t < nsPerDay.
Proof.
  rewrite days_civil. unfold nanoOfDay.
  assert (0 < nsPerDay) by reflexivity.
  split; [|apply Z.mod_pos_bound; lia].
  rewrite Z.mul_comm. apply Z.div_mod. lia.
Qed.

Lemma resetDayOf_min Local t c :
  resetDayOf Local t c = Z.min (StartDay c) (daysIn (Month t) (Year t)).
Proof.
  unfold resetDayOf. rewrite lastDayOfMonth_daysIn.
  destruct (Z.ltb_spec (daysIn (Month t) (Year t)) (StartDay c)); lia.
Qed.


Lemma resetCivil_valid t c : 1 <= StartDay c -> valid (resetCivil t c).
Proof.
  intros H. unfold resetCivil, valid, validDate.
  pose proof (Month_range t). pose proof (daysIn_range (Year t) (Month t)). lia.
Qed.

Lemma Before_midnights a b l :
  -86400 < l < 86400 ->
  Before (let '(y, m, d) := a in Date y m d 0 0 0 0 UTC)
         (let '(y, m, d) := b in Date y m d 0 0 0 0 l) = true
  <-> days a < days b \/ (days a = days b /\ l < 0).
Proof.
  intros Hl. destruct a as [[y1 m1] d1], b as [[y2 m2] d2].
  unfold Before, Date, days, UTC, secondsPerDay, nsPerSecond.
  cbn [unixNano]. rewrite Z.ltb_lt.
  generalize (dateToDays y1 m1 d1) (dateToDays y2 m2 d2). intros D1 D2.
  split; intros H; lia.
Qed.

Lemma After_midnight t b :
  After t (let '(y, m, d) := b in Date y m d 0 0 0 0 (loc t)) = true
  <-> days b < days (civil t) \/ (days b = days (civil t) /\ 0 < nanoOfDay t).
Proof.
  destruct (wallNano_split t) as [E R]. revert E R.
  destruct b as [[y2 m2] d2].
  unfold After, Date, wallNano, nsPerDay, secondsPerDay, nsPerSecond.
  cbn [unixNano]. rewrite Z.ltb_lt.
  change (dateToDays y2 m2 d2) with (days (y2, m2, d2)).
  generalize (days (civil t)) (nanoOfDay t) (days (y2, m2, d2)).
  intros D r D2 E R. split; intros H; lia.
Qed.


Lemma checkReset_spec Local instant c :
  -86400 < Local < 86400 -> 1 <= StartDay c ->
  checkReset Local instant c = true <-> checkResetSpec Local instant c.
Proof.
  intros Hl Hs. unfold checkReset, checkResetSpec, ParseDate.
  destruct (parseFields (LastReset (cStatistics c))) as [L|] eqn:EL; [|tauto].
  pose proof (parseFields_valid _ _ EL) as HL.
  set (now := Now Local instant).
  pose proof (resetCivil_valid now c Hs) as HR.
  pose proof (civil_valid now) as HT. fold (valid (civil now)) in HT.
  unfold resetDateOf. rewrite resetDayOf_min. fold (resetCivil now c).
  set (R := resetCivil now c) in *.
  pose proof (Before_midnights L R Local Hl) as HB.
  pose proof (After_midnight now R) as HA.
  change (loc now) with Local in HA.
  replace (Date (Year now) (Month now) (Z.min (StartDay c) (daysIn (Month now) (Year now))) 0 0 0 0 Local)
    with (let '(y, m, d) := R in Date y m d 0 0 0 0 Local) by reflexivity.
  destruct L as [[ly lm] ld].
  rewrite <- (days_lt_iff _ _ HL HR), <- (days_lt_iff _ _ HR HT).
  rewrite <- (days_eq_iff _ _ HL HR), <- (days_eq_iff _ _ HR HT).
  rewrite <- HB, <- HA. clear.
  rewrite <- andb_true_iff.
  destruct (Before _ _ && After _ _); tauto.
Qed.

Lemma digit_ok d : 0 <= d <= 9 -> isDigit (digit d) = true /\ digitVal (digit d) = d.
Proof.
  intros H.
  assert (E : d = 0 \/ d = 1 \/ d = 2 \/ d = 3 \/ d = 4 \/ d = 5 \/ d = 6
              \/ d = 7 \/ d = 8 \/ d = 9) by lia.
  repeat (destruct E as [E|E]); subst d; split; reflexivity.
Qed.

Lemma appendInt_4 y :
  0 <= y < 10000 ->
  appendInt y 4
  = String (digit (y / 1000)) (String (digit (y / 100 mod 10))
      (String (digit (y / 10 mod 10)) (String (digit (y mod 10)) EmptyString))).
Proof.
  intros H. unfold appendInt.
  destruct (Z.ltb_spec y 0); [lia|].
  rewrite Z.abs_eq by lia.
  change (4 =? 2) with false. change (4 =? 4) with true.
  destruct (Z.ltb_spec y 10000); [|lia]. reflexivity.
Qed.

Lemma appendInt_2 x :
  0 <= x < 100 ->
  appendInt x 2 = String (digit (x / 10)) (String (digit (x mod 10)) EmptyString).
Proof.
  intros H. unfold appendInt.
  destruct (Z.ltb_spec x 0); [lia|].
  rewrite Z.abs_eq by lia.
  change (2 =? 2) with true.
  destruct (Z.ltb_spec x 100); [|lia]. reflexivity.
Qed.

Lemma parseFields_format y m d :
  0 <= y <= 9999 -> validDate y m d ->
  parseFields (appendInt y 4 ++ "-" ++ appendInt m 2 ++ "-" ++ appendInt d 2)
  = Some (y, m, d).
Proof.
  intros Hy [Hm Hd]. pose proof (daysIn_range y m Hm) as Hr.
  rewrite appendInt_4, !appendInt_2 by lia.
  cbn [append parseFields].
  destruct (digit_ok (y / 1000)) as [-> ->]; [divmod|].
  destruct (digit_ok (y / 100 mod 10)) as [-> ->]; [divmod|].
  destruct (digit_ok (y / 10 mod 10)) as [-> ->]; [divmod|].
  destruct (digit_ok (y mod 10)) as [-> ->]; [divmod|].
  destruct (digit_ok (m / 10)) as [-> ->]; [divmod|].
  destruct (digit_ok (m mod 10)) as [-> ->]; [divmod|].
  destruct (digit_ok (d / 10)) as [-> ->]; [divmod|].
  destruct (digit_ok (d mod 10)) as [-> ->]; [divmod|].
  cbn [andb Ascii.eqb Bool.eqb].
  replace (y / 1000 * 1000 + y / 100 mod 10 * 100 + y / 10 mod 10 * 10 + y mod 10)
    with y by divmod.
  replace (m / 10 * 10 + m mod 10) with m by divmod.
  replace (d / 10 * 10 + d mod 10) with d by divmod.
  destruct (Z.leb_spec m 0); [lia|]. destruct (Z.ltb_spec 12 m); [lia|].
  destruct (Z.ltb_spec d 1); [lia|]. destruct (Z.ltb_spec (daysIn m y) d); [lia|].
  reflexivity.
Qed.

Lemma parseFields_FormatDate t :
  0 <= Year t <= 9999 -> parseFields (FormatDate t) = Some (civil t).
Proof.
  intros H. unfold FormatDate. pose proof (civil_valid t) as Hv.
  unfold Year, Month, Day in *. destruct (civil t) as [[y m] d]. cbn [fst snd] in *.
  apply parseFields_format; assumption.
Qed.

(** *** The model of the library on a few dates *)

Example civil_leap_day :
  civilOfDays (dateToDays 2024 2 29) = (2024, 2, 29)
  /\ civilOfDays (dateToDays 2024 3 0) = (2024, 2, 29)
  /\ civilOfDays (dateToDays 2023 3 0) = (2023, 2, 28)
  /\ civilOfDays (dateToDays 2023 13 1) = (2024, 1, 1)
  /\ civilOfDays 0 = (1970, 1, 1)
  /\ civilOfDays (-1) = (1969, 12, 31).
Proof. vm_compute. repeat split. Qed.

Example ParseDate_examples :
  ParseDate "2024-02-29" = Some (Date 2024 2 29 0 0 0 0 UTC)
  /\ ParseDate "2023-02-29" = None
  /\ ParseDate "2024-13-01" = None
  /\ ParseDate "2024-2-05" = None
  /\ ParseDate "2024-02-05 " = None
  /\ ParseDate "" = None.
Proof. vm_compute. repeat split. Qed.

Example FormatDate_examples :
  FormatDate (Date 2024 2 5 12 0 0 0 (-18000)) = "2024-02-05"%string
  /\ FormatDate (Date 2024 2 5 23 0 0 0 0) = "2024-02-05"%string
  /\ FormatDate (mkTime (unixNano (Date 2024 2 5 23 0 0 0 0)) 28800)
     = "2024-02-06"%string
  /\ FormatDate (Date 10000 1 1 0 0 0 0 0) = "10000-01-01"%string.
Proof. vm_compute. repeat split. Qed.

End Calendar.

(** ** Running the monad *)

(** [mred] runs the monadic code of the goal as far as it is
    determined; [branch] splits on the first undetermined test;
    [mcases w] does both until the code has run, after a split on the
    service of [w]. *)
Ltac mred :=
  cbv beta iota zeta delta
    [bind ret emit modifyConfig getConfig ask saveConfig sendMessage
     sendTelegramMessage sendGotifyMessage commandExists runCommand
     worldAfter value events fst snd bothChecks
     thresholdCheck ratioCheck thresholdStatusOf knownService
     ratioStatusOf markThreshold markRatio thresholdLimitOf ratioLimitOf];
  cbn [config answers asked updMessage updTelegram updGotify updStatistics
       setTgThresholdStatus setTgRatioStatus setGoThresholdStatus
       setGoRatioStatus Service cMessage cStatistics cComparison Telegram Gotify
       TgThresholdStatus TgRatioStatus GoThresholdStatus GoRatioStatus
       Token ChatID URL AppToken Limit Threshold Ratio Category
       Device Interface Interval StartDay negb andb orb app existsb
       isRatioSend isThresholdSend failedRatioSend failedThresholdSend
       isShutdown isSleep isPrint].

Ltac use_eqs :=
  repeat match goal with
         | H : ?b = true |- context [?b] =>
             lazymatch b with true => fail | _ => rewrite H end
         | H : ?b = false |- context [?b] =>
             lazymatch b with false => fail | _ => rewrite H end
         end.

Ltac msettle :=
  repeat (progress (mred; use_eqs; rewrite ?andb_true_r, ?andb_false_r)).

Ltac branch :=
  match goal with
  | |- context [if ?b then _ else _] =>
      lazymatch b with
      | context [if _ then _ else _] => fail
      | _ => destruct b eqn:?
      end
  end.

Ltac services w :=
  let Et := fresh "Et" in
  let Eg := fresh "Eg" in
  destruct (String.eqb (Service (cMessage (config w))) "telegram") eqn:Et;
  [| destruct (String.eqb (Service (cMessage (config w))) "gotify") eqn:Eg].

Ltac mcases w := services w; msettle; repeat (branch; msettle).

Ltac finish := repeat split; intros; try discriminate; auto.

Section Running.

(** *** resetStatistics *)

Lemma resetStatistics_config Local instant w :
  config (worldAfter (resetStatistics Local instant) w)
  = closedConfig Local instant (config w).
Proof.
  unfold resetStatistics, sendStatisticsSummary.
  services w; msettle; repeat (branch; msettle); reflexivity.
Qed.

(** *** The two checks *)

(** What the flags and the limits become when a flag is set. *)
Lemma mark_facts c :
  (thresholdStatusOf c = true -> thresholdStatusOf (markThreshold c) = true)
  /\ ratioStatusOf (markThreshold c) = ratioStatusOf c
  /\ thresholdStatusOf (markRatio c) = thresholdStatusOf c
  /\ (ratioStatusOf c = true -> ratioStatusOf (markRatio c) = true)
  /\ cComparison (markThreshold c) = cComparison c
  /\ cComparison (markRatio c) = cComparison c
  /\ cStatistics (markThreshold c) = cStatistics c
  /\ cStatistics (markRatio c) = cStatistics c
  /\ StartDay (markThreshold c) = StartDay c
  /\ StartDay (markRatio c) = StartDay c
  /\ Interval (markThreshold c) = Interval c
  /\ Interval (markRatio c) = Interval c.
Proof.
  unfold thresholdStatusOf, ratioStatusOf, markThreshold, markRatio.
  destruct (String.eqb (Service (cMessage c)) "telegram") eqn:Et;
    [|destruct (String.eqb (Service (cMessage c)) "gotify") eqn:Eg];
    cbn [cMessage updMessage updTelegram updGotify Service Telegram Gotify
         TgThresholdStatus TgRatioStatus GoThresholdStatus GoRatioStatus
         setTgThresholdStatus setTgRatioStatus setGoThresholdStatus
         setGoRatioStatus cComparison cStatistics StartDay Interval];
    rewrite ?Et, ?Eg; finish.
Qed.

Lemma thresholdCheck_props v ts w :
  (config (worldAfter (thresholdCheck v ts) w) = config w
   \/ config (worldAfter (thresholdCheck v ts) w) = markThreshold (config w))
  /\ answers (worldAfter (thresholdCheck v ts) w) = answers w
  /\ existsb isRatioSend (events (thresholdCheck v ts) w) = false
  /\ existsb isShutdown (events (thresholdCheck v ts) w) = false
  /\ existsb isSleep (events (thresholdCheck v ts) w) = false
  /\ (ts = true -> existsb isThresholdSend (events (thresholdCheck v ts) w) = false)
  /\ (existsb failedThresholdSend (events (thresholdCheck v ts) w) = true ->
      config (worldAfter (thresholdCheck v ts) w) = config w)
  /\ (float_ge v (thresholdLimitOf (config w)) = true -> ts = false ->
      existsb isThresholdSend (events (thresholdCheck v ts) w) = true).
Proof. destruct ts; mcases w; finish. Qed.

Lemma ratioCheck_props v rs w :
  (config (worldAfter (ratioCheck v rs) w) = config w
   \/ config (worldAfter (ratioCheck v rs) w) = markRatio (config w))
  /\ answers (worldAfter (ratioCheck v rs) w) = answers w
  /\ existsb isThresholdSend (events (ratioCheck v rs) w) = false
  /\ (rs = true -> existsb isRatioSend (events (ratioCheck v rs) w) = false
                   /\ existsb isShutdown (events (ratioCheck v rs) w) = false)
  /\ (existsb failedRatioSend (events (ratioCheck v rs) w) = true ->
      config (worldAfter (ratioCheck v rs) w) = config w
      /\ existsb isShutdown (events (ratioCheck v rs) w) = false
      /\ existsb isSleep (events (ratioCheck v rs) w) = false)
  /\ (float_ge v (ratioLimitOf (config w)) = true -> rs = false ->
      existsb isRatioSend (events (ratioCheck v rs) w) = true).
Proof. destruct rs; mcases w; finish. Qed.

(** With a service that is neither of the two, a check only reports
    that the service is unknown, and only when its limit is reached. *)
Lemma thresholdCheck_unknown v w :
  knownService (config w) = false ->
  thresholdCheck v false w
  = (tt, w,
     if float_ge v (thresholdLimitOf (config w)) then
       [EvSend (ThresholdNotice v (Threshold (cComparison (config w)) * 100)%float)
          (Some (ErrUnknownService (Service (cMessage (config w)))));
        EvPrint (FailedThresholdMessage
                   (ErrUnknownService (Service (cMessage (config w)))))]
     else []).
Proof.
  unfold knownService. intros H. apply orb_false_iff in H. destruct H as [Et Eg].
  unfold thresholdCheck. msettle. branch; msettle; destruct w; reflexivity.
Qed.

Lemma ratioCheck_unknown v w :
  knownService (config w) = false ->
  ratioCheck v false w
  = (tt, w,
     if float_ge v (ratioLimitOf (config w)) then
       [EvSend (RatioNotice v (Ratio (cComparison (config w)) * 100)%float)
          (Some (ErrUnknownService (Service (cMessage (config w)))));
        EvPrint (FailedRatioMessage
                   (ErrUnknownService (Service (cMessage (config w)))))]
     else []).
Proof.
  unfold knownService. intros H. apply orb_false_iff in H. destruct H as [Et Eg].
  unfold ratioCheck. msettle. branch; msettle; destruct w; reflexivity.
Qed.


(** *** performComparison *)

Lemma bothChecks_run v w :
  let tc := thresholdCheck v (thresholdStatusOf (config w)) in
  let rc := ratioCheck v (ratioStatusOf (config w)) in
  worldAfter (bothChecks v) w = worldAfter rc (worldAfter tc w)
  /\ events (bothChecks v) w = events tc w ++ events rc (worldAfter tc w)
  /\ value (bothChecks v) w = None.
Proof.
  intros tc rc. unfold bothChecks, worldAfter, events, value, bind, ret.
  fold tc rc. destruct (tc w) as [[a w1] e1]. cbn [fst snd].
  destruct (rc w1) as [[b w2] e2]. cbn [fst snd].
  rewrite app_nil_r. auto.
Qed.

Lemma performComparison_checks w v :
  usageInGB (config w) = Some v -> performComparison w = bothChecks v w.
Proof.
  intros U. unfold performComparison, bothChecks.
  unfold bind at 1. unfold getConfig at 1. rewrite U.
  destruct ((thresholdCheck v (thresholdStatusOf (config w));;
             ratioCheck v (ratioStatusOf (config w));; ret None) w) as [[b w2] e2].
  reflexivity.
Qed.

Lemma performComparison_valid w v :
  usageInGB (config w) = Some v ->
  worldAfter performComparison w = worldAfter (bothChecks v) w
  /\ events performComparison w = events (bothChecks v) w
  /\ value performComparison w = None.
Proof.
  intros U. unfold worldAfter, events, value.
  rewrite (performComparison_checks w v U).
  repeat split. apply (bothChecks_run v w).
Qed.

Lemma performComparison_invalid w :
  usageInGB (config w) = None ->
  performComparison w
  = (Some (ErrInvalidCategory (Category (cComparison (config w)))), w, []).
Proof.
  intros U. unfold performComparison, bind, getConfig, ret. rewrite U. reflexivity.
Qed.

(** The flags of the service only go up, and the rest of the
    configuration is left as it is. *)
Lemma bothChecks_config v w :
  let c := config w in
  let c' := config (worldAfter (bothChecks v) w) in
  (thresholdStatusOf c = true -> thresholdStatusOf c' = true)
  /\ (ratioStatusOf c = true -> ratioStatusOf c' = true)
  /\ cStatistics c' = cStatistics c
  /\ cComparison c' = cComparison c
  /\ StartDay c' = StartDay c
  /\ Interval c' = Interval c.
Proof.
  intros c c'. subst c'. destruct (bothChecks_run v w) as [-> _].
  fold c.
  destruct (thresholdCheck_props v (thresholdStatusOf c) w) as [Ht _].
  fold c in Ht.
  set (w1 := worldAfter (thresholdCheck v (thresholdStatusOf c)) w) in *.
  destruct (ratioCheck_props v (ratioStatusOf c) w1) as [Hr _].
  pose proof (mark_facts c) as Fc. pose proof (mark_facts (config w1)) as F1.
  destruct Hr as [-> | ->], Ht as [E | E]; rewrite E in *; clear E;
    destruct Fc as (A1 & A2 & A3 & A4 & ? & ? & ? & ? & ? & ? & ? & ?),
             F1 as (B1 & B2 & B3 & B4 & ? & ? & ? & ? & ? & ? & ? & ?);
    (repeat split; [intros Hflag | intros Hflag | ..]; try congruence;
     repeat first [assumption | congruence | rewrite B3 | rewrite A2
                  | apply B4 | apply A1]).
Qed.

Lemma performComparison_config w :
  let c := config w in
  let c' := config (worldAfter performComparison w) in
  (thresholdStatusOf c = true -> thresholdStatusOf c' = true)
  /\ (ratioStatusOf c = true -> ratioStatusOf c' = true)
  /\ cStatistics c' = cStatistics c
  /\ cComparison c' = cComparison c
  /\ StartDay c' = StartDay c
  /\ Interval c' = Interval c.
Proof.
  cbv zeta. destruct (usageInGB (config w)) as [v|] eqn:U.
  - destruct (performComparison_valid w v U) as (-> & _).
    apply (bothChecks_config v w).
  - unfold worldAfter. rewrite (performComparison_invalid w U).
    cbn [fst snd]. tauto.
Qed.

(** Once the threshold flag is set, no threshold notice is sent. *)
Lemma performComparison_silent w :
  thresholdStatusOf (config w) = true ->
  existsb isThresholdSend (events performComparison w) = false.
Proof.
  intros H. destruct (usageInGB (config w)) as [v|] eqn:U.
  - destruct (performComparison_valid w v U) as (_ & -> & _).
    destruct (bothChecks_run v w) as (_ & -> & _).
    rewrite existsb_app, H.
    destruct (thresholdCheck_props v true w) as (_ & _ & _ & _ & _ & -> & _);
      [|reflexivity].
    destruct (ratioCheck_props v (ratioStatusOf (config w))
                (worldAfter (thresholdCheck v true) w)) as (_ & _ & -> & _).
    reflexivity.
  - unfold events. rewrite (performComparison_invalid w U). reflexivity.
Qed.

(** Once the ratio flag is set, no shutdown warning is sent and no
    shutdown is run. *)
Lemma performComparison_settled w :
  ratioStatusOf (config w) = true ->
  existsb isRatioSend (events performComparison w) = false
  /\ existsb isShutdown (events performComparison w) = false.
Proof.
  intros H. destruct (usageInGB (config w)) as [v|] eqn:U.
  - destruct (performComparison_valid w v U) as (_ & -> & _).
    destruct (bothChecks_run v w) as (_ & -> & _).
    rewrite !existsb_app, H.
    destruct (thresholdCheck_props v (thresholdStatusOf (config w)) w)
      as (_ & _ & -> & -> & _).
    destruct (ratioCheck_props v true
                (worldAfter (thresholdCheck v (thresholdStatusOf (config w))) w))
      as (_ & _ & _ & R & _).
    destruct (R eq_refl) as [-> ->]. auto.
  - unfold events. rewrite (performComparison_invalid w U). auto.
Qed.


(** *** An iteration that does not close the cycle *)

Lemma iteration_idle Local t w :
  checkReset Local (checkInstant t) (config w) = false ->
  sample t = None ->
  worldAfter (iteration Local t) w = w
  /\ events (iteration Local t) w
     = [EvPrint ErrorReadingStats; EvSleep (intervalOf (config w))].
Proof.
  intros H S. unfold iteration, worldAfter, events, bind, getConfig, ret, emit.
  rewrite H, S. cbn [fst snd app]. auto.
Qed.

Lemma iteration_sampled Local t w stats :
  checkReset Local (checkInstant t) (config w) = false ->
  sample t = Some stats ->
  let w1 := sampled stats w in
  let r := if answers w (asked w) then None else Some ErrWriteFile in
  worldAfter (iteration Local t) w = worldAfter performComparison w1
  /\ events (iteration Local t) w
     = EvSave (config w1) r
       :: match r with
          | Some e => [EvPrint (FailedUpdateStats e)]
          | None => []
          end
       ++ events performComparison w1
       ++ match value performComparison w1 with
          | Some e => [EvPrint (ComparisonError e)]
          | None => []
          end
       ++ [EvSleep (intervalOf (config w))].
Proof.
  intros H S w1 r. subst w1 r. unfold iteration.
  cbv beta iota zeta delta
    [bind getConfig ret emit modifyConfig saveConfig ask worldAfter events
     value sampled].
  rewrite H, S.
  cbv beta iota zeta delta
    [bind getConfig ret emit modifyConfig saveConfig ask worldAfter events
     value sampled].
  cbn [config answers asked].
  destruct (answers w (asked w));
    match goal with
    | |- context [performComparison ?w1] =>
        destruct (performComparison w1) as [[[e|] w2] e2]
    end; cbn [fst snd app]; rewrite ?app_nil_r; auto.
Qed.

(** The flags of the service never go down in an iteration that does
    not close the cycle, and what [checkReset] reads stays as it is. *)
Lemma iteration_flags Local t w :
  checkReset Local (checkInstant t) (config w) = false ->
  let c := config w in
  let c' := config (worldAfter (iteration Local t) w) in
  (thresholdStatusOf c = true -> thresholdStatusOf c' = true)
  /\ (ratioStatusOf c = true -> ratioStatusOf c' = true).
Proof.
  intros H. cbv zeta. destruct (sample t) as [stats|] eqn:S.
  - destruct (iteration_sampled Local t w stats H S) as [-> _].
    destruct (performComparison_config (sampled stats w)) as (A & B & _).
    exact (conj A B).
  - destruct (iteration_idle Local t w H S) as [-> _]. tauto.
Qed.

Lemma iteration_silent Local t w :
  checkReset Local (checkInstant t) (config w) = false ->
  thresholdStatusOf (config w) = true ->
  existsb isThresholdSend (events (iteration Local t) w) = false.
Proof.
  intros H F. destruct (sample t) as [stats|] eqn:S.
  - destruct (iteration_sampled Local t w stats H S) as [_ ->].
    cbn [existsb isThresholdSend orb]. rewrite !existsb_app.
    rewrite (performComparison_silent (sampled stats w) F).
    destruct (answers w (asked w)),
      (value performComparison (sampled stats w)); reflexivity.
  - destruct (iteration_idle Local t w H S) as [_ ->]. reflexivity.
Qed.

Lemma iteration_settled Local t w :
  checkReset Local (checkInstant t) (config w) = false ->
  ratioStatusOf (config w) = true ->
  existsb isRatioSend (events (iteration Local t) w) = false
  /\ existsb isShutdown (events (iteration Local t) w) = false.
Proof.
  intros H F. destruct (sample t) as [stats|] eqn:S.
  - destruct (iteration_sampled Local t w stats H S) as [_ ->].
    cbn [existsb isRatioSend isShutdown orb]. rewrite !existsb_app.
    destruct (performComparison_settled (sampled stats w) F) as [-> ->].
    destruct (answers w (asked w)),
      (value performComparison (sampled stats w)); auto.
  - destruct (iteration_idle Local t w H S) as [_ ->]. auto.
Qed.

End Running.

(** ** The cycle: checkReset and resetStatistics *)

Section Cycle.

Import GoTime.

Lemma dateLtb_spec a b : dateLtb a b = true <-> dateLt a b.
Proof.
  destruct a as [[y1 m1] d1], b as [[y2 m2] d2]. unfold dateLtb, dateLt.
  rewrite !orb_true_iff, !andb_true_iff, !orb_true_iff, !andb_true_iff,
    !Z.ltb_lt, !Z.eqb_eq.
  tauto.
Qed.

Lemma dateLt_irrefl a : ~ dateLt a a.
Proof. destruct a as [[y m] d]. unfold dateLt. lia. Qed.

Lemma dateLt_asym a b : dateLt a b -> ~ dateLt b a.
Proof.
  destruct a as [[y1 m1] d1], b as [[y2 m2] d2]. unfold dateLt. lia.
Qed.

(** East of UTC or on it, and off the very instant of midnight,
    [checkReset] is the rule of the specification. *)
Lemma checkReset_as_stated Local instant c :
  0 <= Local < 86400 -> 1 <= StartDay c ->
  0 < nanoOfDay (Now Local instant) ->
  checkReset Local instant c
  = shouldResetStated (civil (Now Local instant)) (LastReset (cStatistics c))
      (StartDay c).
Proof.
  intros Hl Hs Hn.
  assert (Hl' : -86400 < Local < 86400) by lia.
  pose proof (checkReset_spec Local instant c Hl' Hs) as H.
  unfold checkResetSpec in H. unfold shouldResetStated.
  destruct (parseFields (LastReset (cStatistics c))) as [L|] eqn:EL.
  2:{ apply H. exact I. }
  set (now := Now Local instant) in *.
  pose proof (civil_valid now) as Hv.
  unfold resetCivil, Year, Month in H.
  destruct (civil now) as [[y m] d] eqn:Ec. cbn [fst snd] in H.
  set (R := (y, m, Z.min (StartDay c) (daysIn m y))) in *.
  destruct (checkReset Local instant c).
  - symmetry. destruct (proj1 H eq_refl) as [[HL | [_ HL]] HR]; [|lia].
    apply andb_true_iff. split; [apply dateLtb_spec; exact HL|].
    apply negb_true_iff. destruct (dateLtb (y, m, d) R) eqn:E; [|reflexivity].
    apply dateLtb_spec in E. destruct HR as [HR | [HR _]].
    + destruct (dateLt_asym _ _ HR E).
    + rewrite HR in E. destruct (dateLt_irrefl _ E).
  - symmetry. apply not_true_iff_false. intros E.
    apply andb_true_iff in E. destruct E as [E1 E2].
    apply dateLtb_spec in E1. apply negb_true_iff in E2.
    assert (E3 : ~ dateLt (y, m, d) R)
      by (intros E3; apply dateLtb_spec in E3; congruence).
    assert (true = false); [|discriminate].
    symmetry. apply H. split; [left; exact E1|].
    destruct (dateLt_trichotomy R (y, m, d)) as [T|[T|T]];
      [left; exact T|right; split; [exact T|exact Hn]|contradiction].
Qed.

(** Clamped start day: the reset date of a month is its last day when
    the start day is beyond it. *)
Lemma resetDate_clamped Local instant c :
  resetDateOf Local (Now Local instant) c
  = Date (Year (Now Local instant)) (Month (Now Local instant))
      (Z.min (StartDay c)
         (daysIn (Month (Now Local instant)) (Year (Now Local instant))))
      0 0 0 0 Local.
Proof. unfold resetDateOf. rewrite resetDayOf_min. reflexivity. Qed.

(** [checkReset] reads the clock and two fields of the configuration;
    asked again later on the same day, once true it stays true. *)
Lemma checkReset_stays_true Local t1 t2 c :
  -86400 < Local < 86400 -> 1 <= StartDay c ->
  civil (Now Local t2) = civil (Now Local t1) -> t1 <= t2 ->
  checkReset Local t1 c = true -> checkReset Local t2 c = true.
Proof.
  intros Hl Hs Hd Ht H.
  apply (checkReset_spec Local t1 c Hl Hs) in H.
  apply (checkReset_spec Local t2 c Hl Hs).
  unfold checkResetSpec, resetCivil, Year, Month in *. rewrite Hd.
  destruct (parseFields (LastReset (cStatistics c))) as [L|]; [|exact I].
  destruct H as [HL HR]. split; [exact HL|].
  destruct HR as [HR | [HR Hn]]; [left; exact HR|right; split; [exact HR|]].
  destruct (wallNano_split (Now Local t1)) as [E1 _].
  destruct (wallNano_split (Now Local t2)) as [E2 _].
  rewrite Hd in E2. unfold wallNano in E1, E2.
  change (unixNano (Now Local t1)) with t1 in E1.
  change (unixNano (Now Local t2)) with t2 in E2.
  change (loc (Now Local t1)) with Local in E1.
  change (loc (Now Local t2)) with Local in E2.
  revert E1 E2 Hn.
  generalize (days (civil (Now Local t1))) (nanoOfDay (Now Local t1))
    (nanoOfDay (Now Local t2)).
  unfold nsPerDay, nsPerSecond, secondsPerDay. lia.
Qed.

Lemma closedConfig_fields Local instant c :
  TotalReceive (cStatistics (closedConfig Local instant c)) = 0
  /\ TotalTransmit (cStatistics (closedConfig Local instant c)) = 0
  /\ LastReceive (cStatistics (closedConfig Local instant c))
     = LastReceive (cStatistics c)
  /\ LastTransmit (cStatistics (closedConfig Local instant c))
     = LastTransmit (cStatistics c)
  /\ LastReset (cStatistics (closedConfig Local instant c))
     = FormatDate (Now Local instant)
  /\ StartDay (closedConfig Local instant c) = StartDay c
  /\ TgThresholdStatus (Telegram (cMessage (closedConfig Local instant c))) = false
  /\ TgRatioStatus (Telegram (cMessage (closedConfig Local instant c))) = false
  /\ GoThresholdStatus (Gotify (cMessage (closedConfig Local instant c))) = false
  /\ GoRatioStatus (Gotify (cMessage (closedConfig Local instant c))) = false
  /\ thresholdStatusOf (closedConfig Local instant c) = false
  /\ ratioStatusOf (closedConfig Local instant c) = false.
Proof.
  unfold closedConfig, thresholdStatusOf, ratioStatusOf.
  generalize (FormatDate (Now Local instant)). intros today.
  cbn [closedConfig cMessage cStatistics StartDay updMessage updStatistics
       updTelegram updGotify Service Telegram Gotify
       setTotalReceive setTotalTransmit setLastReset
       setTgThresholdStatus setTgRatioStatus setGoThresholdStatus
       setGoRatioStatus TotalReceive TotalTransmit LastReceive LastTransmit
       LastReset TgThresholdStatus TgRatioStatus GoThresholdStatus
       GoRatioStatus].
  destruct (String.eqb (Service (cMessage c)) "telegram"),
    (String.eqb (Service (cMessage c)) "gotify"); repeat split; reflexivity.
Qed.

(** Once today's date is the recorded one, on a host at or east of
    UTC, [checkReset] is false for the rest of the day. *)
Lemma checkReset_recorded_today Local t1 t2 c :
  0 <= Local < 86400 -> 1 <= StartDay c ->
  0 <= Year (Now Local t1) <= 9999 ->
  civil (Now Local t2) = civil (Now Local t1) ->
  LastReset (cStatistics c) = FormatDate (Now Local t1) ->
  checkReset Local t2 c = false.
Proof.
  intros Hl Hs Hy Hd EL.
  apply not_true_iff_false. intros H.
  assert (Hl' : -86400 < Local < 86400) by lia.
  apply (checkReset_spec Local t2 c Hl' Hs) in H.
  unfold checkResetSpec, resetCivil, Year, Month in H.
  rewrite EL, (parseFields_FormatDate _ Hy), Hd in H.
  destruct H as [[HL | [_ HL]] [HR | [HR _]]]; try lia.
  - exact (dateLt_asym _ _ HL HR).
  - rewrite HR in HL. exact (dateLt_irrefl _ HL).
Qed.

Lemma checkReset_after_close_east Local t1 t2 w :
  0 <= Local < 86400 -> 1 <= StartDay (config w) ->
  0 <= Year (Now Local t1) <= 9999 ->
  civil (Now Local t2) = civil (Now Local t1) ->
  checkReset Local t2 (config (worldAfter (resetStatistics Local t1) w)) = false.
Proof.
  intros Hl Hs Hy Hd. rewrite resetStatistics_config.
  destruct (closedConfig_fields Local t1 (config w))
    as (_ & _ & _ & _ & EL & ES & _).
  rewrite <- ES in Hs.
  exact (checkReset_recorded_today Local t1 t2 _ Hl Hs Hy Hd EL).
Qed.

(** The first departure from the rule, in general: at the instant of
    midnight that begins the reset date, [checkReset] is false whatever
    the recorded date, as long as it can be read. *)
Lemma checkReset_at_midnight Local instant c L :
  -86400 < Local < 86400 -> 1 <= StartDay c ->
  parseFields (LastReset (cStatistics c)) = Some L ->
  civil (Now Local instant) = resetCivil (Now Local instant) c ->
  nanoOfDay (Now Local instant) = 0 ->
  checkReset Local instant c = false.
Proof.
  intros Hl Hs EL Hd Hn. apply not_true_iff_false. intros H.
  apply (checkReset_spec Local instant c Hl Hs) in H.
  unfold checkResetSpec in H. rewrite EL, <- Hd, Hn in H.
  destruct H as [_ [HR | [_ HR]]]; [|lia].
  exact (dateLt_irrefl _ HR).
Qed.

(** The second departure, in general: on a host west of UTC, when the
    recorded date is the reset date itself and the clock is past the
    midnight that begins it, [checkReset] is true. *)
Lemma checkReset_west_of_UTC Local instant c :
  -86400 < Local < 0 -> 1 <= StartDay c ->
  parseFields (LastReset (cStatistics c))
  = Some (resetCivil (Now Local instant) c) ->
  civil (Now Local instant) = resetCivil (Now Local instant) c ->
  0 < nanoOfDay (Now Local instant) ->
  checkReset Local instant c = true.
Proof.
  intros Hl Hs EL Hd Hn.
  assert (Hl' : -86400 < Local < 86400) by lia.
  apply (checkReset_spec Local instant c Hl' Hs).
  unfold checkResetSpec. rewrite EL, <- Hd.
  split; right; split; auto; lia.
Qed.

Lemma resetCivil_StartDay t c c' :
  StartDay c' = StartDay c -> resetCivil t c' = resetCivil t c.
Proof. intros E. unfold resetCivil. rewrite E. reflexivity. Qed.

(** West of UTC, a close on the reset date is followed by another at
    every later reading of the clock that day. *)
Lemma checkReset_after_close_west Local t1 t2 w :
  -86400 < Local < 0 -> 1 <= StartDay (config w) ->
  0 <= Year (Now Local t1) <= 9999 ->
  civil (Now Local t2) = civil (Now Local t1) ->
  civil (Now Local t2) = resetCivil (Now Local t2) (config w) ->
  0 < nanoOfDay (Now Local t2) ->
  checkReset Local t2 (config (worldAfter (resetStatistics Local t1) w)) = true.
Proof.
  intros Hl Hs Hy Hd Hr Hn. rewrite resetStatistics_config.
  destruct (closedConfig_fields Local t1 (config w))
    as (_ & _ & _ & _ & EL & ES & _).
  pose proof (resetCivil_StartDay (Now Local t2) _ _ ES) as ER.
  rewrite <- ES in Hs. rewrite <- ER in Hr.
  apply (checkReset_west_of_UTC Local t2 _ Hl Hs); [|exact Hr|exact Hn].
  rewrite EL, (parseFields_FormatDate _ Hy), <- Hd. f_equal. exact Hr.
Qed.

(** The scenario of the specification, on a host at UTC+8: recorded
    2024-01-05, start day 5, clock 2024-02-05 08:30. *)
Example scenario_cycle_close :
  let t := unixNano (Date 2024 2 5 8 30 0 0 28800) in
  let w := fairWorld (sampleConfig (80 * GB) (5 * GB) "2024-01-05" "telegram" true true) in
  let c' := config (worldAfter (resetStatistics 28800 t) w) in
  checkReset 28800 t (config w) = true
  /\ TotalReceive (cStatistics c') = 0
  /\ TotalTransmit (cStatistics c') = 0
  /\ thresholdStatusOf c' = false
  /\ ratioStatusOf c' = false
  /\ LastReset (cStatistics c') = "2024-02-05"%string
  /\ checkReset 28800 t c' = false.
Proof. vm_compute. repeat split. Qed.

(** Clamped start day: with start day 31, the reset date of April 2024
    is the 30th. *)
Example scenario_clamped_start_day :
  let t := unixNano (Date 2024 4 12 9 0 0 0 0) in
  let c := mkConfig "host" "eth0" 600 31
             (mkStatistics 0 0 0 0 "2024-03-31") sampleComparison
             (sampleMessage "telegram" false false) in
  resetDateOf 0 (Now 0 t) c = Date 2024 4 30 0 0 0 0 0.
Proof. vm_compute. reflexivity. Qed.

(** C4. The code departs from the rule in two places. At the very
    instant of midnight that begins the reset date, [checkReset] is
    false although today is the reset date and the recorded date is
    before it: [After] is strict. On a host west of UTC, [checkReset] is
    true although the recorded date is the reset date itself: the
    recorded date is read as midnight UTC and compared with the local
    midnight of the reset date. *)
Theorem checkReset_departs_from_the_rule :
  let c1 := sampleConfig 0 0 "2024-01-05" "telegram" false false in
  let t1 := unixNano (Date 2024 2 5 0 0 0 0 0) in
  let c2 := sampleConfig 0 0 "2024-02-05" "telegram" false false in
  let t2 := unixNano (Date 2024 2 5 12 0 0 0 (-18000)) in
  (civil (Now 0 t1) = (2024, 2, 5)
   /\ shouldResetStated (civil (Now 0 t1)) "2024-01-05" 5 = true
   /\ checkReset 0 t1 c1 = false)
  /\ (civil (Now (-18000) t2) = (2024, 2, 5)
      /\ shouldResetStated (civil (Now (-18000) t2)) "2024-02-05" 5 = false
      /\ checkReset (-18000) t2 c2 = true).
Proof. vm_compute. repeat split. Qed.

(** C7. Whatever the world answers, and so also when the summary
    cannot be sent, [resetStatistics] leaves both totals at zero, the
    last reset date at today's date as [time.Now().Format] writes it
    (a date that reads back as today's for every year of four digits),
    and the flags of both services, hence of the configured one, at
    false. *)
Theorem resetStatistics_closes_the_cycle Local instant w :
  let c' := config (worldAfter (resetStatistics Local instant) w) in
  TotalReceive (cStatistics c') = 0
  /\ TotalTransmit (cStatistics c') = 0
  /\ LastReset (cStatistics c') = FormatDate (Now Local instant)
  /\ (0 <= Year (Now Local instant) <= 9999 ->
      parseFields (LastReset (cStatistics c')) = Some (civil (Now Local instant)))
  /\ thresholdStatusOf c' = false
  /\ ratioStatusOf c' = false
  /\ TgThresholdStatus (Telegram (cMessage c')) = false
  /\ TgRatioStatus (Telegram (cMessage c')) = false
  /\ GoThresholdStatus (Gotify (cMessage c')) = false
  /\ GoRatioStatus (Gotify (cMessage c')) = false.
Proof.
  cbv zeta. rewrite resetStatistics_config.
  destruct (closedConfig_fields Local instant (config w))
    as (A1 & A2 & _ & _ & A5 & _ & A7 & A8 & A9 & A10 & A11 & A12).
  repeat split; try assumption.
  intros Hy. rewrite A5. apply parseFields_FormatDate, Hy.
Qed.

Lemma resetStatistics_closes_the_cycle_witness :
  let t := unixNano (Date 2024 2 5 8 30 0 0 28800) in
  let w := foulWorld (sampleConfig (80 * GB) (5 * GB) "2024-01-05" "gotify" true true) in
  parseFields
    (LastReset (cStatistics (config (worldAfter (resetStatistics 28800 t) w))))
  = Some (civil (Now 28800 t)).
Proof.
  cbv zeta.
  apply (resetStatistics_closes_the_cycle 28800
           (unixNano (Date 2024 2 5 8 30 0 0 28800))
           (foulWorld (sampleConfig (80 * GB) (5 * GB) "2024-01-05" "gotify"
                         true true))).
  vm_compute. split; discriminate.
Defined.

(** In the world where every request fails the summary is not
    delivered, and the cycle is closed all the same. *)
Example close_without_summary :
  let t := unixNano (Date 2024 2 5 8 30 0 0 28800) in
  let w := foulWorld (sampleConfig (80 * GB) (5 * GB) "2024-01-05" "gotify" true true) in
  existsb isPrint (events (resetStatistics 28800 t) w) = true
  /\ cStatistics (config (worldAfter (resetStatistics 28800 t) w))
     = mkStatistics 0 0 1000 2000 "2024-02-05".
Proof. vm_compute. repeat split. Qed.

(** C8. On a host five hours west of UTC the cycle is closed at noon
    of the reset date, 2024-02-05; ten minutes later, on the same day,
    [checkReset] is true again. *)
Theorem checkReset_true_again_after_close_west_of_UTC :
  let Local := -18000 in
  let t1 := unixNano (Date 2024 2 5 12 0 0 0 Local) in
  let t2 := unixNano (Date 2024 2 5 12 10 0 0 Local) in
  let w := fairWorld (sampleConfig (80 * GB) (5 * GB) "2024-01-05" "telegram" true false) in
  let w' := worldAfter (resetStatistics Local t1) w in
  checkReset Local t1 (config w) = true
  /\ LastReset (cStatistics (config w')) = "2024-02-05"%string
  /\ civil (Now Local t2) = civil (Now Local t1)
  /\ checkReset Local t2 (config w') = true.
Proof. vm_compute. repeat split. Qed.

(** C10. [resetStatistics] zeroes the totals and keeps the last values
    seen, so the first accumulation after it counts the sample against
    the last sample taken before the close: the new total is the
    difference of the two. *)
Theorem close_keeps_the_baselines Local instant w stats :
  let s := cStatistics (config w) in
  let s' := cStatistics (config (worldAfter (resetStatistics Local instant) w)) in
  LastReceive s' = LastReceive s
  /\ LastTransmit s' = LastTransmit s
  /\ TotalReceive s' = 0
  /\ TotalTransmit s' = 0
  /\ (U64.ok (ReceiveBytes stats) -> U64.ok (LastReceive s) ->
      LastReceive s <= ReceiveBytes stats ->
      TotalReceive (accumulate stats s') = ReceiveBytes stats - LastReceive s)
  /\ (U64.ok (TransmitBytes stats) -> U64.ok (LastTransmit s) ->
      LastTransmit s <= TransmitBytes stats ->
      TotalTransmit (accumulate stats s') = TransmitBytes stats - LastTransmit s).
Proof.
  cbv zeta. rewrite resetStatistics_config.
  destruct (closedConfig_fields Local instant (config w))
    as (A1 & A2 & A3 & A4 & _).
  repeat split; try assumption.
  - intros Hs Hl Hle.
    rewrite TotalReceive_accumulate, TotalReceive_steps, A1, A3.
    destruct (Z.ltb_spec (ReceiveBytes stats) (LastReceive (cStatistics (config w))));
      [lia|].
    unfold U64.sub. rewrite add_wrap_r. apply wrap_small.
    unfold U64.ok in *. lia.
  - intros Hs Hl Hle.
    rewrite TotalTransmit_accumulate, TotalTransmit_steps, A2, A4.
    destruct (Z.ltb_spec (TransmitBytes stats) (LastTransmit (cStatistics (config w))));
      [lia|].
    unfold U64.sub. rewrite add_wrap_r. apply wrap_small.
    unfold U64.ok in *. lia.
Qed.

Lemma close_keeps_the_baselines_witness :
  let t := unixNano (Date 2024 2 5 8 30 0 0 28800) in
  let w := fairWorld (sampleConfig (80 * GB) (5 * GB) "2024-01-05" "telegram" true true) in
  TotalReceive
    (accumulate (mkNetStats 1500 2600)
       (cStatistics (config (worldAfter (resetStatistics 28800 t) w))))
  = 1500 - 1000.
Proof.
  cbv zeta.
  apply (close_keeps_the_baselines 28800
           (unixNano (Date 2024 2 5 8 30 0 0 28800))
           (fairWorld (sampleConfig (80 * GB) (5 * GB) "2024-01-05" "telegram"
                         true true))
           (mkNetStats 1500 2600)).
  - unfold U64.ok, U64.modulus. cbn. lia.
  - unfold U64.ok, U64.modulus. cbn. lia.
  - cbn. lia.
Defined.

End Cycle.

(** ** The alerts: performComparison *)

Section Alerts.

Lemma existsb_weaken {A} (p q : A -> bool) l :
  (forall a, p a = true -> q a = true) ->
  existsb q l = false -> existsb p l = false.
Proof.
  intros Hpq H. apply not_true_iff_false. intros E.
  apply existsb_exists in E. destruct E as (a & Ha & Hp).
  assert (existsb q l = true) by (apply existsb_exists; exists a; auto).
  congruence.
Qed.

Lemma failedRatioSend_isRatioSend e :
  failedRatioSend e = true -> isRatioSend e = true.
Proof. destruct e as [[] []| | | |]; cbn; congruence. Qed.

Lemma failedThresholdSend_isThresholdSend e :
  failedThresholdSend e = true -> isThresholdSend e = true.
Proof. destruct e as [[] []| | | |]; cbn; congruence. Qed.

(** A limit reached with its flag down: the notice is attempted. *)
Lemma performComparison_attempts w v :
  usageInGB (config w) = Some v ->
  (float_ge v (thresholdLimitOf (config w)) = true ->
   thresholdStatusOf (config w) = false ->
   existsb isThresholdSend (events performComparison w) = true)
  /\ (float_ge v (ratioLimitOf (config w)) = true ->
      ratioStatusOf (config w) = false ->
      existsb isRatioSend (events performComparison w) = true).
Proof.
  intros U. destruct (performComparison_valid w v U) as (_ & -> & _).
  destruct (bothChecks_run v w) as (_ & -> & _).
  rewrite !existsb_app. split; intros L F.
  - destruct (thresholdCheck_props v (thresholdStatusOf (config w)) w)
      as (_ & _ & _ & _ & _ & _ & _ & ->); auto.
  - destruct (thresholdCheck_props v (thresholdStatusOf (config w)) w)
      as (Hc & _).
    set (w1 := worldAfter (thresholdCheck v (thresholdStatusOf (config w))) w) in *.
    destruct (ratioCheck_props v (ratioStatusOf (config w)) w1)
      as (_ & _ & _ & _ & _ & ->); auto using orb_true_r.
    unfold ratioLimitOf in *. destruct (mark_facts (config w)) as (_ & _ & _ & _ & E & _).
    destruct Hc as [-> | ->]; [|rewrite E]; exact L.
Qed.

(** A notice that could not be delivered leaves its flag as it was,
    and a shutdown warning that could not be delivered runs no
    shutdown. *)
Lemma performComparison_failed w v :
  usageInGB (config w) = Some v ->
  (existsb failedThresholdSend (events performComparison w) = true ->
   thresholdStatusOf (config (worldAfter performComparison w))
   = thresholdStatusOf (config w))
  /\ (existsb failedRatioSend (events performComparison w) = true ->
      ratioStatusOf (config (worldAfter performComparison w))
      = ratioStatusOf (config w)
      /\ existsb isShutdown (events performComparison w) = false
      /\ existsb isSleep (events performComparison w) = false).
Proof.
  intros U. destruct (performComparison_valid w v U) as (-> & -> & _).
  destruct (bothChecks_run v w) as (-> & -> & _).
  destruct (thresholdCheck_props v (thresholdStatusOf (config w)) w)
    as (Tc & _ & Tr & Ts & Tz & _ & Tf & _).
  set (w1 := worldAfter (thresholdCheck v (thresholdStatusOf (config w))) w) in *.
  destruct (ratioCheck_props v (ratioStatusOf (config w)) w1)
    as (Rc & _ & Rt & _ & Rf & _).
  destruct (mark_facts (config w)) as (_ & M2 & _).
  destruct (mark_facts (config w1)) as (_ & _ & M3 & _).
  rewrite !existsb_app. split; intros F.
  - rewrite (existsb_weaken _ _ _ failedThresholdSend_isThresholdSend Rt) in F.
    rewrite orb_false_r in F. specialize (Tf F).
    destruct Rc as [-> | ->]; [|rewrite M3]; rewrite Tf; reflexivity.
  - rewrite (existsb_weaken _ _ _ failedRatioSend_isRatioSend Tr) in F.
    cbn [orb] in F. destruct (Rf F) as (-> & -> & ->). rewrite Ts, Tz.
    split; [|split; reflexivity].
    destruct Tc as [-> | ->]; [reflexivity|exact M2].
Qed.

Lemma iteration_attempts Local t w stats v :
  checkReset Local (checkInstant t) (config w) = false ->
  sample t = Some stats ->
  usageInGB (config (sampled stats w)) = Some v ->
  (float_ge v (thresholdLimitOf (config w)) = true ->
   thresholdStatusOf (config w) = false ->
   existsb isThresholdSend (events (iteration Local t) w) = true)
  /\ (float_ge v (ratioLimitOf (config w)) = true ->
      ratioStatusOf (config w) = false ->
      existsb isRatioSend (events (iteration Local t) w) = true).
Proof.
  intros H S U.
  destruct (iteration_sampled Local t w stats H S) as [_ ->].
  destruct (performComparison_attempts (sampled stats w) v U) as [A B].
  cbn [existsb isThresholdSend isRatioSend orb]. rewrite !existsb_app.
  split; intros L F.
  - rewrite (A L F). apply orb_true_iff. right. reflexivity.
  - rewrite (B L F). apply orb_true_iff. right. reflexivity.
Qed.

(** *** Flags along a run *)

Lemma rises_step a b l :
  rises (a :: b :: l) = ((if negb a && b then 1 else 0) + rises (b :: l))%nat.
Proof. reflexivity. Qed.

Lemma falls_step a b l :
  falls (a :: b :: l) = ((if a && negb b then 1 else 0) + falls (b :: l))%nat.
Proof. reflexivity. Qed.

Lemma neverFalls_all_true l :
  neverFalls (true :: l) -> rises (true :: l) = 0%nat /\ falls (true :: l) = 0%nat.
Proof.
  induction l as [|b l IH]; [auto|].
  intros [H1 H2]. rewrite (H1 eq_refl) in *. destruct (IH H2) as [R F].
  rewrite rises_step, falls_step, R, F. auto.
Qed.

Lemma neverFalls_counts l :
  neverFalls l -> (falls l = 0 /\ rises l <= 1)%nat.
Proof.
  induction l as [|a l IH]; [cbn; lia|].
  destruct l as [|b l]; [cbn; lia|].
  intros [H1 H2]. rewrite rises_step, falls_step. destruct a.
  - rewrite (H1 eq_refl) in *.
    destruct (neverFalls_all_true l H2) as [R F]. rewrite R, F. cbn. lia.
  - destruct (IH H2) as [F R]. destruct b.
    + destruct (neverFalls_all_true l H2) as [R' F']. rewrite R', F'. cbn. lia.
    + cbn [negb andb]. lia.
Qed.

Lemma history_neverFalls Local ticks : forall w,
  noReset Local ticks w ->
  neverFalls (thresholdFlags (history Local ticks w))
  /\ neverFalls (ratioFlags (history Local ticks w)).
Proof.
  induction ticks as [|t ticks IH]; intros w H; [cbn; auto|].
  destruct H as [H1 H2]. destruct (IH _ H2) as [IT IR].
  destruct (iteration_flags Local t w H1) as [FT FR].
  cbn [history]. destruct ticks as [|t' ticks]; cbn in *; auto.
Qed.

Lemma eventsOf_silent Local ticks : forall w,
  noReset Local ticks w ->
  thresholdStatusOf (config w) = true ->
  existsb isThresholdSend (eventsOf Local ticks w) = false.
Proof.
  induction ticks as [|t ticks IH]; intros w H F; [reflexivity|].
  destruct H as [H1 H2]. cbn [eventsOf]. rewrite existsb_app.
  rewrite (iteration_silent Local t w H1 F).
  apply IH; [exact H2|]. apply (iteration_flags Local t w H1), F.
Qed.

Lemma eventsOf_settled Local ticks : forall w,
  noReset Local ticks w ->
  ratioStatusOf (config w) = true ->
  existsb isRatioSend (eventsOf Local ticks w) = false
  /\ existsb isShutdown (eventsOf Local ticks w) = false.
Proof.
  induction ticks as [|t ticks IH]; intros w H F; [auto|].
  destruct H as [H1 H2]. cbn [eventsOf]. rewrite !existsb_app.
  destruct (iteration_settled Local t w H1 F) as [-> ->].
  apply IH; [exact H2|]. apply (iteration_flags Local t w H1), F.
Qed.

(** The scenario of the specification, run. *)
Example scenario_alerts :
  thresholdFlags (history 0 scenarioTicks scenarioWorld) = [false; true; true; true]
  /\ ratioFlags (history 0 scenarioTicks scenarioWorld) = [false; false; true; true]
  /\ map (fun e => (isThresholdSend e, isRatioSend e, isShutdown e))
       (filter (fun e => isSend e || isShutdown e)
          (eventsOf 0 scenarioTicks scenarioWorld))
     = [(true, false, false); (false, true, false); (false, false, true)].
Proof. vm_compute. repeat split. Qed.

(** C5. Along a run in which no iteration closes the cycle, the flag
    of the threshold alert and the flag of the shutdown warning, as read
    for the configured service, never go from true to false and go from
    false to true at most once; if the threshold flag is true at the
    start, no threshold notice is sent during the run, whatever the
    usage; and if the ratio flag is true at the start, no shutdown
    warning is sent and no shutdown is run. *)
Theorem alert_flags_rise_once_per_cycle Local ticks w :
  noReset Local ticks w ->
  (falls (thresholdFlags (history Local ticks w)) = 0
   /\ rises (thresholdFlags (history Local ticks w)) <= 1)%nat
  /\ (falls (ratioFlags (history Local ticks w)) = 0
      /\ rises (ratioFlags (history Local ticks w)) <= 1)%nat
  /\ (thresholdStatusOf (config w) = true ->
      existsb isThresholdSend (eventsOf Local ticks w) = false)
  /\ (ratioStatusOf (config w) = true ->
      existsb isRatioSend (eventsOf Local ticks w) = false
      /\ existsb isShutdown (eventsOf Local ticks w) = false).
Proof.
  intros H. destruct (history_neverFalls Local ticks w H) as [T R].
  split; [apply neverFalls_counts, T|].
  split; [apply neverFalls_counts, R|].
  split; [apply eventsOf_silent, H|apply eventsOf_settled, H].
Qed.

Lemma alert_flags_rise_once_per_cycle_witness :
  existsb isThresholdSend
    (eventsOf 0 (tl scenarioTicks)
       (worldAfter (iteration 0 (hd (mkTick 0 0 None) scenarioTicks)) scenarioWorld))
  = false.
Proof.
  apply (alert_flags_rise_once_per_cycle 0 (tl scenarioTicks)
           (worldAfter (iteration 0 (hd (mkTick 0 0 None) scenarioTicks))
              scenarioWorld)).
  - vm_compute. auto.
  - vm_compute. reflexivity.
Defined.

(** C6. On an evaluation where the usage has reached the ratio limit,
    the flag is down and the shutdown warning cannot be delivered, the
    flag stays down, the program does not sleep and no shutdown is run;
    and at the next iteration
    that does not close the cycle and still finds the usage at or above
    the ratio limit, the shutdown warning is sent again. The threshold
    notice behaves the same way. *)
Theorem failed_delivery_is_retried w v :
  usageInGB (config w) = Some v ->
  (float_ge v (ratioLimitOf (config w)) = true ->
   ratioStatusOf (config w) = false ->
   existsb failedRatioSend (events performComparison w) = true ->
   ratioStatusOf (config (worldAfter performComparison w)) = false
   /\ existsb isShutdown (events performComparison w) = false
   /\ existsb isSleep (events performComparison w) = false
   /\ forall Local t stats v2,
        checkReset Local (checkInstant t)
          (config (worldAfter performComparison w)) = false ->
        sample t = Some stats ->
        usageInGB (config (sampled stats (worldAfter performComparison w)))
        = Some v2 ->
        float_ge v2 (ratioLimitOf (config (worldAfter performComparison w)))
        = true ->
        existsb isRatioSend
          (events (iteration Local t) (worldAfter performComparison w)) = true)
  /\ (float_ge v (thresholdLimitOf (config w)) = true ->
      thresholdStatusOf (config w) = false ->
      existsb failedThresholdSend (events performComparison w) = true ->
      thresholdStatusOf (config (worldAfter performComparison w)) = false
      /\ forall Local t stats v2,
           checkReset Local (checkInstant t)
             (config (worldAfter performComparison w)) = false ->
           sample t = Some stats ->
           usageInGB (config (sampled stats (worldAfter performComparison w)))
           = Some v2 ->
           float_ge v2 (thresholdLimitOf (config (worldAfter performComparison w)))
           = true ->
           existsb isThresholdSend
             (events (iteration Local t) (worldAfter performComparison w)) = true).
Proof.
  intros U. destruct (performComparison_failed w v U) as [FT FR].
  split.
  - intros L F D. destruct (FR D) as (E & S & Z). rewrite F in E.
    split; [exact E|]. split; [exact S|]. split; [exact Z|].
    intros Local t stats v2 H Hs U2 L2.
    apply (iteration_attempts Local t _ stats v2 H Hs U2); assumption.
  - intros L F D. pose proof (FT D) as E. rewrite F in E.
    split; [exact E|].
    intros Local t stats v2 H Hs U2 L2.
    apply (iteration_attempts Local t _ stats v2 H Hs U2); assumption.
Qed.

Lemma failed_delivery_is_retried_witness :
  ratioStatusOf (config (worldAfter performComparison outageWorld)) = false
  /\ existsb isShutdown (events performComparison outageWorld) = false
  /\ existsb isSleep (events performComparison outageWorld) = false
  /\ existsb isRatioSend
       (events
          (iteration 0
             (mkTick (GoTime.unixNano (GoTime.Date 2024 2 10 9 0 0 0 0)) 0
                (Some (mkNetStats 1000 2000))))
          (worldAfter performComparison outageWorld))
     = true.
Proof.
  destruct (failed_delivery_is_retried outageWorld 96%float) as [R _].
  - vm_compute. reflexivity.
  - destruct R as (A & B & Z & C).
    + vm_compute. reflexivity.
    + vm_compute. reflexivity.
    + vm_compute. reflexivity.
    + split; [exact A|]. split; [exact B|]. split; [exact Z|].
      apply (C 0 (mkTick (GoTime.unixNano (GoTime.Date 2024 2 10 9 0 0 0 0)) 0
                    (Some (mkNetStats 1000 2000)))
               (mkNetStats 1000 2000) 96%float).
      * vm_compute. reflexivity.
      * reflexivity.
      * vm_compute. reflexivity.
      * vm_compute. reflexivity.
Defined.

(** C9, amended. A category that is none of the four makes
    [performComparison] return the error at once: nothing is sent, no
    flag is set, nothing is run. A service that is neither of the two
    does not abort the evaluation: [performComparison] returns no error
    and leaves the world as it is (no flag set, no request made, no
    command run); for each limit that the usage has reached,
    [sendMessage] is called, fails as unknown service and the failure
    is printed, and when no limit is reached nothing is reported. *)
Theorem config_errors_in_performComparison w :
  (usageInGB (config w) = None ->
   performComparison w
   = (Some (ErrInvalidCategory (Category (cComparison (config w)))), w, []))
  /\ (knownService (config w) = false ->
      forall v, usageInGB (config w) = Some v ->
      let unknown := ErrUnknownService (Service (cMessage (config w))) in
      value performComparison w = None
      /\ worldAfter performComparison w = w
      /\ events performComparison w
         = (if float_ge v (thresholdLimitOf (config w)) then
              [EvSend
                 (ThresholdNotice v (Threshold (cComparison (config w)) * 100)%float)
                 (Some unknown);
               EvPrint (FailedThresholdMessage unknown)]
            else [])
           ++ (if float_ge v (ratioLimitOf (config w)) then
                 [EvSend
                    (RatioNotice v (Ratio (cComparison (config w)) * 100)%float)
                    (Some unknown);
                  EvPrint (FailedRatioMessage unknown)]
               else [])).
Proof.
  split; [apply performComparison_invalid|].
  intros K v U. cbv zeta.
  destruct (performComparison_valid w v U) as (-> & -> & ->).
  destruct (bothChecks_run v w) as (-> & -> & _).
  assert (Ft : thresholdStatusOf (config w) = false).
  { unfold knownService in K. apply orb_false_iff in K. destruct K as [Kt Kg].
    unfold thresholdStatusOf. rewrite Kt, Kg. reflexivity. }
  assert (Fr : ratioStatusOf (config w) = false).
  { unfold knownService in K. apply orb_false_iff in K. destruct K as [Kt Kg].
    unfold ratioStatusOf. rewrite Kt, Kg. reflexivity. }
  rewrite Ft, Fr. unfold worldAfter, events.
  rewrite (thresholdCheck_unknown v w K). cbn [fst snd].
  rewrite (ratioCheck_unknown v w K). cbn [fst snd].
  auto.
Qed.

Lemma config_errors_in_performComparison_witness :
  value performComparison strayWorld = None
  /\ worldAfter performComparison strayWorld = strayWorld
  /\ events performComparison strayWorld = [].
Proof.
  destruct (config_errors_in_performComparison strayWorld) as [_ H].
  apply (H eq_refl 1%float). vm_compute. reflexivity.
Defined.

(** C9 as the specification states it fails for an unknown service:
    below the limits the evaluation ends without any error reported. *)
Lemma config_error_as_stated_fails : ~ configErrorAbortsAsStated strayWorld.
Proof.
  unfold configErrorAbortsAsStated. intros H.
  destruct H as [[R | R] _].
  - right. reflexivity.
  - apply R. vm_compute. reflexivity.
  - vm_compute in R. discriminate R.
Qed.

End Alerts.

(** ** More on the counters *)

Section Accrual.

Lemma increment_step stats s :
  TotalReceive (accumulate stats s)
  = U64.wrap (TotalReceive s + increment (LastReceive s) (ReceiveBytes stats))
  /\ TotalTransmit (accumulate stats s)
     = U64.wrap (TotalTransmit s + increment (LastTransmit s) (TransmitBytes stats)).
Proof.
  rewrite TotalReceive_accumulate, TotalTransmit_accumulate,
    TotalReceive_steps, TotalTransmit_steps.
  unfold increment. split.
  - destruct (ReceiveBytes stats <? LastReceive s).
    + apply fold_then_delta.
    + unfold U64.sub. apply add_wrap_r.
  - destruct (TransmitBytes stats <? LastTransmit s).
    + apply fold_then_delta.
    + unfold U64.sub. apply add_wrap_r.
Qed.

Lemma accumulateAll_cons stats samples s :
  accumulateAll (stats :: samples) s = accumulateAll samples (accumulate stats s).
Proof. reflexivity. Qed.

Lemma accrual_receive samples : forall s,
  U64.ok (TotalReceive s) ->
  TotalReceive (accumulateAll samples s)
  = U64.wrap (TotalReceive s
              + sum (increments (LastReceive s) (received samples))).
Proof.
  induction samples as [|stats samples IH]; intros s Hok.
  - cbn. rewrite Z.add_0_r. symmetry. apply wrap_small, Hok.
  - rewrite accumulateAll_cons, IH.
    + rewrite LastReceive_accumulate. destruct (increment_step stats s) as [-> _].
      cbn [received map increments sum fold_right].
      fold (received samples).
      fold (sum (increments (ReceiveBytes stats) (received samples))).
      rewrite <- add_wrap_l, wrap_wrap, add_wrap_l. f_equal. ring.
    + destruct (increment_step stats s) as [-> _]. apply wrap_ok.
Qed.

Lemma accrual_transmit samples : forall s,
  U64.ok (TotalTransmit s) ->
  TotalTransmit (accumulateAll samples s)
  = U64.wrap (TotalTransmit s
              + sum (increments (LastTransmit s) (transmitted samples))).
Proof.
  induction samples as [|stats samples IH]; intros s Hok.
  - cbn. rewrite Z.add_0_r. symmetry. apply wrap_small, Hok.
  - rewrite accumulateAll_cons, IH.
    + rewrite LastTransmit_accumulate. destruct (increment_step stats s) as [_ ->].
      cbn [transmitted map increments sum fold_right].
      fold (transmitted samples).
      fold (sum (increments (TransmitBytes stats) (transmitted samples))).
      rewrite <- add_wrap_l, wrap_wrap, add_wrap_l. f_equal. ring.
    + destruct (increment_step stats s) as [_ ->]. apply wrap_ok.
Qed.

Lemma lasts_after samples : forall s,
  LastReceive (accumulateAll samples s) = last (received samples) (LastReceive s)
  /\ LastTransmit (accumulateAll samples s)
     = last (transmitted samples) (LastTransmit s)
  /\ LastReset (accumulateAll samples s) = LastReset s.
Proof.
  induction samples as [|stats samples IH]; intros s; [cbn; auto|].
  rewrite accumulateAll_cons. destruct (IH (accumulate stats s)) as (A & B & C).
  rewrite A, B, C, LastReceive_accumulate, LastTransmit_accumulate,
    LastReset_accumulate.
  cbn [received transmitted map]. rewrite !last_cons. auto.
Qed.

(** X1. The accrual law. Over any sequence of samples, resets of the
    counters included, each total ends at its initial value plus the sum
    of what the ticks add, in arithmetic modulo 2^64: a tick adds the
    sample itself when the sample is below the last value seen, and the
    difference with it otherwise. The last values end at those of the
    last sample and the reset date is not touched. *)
Theorem accrual_law samples s :
  U64.ok (TotalReceive s) -> U64.ok (TotalTransmit s) ->
  TotalReceive (accumulateAll samples s)
  = U64.wrap (TotalReceive s
              + sum (increments (LastReceive s) (received samples)))
  /\ TotalTransmit (accumulateAll samples s)
     = U64.wrap (TotalTransmit s
                 + sum (increments (LastTransmit s) (transmitted samples)))
  /\ LastReceive (accumulateAll samples s)
     = last (received samples) (LastReceive s)
  /\ LastTransmit (accumulateAll samples s)
     = last (transmitted samples) (LastTransmit s)
  /\ LastReset (accumulateAll samples s) = LastReset s.
Proof.
  intros Hr Ht. split; [apply accrual_receive, Hr|].
  split; [apply accrual_transmit, Ht|]. apply lasts_after.
Qed.

Lemma accrual_law_witness :
  TotalReceive
    (accumulateAll [mkNetStats 70 10; mkNetStats 20 15; mkNetStats 95 3]
       (mkStatistics 100 7 50 9 "2024-02-05"))
  = U64.wrap (100 + (20 + 20 + 75)).
Proof.
  refine (proj1 (accrual_law
                   [mkNetStats 70 10; mkNetStats 20 15; mkNetStats 95 3]
                   (mkStatistics 100 7 50 9 "2024-02-05") _ _)).
  - unfold U64.ok, U64.modulus. cbn. lia.
  - unfold U64.ok, U64.modulus. cbn. lia.
Defined.

Lemma increments_nonneg values : forall base,
  0 <= base -> Forall (fun v => 0 <= v) values ->
  0 <= sum (increments base values).
Proof.
  induction values as [|v values IH]; intros base Hb H; [cbn; lia|].
  inversion H as [|? ? Hv Hvs]; subst.
  cbn [increments sum fold_right]. fold (sum (increments v values)).
  specialize (IH v Hv Hvs). unfold increment.
  destruct (Z.ltb_spec v base); lia.
Qed.

(** X2. As long as the sum fits in 64 bits the received total never
    goes down: over any sequence of samples it ends at exactly its
    initial value plus what the ticks add, which is not negative. *)
Theorem total_never_decreases samples s :
  U64.ok (TotalReceive s) -> 0 <= LastReceive s ->
  Forall (fun v => 0 <= v) (received samples) ->
  TotalReceive s + sum (increments (LastReceive s) (received samples))
  < U64.modulus ->
  TotalReceive (accumulateAll samples s)
  = TotalReceive s + sum (increments (LastReceive s) (received samples))
  /\ TotalReceive s <= TotalReceive (accumulateAll samples s).
Proof.
  intros Hok Hl Hv Hfit.
  pose proof (increments_nonneg _ _ Hl Hv) as Hn.
  rewrite (accrual_receive samples s Hok), wrap_small.
  - lia.
  - unfold U64.ok in *. lia.
Qed.

Lemma total_never_decreases_witness :
  100 <= TotalReceive
           (accumulateAll [mkNetStats 70 10; mkNetStats 20 15]
              (mkStatistics 100 7 50 9 "2024-02-05")).
Proof.
  refine (proj2 (total_never_decreases [mkNetStats 70 10; mkNetStats 20 15]
                   (mkStatistics 100 7 50 9 "2024-02-05") _ _ _ _)).
  - unfold U64.ok, U64.modulus. cbn. lia.
  - cbn. lia.
  - repeat constructor; cbn; lia.
  - unfold U64.modulus. cbn. lia.
Defined.

(** X3. A tick whose sample equals the last values seen changes
    nothing: the statistics stay as they are. *)
Theorem quiet_tick_changes_nothing stats s :
  U64.ok (TotalReceive s) -> U64.ok (TotalTransmit s) ->
  ReceiveBytes stats = LastReceive s -> TransmitBytes stats = LastTransmit s ->
  accumulate stats s = s.
Proof.
  intros Hr Ht Er Et. destruct s as [tr tt lr lt d]. destruct stats as [rx tx].
  cbn in *. subst rx tx.
  unfold accumulate, saveLast, updateTotals, detectReboot.
  cbn [ReceiveBytes TransmitBytes LastReceive LastTransmit TotalReceive
       TotalTransmit LastReset setTotalReceive setTotalTransmit setLastReceive
       setLastTransmit].
  rewrite !Z.ltb_irrefl.
  cbn [ReceiveBytes TransmitBytes LastReceive LastTransmit TotalReceive
       TotalTransmit LastReset setTotalReceive setTotalTransmit setLastReceive
       setLastTransmit].
  unfold U64.sub. rewrite !Z.sub_diag, !add_wrap_r, !Z.add_0_r.
  rewrite (wrap_small _ Hr), (wrap_small _ Ht). reflexivity.
Qed.

Lemma quiet_tick_changes_nothing_witness :
  accumulate (mkNetStats 50 9) (mkStatistics 100 7 50 9 "2024-02-05")
  = mkStatistics 100 7 50 9 "2024-02-05".
Proof.
  apply quiet_tick_changes_nothing.
  - unfold U64.ok, U64.modulus. cbn. lia.
  - unfold U64.ok, U64.modulus. cbn. lia.
  - reflexivity.
  - reflexivity.
Defined.

End Accrual.

(** ** More on the cycle check *)

Section ResetDate.

Import GoTime.

Lemma checkReset_days Local instant c :
  -86400 < Local < 86400 ->
  checkReset Local instant c = true
  <-> match parseFields (LastReset (cStatistics c)) with
      | None => True
      | Some L =>
          (days L < days (resetCivil (Now Local instant) c)
           \/ (days L = days (resetCivil (Now Local instant) c) /\ Local < 0))
          /\ (days (resetCivil (Now Local instant) c)
              < days (civil (Now Local instant))
              \/ (days (resetCivil (Now Local instant) c)
                  = days (civil (Now Local instant))
                  /\ 0 < nanoOfDay (Now Local instant)))
      end.
Proof.
  intros Hl. unfold checkReset, ParseDate.
  destruct (parseFields (LastReset (cStatistics c))) as [L|] eqn:EL; [|tauto].
  set (now := Now Local instant).
  unfold resetDateOf. rewrite resetDayOf_min. fold (resetCivil now c).
  set (R := resetCivil now c) in *.
  pose proof (Before_midnights L R Local Hl) as HB.
  pose proof (After_midnight now R) as HA.
  change (loc now) with Local in HA.
  replace (Date (Year now) (Month now) (Z.min (StartDay c) (daysIn (Month now) (Year now))) 0 0 0 0 Local)
    with (let '(y, m, d) := R in Date y m d 0 0 0 0 Local) by reflexivity.
  destruct L as [[ly lm] ld].
  rewrite <- HB, <- HA. clear.
  rewrite <- andb_true_iff.
  destruct (Before _ _ && After _ _); tauto.
Qed.

Lemma days_of_month y m d :
  1 <= m <= 12 -> dateToDays y m d = dateToDays y m 1 + (d - 1).
Proof.
  intros Hm. unfold dateToDays.
  replace ((m - 1) / 12) with 0 by (Z.div_mod_to_equations; lia).
  replace ((m - 1) mod 12 + 1) with m by (Z.div_mod_to_equations; lia).
  cbv zeta. lia.
Qed.

Lemma today_in_month t :
  days (civil t) = dateToDays (Year t) (Month t) 1 + (Day t - 1)
  /\ 1 <= Day t <= daysIn (Month t) (Year t).
Proof.
  unfold Year, Month, Day, civil.
  pose proof (civilOfDays_spec (wallNano t / nsPerDay)) as H.
  destruct (civilOfDays (wallNano t / nsPerDay)) as [[y m] d].
  cbn [fst snd days]. destruct H as [[Hm Hd] E].
  rewrite (days_of_month y m d Hm). lia.
Qed.

(** X4. The month length that [checkReset] computes as the day before
    the first of the next month is the length of the current month, leap
    years and December included, and the reset day is the start day cut
    down to it. *)
Theorem reset_day_is_clamped_start_day Local t c :
  lastDayOfMonth Local t = daysIn (Month t) (Year t)
  /\ 28 <= lastDayOfMonth Local t <= 31
  /\ resetDayOf Local t c = Z.min (StartDay c) (daysIn (Month t) (Year t)).
Proof.
  rewrite lastDayOfMonth_daysIn, resetDayOf_min.
  pose proof (daysIn_range (Year t) (Month t) (Month_range t)). tauto.
Qed.

(** X5. What [checkReset] computes, on calendar dates, for a start day
    of at least one: true when the recorded date cannot be read;
    otherwise true exactly when the recorded date is before the reset
    date of the current month (or on it, on a host west of UTC) and the
    clock is past the midnight that begins the reset date. *)
Theorem checkReset_on_calendar_dates Local instant c :
  -86400 < Local < 86400 -> 1 <= StartDay c ->
  checkReset Local instant c = true <-> checkResetSpec Local instant c.
Proof. exact (checkReset_spec Local instant c). Qed.

Lemma checkReset_on_calendar_dates_witness :
  let t := unixNano (Date 2024 2 10 9 0 0 0 3600) in
  let c := sampleConfig 0 0 "2024-01-05" "telegram" false false in
  checkReset 3600 t c = true <-> checkResetSpec 3600 t c.
Proof.
  apply checkReset_on_calendar_dates.
  - lia.
  - cbn. lia.
Defined.

(** X6. Before the reset date of the current month [checkReset] is
    false whenever the recorded date can be read, however old that date
    is: a cycle that was due in an earlier month is not closed until the
    reset date of the current month has begun. *)
Theorem checkReset_waits_for_the_reset_date Local instant c L :
  -86400 < Local < 86400 -> 1 <= StartDay c ->
  parseFields (LastReset (cStatistics c)) = Some L ->
  dateLt (civil (Now Local instant)) (resetCivil (Now Local instant) c) ->
  checkReset Local instant c = false.
Proof.
  intros Hl Hs EL Hlt.
  destruct (checkReset Local instant c) eqn:E; [|reflexivity].
  apply (checkReset_spec Local instant c Hl Hs) in E.
  unfold checkResetSpec in E. rewrite EL in E.
  destruct E as [_ [H|[H _]]].
  - exfalso. exact (dateLt_asym _ _ H Hlt).
  - rewrite H in Hlt. exfalso. exact (dateLt_irrefl _ Hlt).
Qed.

Lemma checkReset_waits_for_the_reset_date_witness :
  checkReset 3600 (unixNano (Date 2024 3 4 23 0 0 0 3600))
    (sampleConfig 0 0 "2023-11-05" "telegram" false false) = false.
Proof.
  apply (checkReset_waits_for_the_reset_date 3600 _ _ (2023, 11, 5)).
  - lia.
  - cbn. lia.
  - reflexivity.
  - cbv -[Z.lt]. lia.
Defined.

(** X7. A start day of zero or less (a configuration file without the
    field gives zero) puts the reset date before the first of the
    current month, by one day for zero. The clock is then always past
    it, and [checkReset] is true exactly when the recorded date is more
    than [1 - StartDay] days before the first of the current month (or
    exactly that many, on a host west of UTC). *)
Theorem checkReset_without_start_day Local instant c L :
  -86400 < Local < 86400 -> StartDay c <= 0 ->
  parseFields (LastReset (cStatistics c)) = Some L ->
  let now := Now Local instant in
  let first := dateToDays (Year now) (Month now) 1 in
  checkReset Local instant c = true
  <-> (days L < first - (1 - StartDay c)
       \/ (days L = first - (1 - StartDay c) /\ Local < 0)).
Proof.
  intros Hl Hs EL now first.
  rewrite (checkReset_days Local instant c Hl), EL.
  fold now. unfold resetCivil. cbn [days].
  pose proof (Month_range now) as Hm.
  pose proof (daysIn_range (Year now) (Month now) Hm) as Hd.
  rewrite (days_of_month (Year now) (Month now) _ Hm). fold first.
  destruct (today_in_month now) as [-> Hday]. fold first.
  replace (Z.min (StartDay c) (daysIn (Month now) (Year now))) with (StartDay c)
    by lia.
  split.
  - intros [H _]. lia.
  - intros H. split; [lia|]. left. lia.
Qed.

Lemma checkReset_without_start_day_witness :
  checkReset 3600 (unixNano (Date 2024 3 1 0 10 0 0 3600))
    (mkConfig "host" "eth0" 600 0 (mkStatistics 0 0 0 0 "2024-02-10")
       sampleComparison (sampleMessage "telegram" false false)) = true.
Proof.
  refine (proj2 (checkReset_without_start_day 3600 _ _ (2024, 2, 10) _ _ _) _).
  - lia.
  - cbn. lia.
  - reflexivity.
  - left. vm_compute. reflexivity.
Defined.

Lemma checkReset_recorded Local t1 t2 c :
  -86400 < Local < 86400 -> 1 <= StartDay c ->
  0 <= Year (Now Local t1) <= 9999 ->
  LastReset (cStatistics c) = FormatDate (Now Local t1) ->
  checkReset Local t2 c = true
  <-> (dateLt (civil (Now Local t1)) (resetCivil (Now Local t2) c)
       \/ (civil (Now Local t1) = resetCivil (Now Local t2) c /\ Local < 0))
      /\ (dateLt (resetCivil (Now Local t2) c) (civil (Now Local t2))
          \/ (resetCivil (Now Local t2) c = civil (Now Local t2)
              /\ 0 < nanoOfDay (Now Local t2))).
Proof.
  intros Hl Hs Hy EL.
  rewrite (checkReset_spec Local t2 c Hl Hs). unfold checkResetSpec.
  rewrite EL, (parseFields_FormatDate _ Hy). reflexivity.
Qed.

Lemma resetCivil_closed Local instant t c :
  resetCivil t (closedConfig Local instant c) = resetCivil t c.
Proof.
  unfold resetCivil.
  destruct (closedConfig_fields Local instant c) as (_ & _ & _ & _ & _ & -> & _).
  reflexivity.
Qed.

(** X8. What is written at the close is what the next check reads.
    After [resetStatistics] at instant [t1], [checkReset] at [t2] is true
    exactly when the day of the close is before the reset date of the
    month of [t2] (or on it, on a host west of UTC) and the clock at [t2]
    is past the midnight that begins that reset date. *)
Theorem checkReset_after_a_close Local t1 t2 w :
  -86400 < Local < 86400 -> 1 <= StartDay (config w) ->
  0 <= Year (Now Local t1) <= 9999 ->
  let R := resetCivil (Now Local t2) (config w) in
  checkReset Local t2 (config (worldAfter (resetStatistics Local t1) w)) = true
  <-> (dateLt (civil (Now Local t1)) R
       \/ (civil (Now Local t1) = R /\ Local < 0))
      /\ (dateLt R (civil (Now Local t2))
          \/ (R = civil (Now Local t2) /\ 0 < nanoOfDay (Now Local t2))).
Proof.
  intros Hl Hs Hy R. rewrite resetStatistics_config.
  destruct (closedConfig_fields Local t1 (config w))
    as (_ & _ & _ & _ & EL & ES & _).
  rewrite <- ES in Hs.
  rewrite (checkReset_recorded Local t1 t2 _ Hl Hs Hy EL).
  rewrite resetCivil_closed. reflexivity.
Qed.

Lemma checkReset_after_a_close_witness :
  checkReset 3600 (unixNano (Date 2024 3 5 0 10 0 0 3600))
    (config
       (worldAfter (resetStatistics 3600 (unixNano (Date 2024 2 5 0 10 0 0 3600)))
          scenarioWorld)) = true.
Proof.
  refine (proj2 (checkReset_after_a_close 3600 _ _ scenarioWorld _ _ _) _).
  - lia.
  - cbn. lia.
  - vm_compute. split; discriminate.
  - cbv -[Z.lt]. split; [left; lia | right; split; [reflexivity | lia]].
Defined.

(** X9. East of UTC or on it, a cycle closed on or after the reset
    date of its month is not closed again in that month: [checkReset]
    is false at every instant of the same month. *)
Theorem no_second_close_in_the_month Local t1 t2 w :
  0 <= Local < 86400 -> 1 <= StartDay (config w) ->
  0 <= Year (Now Local t1) <= 9999 ->
  Year (Now Local t2) = Year (Now Local t1) ->
  Month (Now Local t2) = Month (Now Local t1) ->
  ~ dateLt (civil (Now Local t1)) (resetCivil (Now Local t1) (config w)) ->
  checkReset Local t2 (config (worldAfter (resetStatistics Local t1) w)) = false.
Proof.
  intros Hl Hs Hy EY EM Hn.
  destruct (checkReset Local t2 _) eqn:E; [|reflexivity].
  rewrite resetStatistics_config in E.
  destruct (closedConfig_fields Local t1 (config w))
    as (_ & _ & _ & _ & EL & ES & _).
  assert (Hl' : -86400 < Local < 86400) by lia.
  assert (Hs' : 1 <= StartDay (closedConfig Local t1 (config w)))
    by (rewrite ES; exact Hs).
  apply (checkReset_recorded Local t1 t2 _ Hl' Hs' Hy EL) in E.
  rewrite resetCivil_closed in E.
  assert (ER : resetCivil (Now Local t2) (config w)
               = resetCivil (Now Local t1) (config w))
    by (unfold resetCivil; rewrite EY, EM; reflexivity).
  rewrite ER in E. destruct E as [[H|[_ H]] _]; [contradiction|lia].
Qed.

Lemma no_second_close_in_the_month_witness :
  checkReset 3600 (unixNano (Date 2024 2 29 23 0 0 0 3600))
    (config
       (worldAfter (resetStatistics 3600 (unixNano (Date 2024 2 7 9 0 0 0 3600)))
          scenarioWorld)) = false.
Proof.
  apply no_second_close_in_the_month.
  - lia.
  - cbn. lia.
  - vm_compute. split; discriminate.
  - reflexivity.
  - reflexivity.
  - cbv -[Z.lt]. lia.
Defined.

(** X26. At the very instant of the midnight that begins the reset
    date [checkReset] is false, whatever the recorded date: the clock has
    to be past that midnight. *)
Theorem reset_date_midnight_is_not_yet_due Local instant c L :
  -86400 < Local < 86400 -> 1 <= StartDay c ->
  parseFields (LastReset (cStatistics c)) = Some L ->
  civil (Now Local instant) = resetCivil (Now Local instant) c ->
  nanoOfDay (Now Local instant) = 0 ->
  checkReset Local instant c = false.
Proof. exact (checkReset_at_midnight Local instant c L). Qed.

Lemma reset_date_midnight_is_not_yet_due_witness :
  checkReset 3600 (unixNano (Date 2024 2 5 0 0 0 0 3600))
    (sampleConfig 0 0 "2024-01-05" "telegram" false false) = false.
Proof.
  apply (reset_date_midnight_is_not_yet_due 3600 _ _ (2024, 1, 5)).
  - lia.
  - cbn. lia.
  - reflexivity.
  - vm_compute. reflexivity.
  - vm_compute. reflexivity.
Defined.

(** X27. West of UTC a cycle closed on the reset date is closed again
    at every later check of that day: the date written at the close is
    read back as a midnight of UTC, which is before the local midnight
    that begins the reset date. *)
Theorem west_of_UTC_the_reset_date_closes_again Local t1 t2 w :
  -86400 < Local < 0 -> 1 <= StartDay (config w) ->
  0 <= Year (Now Local t1) <= 9999 ->
  civil (Now Local t2) = civil (Now Local t1) ->
  civil (Now Local t2) = resetCivil (Now Local t2) (config w) ->
  0 < nanoOfDay (Now Local t2) ->
  checkReset Local t2 (config (worldAfter (resetStatistics Local t1) w)) = true.
Proof. exact (checkReset_after_close_west Local t1 t2 w). Qed.

Lemma west_of_UTC_the_reset_date_closes_again_witness :
  checkReset (-18000) (unixNano (Date 2024 2 5 12 10 0 0 (-18000)))
    (config
       (worldAfter
          (resetStatistics (-18000) (unixNano (Date 2024 2 5 12 0 0 0 (-18000))))
          scenarioWorld)) = true.
Proof.
  apply west_of_UTC_the_reset_date_closes_again.
  - lia.
  - cbn. lia.
  - vm_compute. split; discriminate.
  - vm_compute. reflexivity.
  - vm_compute. reflexivity.
  - vm_compute. reflexivity.
Defined.

End ResetDate.

(** ** More on the close of a cycle and on the alerts *)

Section Closing.

Import GoTime.

(** X10. [resetStatistics] sends the summary first, once, with the
    totals as they stand before they are zeroed; it then attempts one
    write, of the closed configuration; it never sleeps and never runs a
    command. *)
Theorem close_reports_then_saves Local instant w :
  let evs := events (resetStatistics Local instant) w in
  let s := cStatistics (config w) in
  (exists e rest,
      evs = e :: rest
      /\ summaryFigures e
         = Some (inGB (TotalReceive s), inGB (TotalTransmit s),
                 (inGB (TotalReceive s) + inGB (TotalTransmit s))%float)
      /\ existsb isSend rest = false)
  /\ (exists r,
         filter isSave evs = [EvSave (closedConfig Local instant (config w)) r])
  /\ existsb isShutdown evs = false
  /\ existsb isSleep evs = false.
Proof.
  intros evs s. subst evs s.
  unfold resetStatistics, sendStatisticsSummary.
  mcases w;
    (split;
     [eexists; eexists; split; [reflexivity|split; reflexivity]
     |split; [eexists; reflexivity|split; reflexivity]]).
Qed.

Lemma digit_digitVal c : isDigit c = true -> digit (digitVal c) = c.
Proof.
  destruct c as [[] [] [] [] [] [] [] []]; intros H; try discriminate H;
    reflexivity.
Qed.

Lemma digitVal_range c : isDigit c = true -> 0 <= digitVal c <= 9.
Proof.
  unfold isDigit, digitVal. rewrite andb_true_iff, !Z.leb_le. lia.
Qed.

Lemma format_parseFields s y m d :
  parseFields s = Some (y, m, d) ->
  (appendInt y 4 ++ "-" ++ appendInt m 2 ++ "-" ++ appendInt d 2)%string = s.
Proof.
  unfold parseFields.
  destruct s as [|y1 [|y2 [|y3 [|y4 [|s1 [|m1 [|m2 [|s2 [|d1 [|d2 [|]]]]]]]]]]];
    try discriminate.
  destruct (isDigit y1) eqn:Ey1; [|discriminate].
  destruct (isDigit y2) eqn:Ey2; [|discriminate].
  destruct (isDigit y3) eqn:Ey3; [|discriminate].
  destruct (isDigit y4) eqn:Ey4; [|discriminate].
  destruct (Ascii.eqb s1 "-") eqn:Es1; [|discriminate].
  destruct (isDigit m1) eqn:Em1; [|discriminate].
  destruct (isDigit m2) eqn:Em2; [|discriminate].
  destruct (Ascii.eqb s2 "-") eqn:Es2; [|discriminate].
  destruct (isDigit d1) eqn:Ed1; [|discriminate].
  destruct (isDigit d2) eqn:Ed2; [|discriminate].
  cbn [andb]. cbv zeta.
  destruct (_ || _); [discriminate|].
  destruct (_ || _); [discriminate|].
  intros E. injection E as <- <- <-.
  apply Ascii.eqb_eq in Es1, Es2. subst s1 s2.
  pose proof (digitVal_range _ Ey1). pose proof (digitVal_range _ Ey2).
  pose proof (digitVal_range _ Ey3). pose proof (digitVal_range _ Ey4).
  pose proof (digitVal_range _ Em1). pose proof (digitVal_range _ Em2).
  pose proof (digitVal_range _ Ed1). pose proof (digitVal_range _ Ed2).
  rewrite appendInt_4, !appendInt_2 by lia.
  replace ((digitVal y1 * 1000 + digitVal y2 * 100 + digitVal y3 * 10
            + digitVal y4) / 1000) with (digitVal y1)
    by (Z.div_mod_to_equations; lia).
  replace ((digitVal y1 * 1000 + digitVal y2 * 100 + digitVal y3 * 10
            + digitVal y4) / 100 mod 10) with (digitVal y2)
    by (Z.div_mod_to_equations; lia).
  replace ((digitVal y1 * 1000 + digitVal y2 * 100 + digitVal y3 * 10
            + digitVal y4) / 10 mod 10) with (digitVal y3)
    by (Z.div_mod_to_equations; lia).
  replace ((digitVal y1 * 1000 + digitVal y2 * 100 + digitVal y3 * 10
            + digitVal y4) mod 10) with (digitVal y4)
    by (Z.div_mod_to_equations; lia).
  replace ((digitVal m1 * 10 + digitVal m2) / 10) with (digitVal m1)
    by (Z.div_mod_to_equations; lia).
  replace ((digitVal m1 * 10 + digitVal m2) mod 10) with (digitVal m2)
    by (Z.div_mod_to_equations; lia).
  replace ((digitVal d1 * 10 + digitVal d2) / 10) with (digitVal d1)
    by (Z.div_mod_to_equations; lia).
  replace ((digitVal d1 * 10 + digitVal d2) mod 10) with (digitVal d2)
    by (Z.div_mod_to_equations; lia).
  rewrite !digit_digitVal by assumption. reflexivity.
Qed.

Lemma FormatDate_ParseDate s t : ParseDate s = Some t -> FormatDate t = s.
Proof.
  unfold ParseDate.
  destruct (parseFields s) as [[[y m] d]|] eqn:E; [|discriminate].
  intros H. injection H as <-.
  pose proof (parseFields_valid _ _ E) as Hv. cbn in Hv.
  unfold FormatDate, Year, Month, Day.
  destruct (civil_midnight y m d UTC) as [-> _].
  rewrite (civilOfDays_dateToDays y m d Hv). cbn [fst snd].
  exact (format_parseFields s y m d E).
Qed.

(** X11. The date that the summary names is the recorded date of the
    last close, as it is written in the configuration, when that date
    can be read; when it cannot, the summary names the first day of the
    year one. *)
Theorem summary_names_the_recorded_date w :
  exists e rest,
    events sendStatisticsSummary w = e :: rest
    /\ summarySince e
       = Some (match parseFields (LastReset (cStatistics (config w))) with
               | Some _ => LastReset (cStatistics (config w))
               | None => "0001-01-01"%string
               end).
Proof.
  assert (E : FormatDate
                match ParseDate (LastReset (cStatistics (config w))) with
                | Some t => t
                | None => Date 1 1 1 0 0 0 0 UTC
                end
              = match parseFields (LastReset (cStatistics (config w))) with
                | Some _ => LastReset (cStatistics (config w))
                | None => "0001-01-01"%string
                end).
  { destruct (ParseDate (LastReset (cStatistics (config w)))) as [t|] eqn:P.
    - rewrite (FormatDate_ParseDate _ _ P). unfold ParseDate in P.
      destruct (parseFields _); [reflexivity|discriminate].
    - unfold ParseDate in P.
      destruct (parseFields _) as [[[y m] d]|]; [discriminate|].
      vm_compute. reflexivity. }
  rewrite <- E. clear E. unfold sendStatisticsSummary.
  mcases w; (eexists; eexists; split; reflexivity).
Qed.

End Closing.

(** ** More on the alerts *)

Ltac mfacts :=
  cbn [deliveredThresholdSend deliveredRatioSend isSave isSend existsb filter
       orb andb negb List.length];
  finish.

Section Delivery.

Lemma thresholdCheck_delivery v ts w :
  let evs := events (thresholdCheck v ts) w in
  let w' := worldAfter (thresholdCheck v ts) w in
  existsb deliveredRatioSend evs = false
  /\ (existsb deliveredThresholdSend evs = true ->
      config w' = markThreshold (config w) /\ knownService (config w) = true)
  /\ (existsb deliveredThresholdSend evs = false -> config w' = config w).
Proof. intros evs w'. subst evs w'. destruct ts; mcases w; mfacts. Qed.

Lemma ratioCheck_delivery v rs w :
  let evs := events (ratioCheck v rs) w in
  let w' := worldAfter (ratioCheck v rs) w in
  existsb deliveredThresholdSend evs = false
  /\ existsb isShutdown evs = existsb deliveredRatioSend evs
  /\ existsb isSleep evs = existsb deliveredRatioSend evs
  /\ (List.length (filter isShutdown evs) <= 1)%nat
  /\ (existsb deliveredRatioSend evs = true ->
      config w' = markRatio (config w) /\ knownService (config w) = true)
  /\ (existsb deliveredRatioSend evs = false -> config w' = config w).
Proof.
  intros evs w'. subst evs w'.
  destruct rs; mcases w; cbn [filter isShutdown List.length]; mfacts.
Qed.

Lemma mark_known c :
  knownService c = true ->
  thresholdStatusOf (markThreshold c) = true
  /\ ratioStatusOf (markRatio c) = true.
Proof.
  unfold knownService, thresholdStatusOf, ratioStatusOf, markThreshold, markRatio.
  destruct (String.eqb (Service (cMessage c)) "telegram") eqn:Et;
    [|destruct (String.eqb (Service (cMessage c)) "gotify") eqn:Eg];
    cbn [cMessage updMessage updTelegram updGotify Service Telegram Gotify
         TgThresholdStatus TgRatioStatus GoThresholdStatus GoRatioStatus
         setTgThresholdStatus setTgRatioStatus setGoThresholdStatus
         setGoRatioStatus orb];
    rewrite ?Et, ?Eg; finish.
Qed.

Lemma bothChecks_delivery v w :
  let evs := events (bothChecks v) w in
  let c := config w in
  let c' := config (worldAfter (bothChecks v) w) in
  existsb isShutdown evs = existsb deliveredRatioSend evs
  /\ existsb isSleep evs = existsb deliveredRatioSend evs
  /\ (List.length (filter isShutdown evs) <= 1)%nat
  /\ thresholdStatusOf c'
     = thresholdStatusOf c || existsb deliveredThresholdSend evs
  /\ ratioStatusOf c' = ratioStatusOf c || existsb deliveredRatioSend evs.
Proof.
  intros evs c c'. subst evs c'.
  destruct (bothChecks_run v w) as (-> & -> & _). fold c.
  destruct (thresholdCheck_props v (thresholdStatusOf c) w)
    as (_ & _ & _ & Ts & Tz & _).
  destruct (thresholdCheck_delivery v (thresholdStatusOf c) w)
    as (Tr & Td & Tn).
  fold c in Td, Tn.
  set (w1 := worldAfter (thresholdCheck v (thresholdStatusOf c)) w) in *.
  set (e1 := events (thresholdCheck v (thresholdStatusOf c)) w) in *.
  destruct (ratioCheck_delivery v (ratioStatusOf c) w1)
    as (Rt & Rs & Rz & Rl & Rd & Rn).
  set (w2 := worldAfter (ratioCheck v (ratioStatusOf c)) w1) in *.
  set (e2 := events (ratioCheck v (ratioStatusOf c)) w1) in *.
  rewrite !existsb_app, filter_app, List.length_app, Ts, Tz, Tr, Rt, Rs, Rz.
  rewrite orb_false_r. cbn [orb].
  assert (E0 : filter isShutdown e1 = []).
  { clear - Ts. induction e1 as [|e l IH]; [reflexivity|].
    cbn in Ts |- *. destruct (isShutdown e); [discriminate|]. apply IH, Ts. }
  rewrite E0. cbn [List.length Nat.add].
  pose proof (mark_facts c) as Fc. pose proof (mark_facts (config w1)) as F1.
  destruct Fc as (A1 & A2 & A3 & A4 & _), F1 as (B1 & B2 & B3 & B4 & _).
  repeat split; try assumption.
  - destruct (existsb deliveredThresholdSend e1) eqn:D1,
             (existsb deliveredRatioSend e2) eqn:D2.
    + destruct (Rd eq_refl) as [-> _]. rewrite B3.
      destruct (Td eq_refl) as [-> K]. rewrite orb_true_r.
      apply (mark_known c K).
    + rewrite (Rn eq_refl).
      destruct (Td eq_refl) as [-> K]. rewrite orb_true_r.
      apply (mark_known c K).
    + destruct (Rd eq_refl) as [-> _]. rewrite B3, (Tn eq_refl), orb_false_r.
      reflexivity.
    + rewrite (Rn eq_refl), (Tn eq_refl), orb_false_r. reflexivity.
  - destruct (existsb deliveredThresholdSend e1) eqn:D1,
             (existsb deliveredRatioSend e2) eqn:D2.
    + destruct (Rd eq_refl) as [-> K]. rewrite orb_true_r.
      apply (mark_known _ K).
    + rewrite (Rn eq_refl). destruct (Td eq_refl) as [-> K].
      rewrite A2, orb_false_r. reflexivity.
    + destruct (Rd eq_refl) as [-> K]. rewrite orb_true_r.
      apply (mark_known _ K).
    + rewrite (Rn eq_refl), (Tn eq_refl), orb_false_r. reflexivity.
Qed.

(** X12. [performComparison] runs the shutdown command exactly when the
    shutdown warning has been delivered, sleeps exactly then, and runs
    the command at most once. *)
Theorem shutdown_only_after_a_delivered_warning w :
  let evs := events performComparison w in
  existsb isShutdown evs = existsb deliveredRatioSend evs
  /\ existsb isSleep evs = existsb deliveredRatioSend evs
  /\ (List.length (filter isShutdown evs) <= 1)%nat.
Proof.
  intros evs. subst evs.
  destruct (usageInGB (config w)) as [v|] eqn:U.
  - destruct (performComparison_valid w v U) as (_ & -> & _).
    destruct (bothChecks_delivery v w) as (A & B & C & _). auto.
  - unfold events. rewrite (performComparison_invalid w U). cbn. auto.
Qed.

(** X13. After [performComparison] a flag of the configured service is
    set exactly when it was set before or its notice has been delivered
    in this call, whether or not the configuration could then be
    written. *)
Theorem flag_is_set_by_a_delivered_notice w :
  let evs := events performComparison w in
  let c := config w in
  let c' := config (worldAfter performComparison w) in
  thresholdStatusOf c'
  = thresholdStatusOf c || existsb deliveredThresholdSend evs
  /\ ratioStatusOf c' = ratioStatusOf c || existsb deliveredRatioSend evs.
Proof.
  intros evs c c'. subst evs c c'.
  destruct (usageInGB (config w)) as [v|] eqn:U.
  - destruct (performComparison_valid w v U) as (-> & -> & _).
    destruct (bothChecks_delivery v w) as (_ & _ & _ & A & B). auto.
  - unfold events, worldAfter. rewrite (performComparison_invalid w U).
    cbn. rewrite !orb_false_r. auto.
Qed.

Lemma thresholdCheck_rest v ts w :
  float_ge v (thresholdLimitOf (config w)) = false \/ ts = true ->
  thresholdCheck v ts w = (tt, w, []).
Proof.
  intros H. unfold thresholdCheck, bind, getConfig.
  destruct H as [-> | ->]; rewrite ?andb_false_r; reflexivity.
Qed.

Lemma ratioCheck_rest v rs w :
  float_ge v (ratioLimitOf (config w)) = false \/ rs = true ->
  ratioCheck v rs w = (tt, w, []).
Proof.
  intros H. unfold ratioCheck, bind, getConfig.
  destruct H as [-> | ->]; rewrite ?andb_false_r; reflexivity.
Qed.

(** X14. A check is skipped when the usage is below its limit or its
    flag is set; when both are skipped [performComparison] sends
    nothing, writes nothing and leaves the world as it is. *)
Theorem performComparison_at_rest w v :
  usageInGB (config w) = Some v ->
  float_ge v (thresholdLimitOf (config w)) = false
  \/ thresholdStatusOf (config w) = true ->
  float_ge v (ratioLimitOf (config w)) = false
  \/ ratioStatusOf (config w) = true ->
  performComparison w = (None, w, []).
Proof.
  intros U Ht Hr. rewrite (performComparison_checks w v U).
  unfold bothChecks, bind.
  rewrite (thresholdCheck_rest v _ w Ht), (ratioCheck_rest v _ w Hr).
  reflexivity.
Qed.

Lemma performComparison_at_rest_witness :
  performComparison strayWorld = (None, strayWorld, []).
Proof.
  apply (performComparison_at_rest strayWorld (inGB GB)).
  - reflexivity.
  - left. vm_compute. reflexivity.
  - left. vm_compute. reflexivity.
Defined.

End Delivery.

(** ** More on the loop *)

Section Loop.

Lemma sameSettings_refl c : sameSettings c c.
Proof. unfold sameSettings. tauto. Qed.

Lemma sameSettings_trans a b c :
  sameSettings a b -> sameSettings b c -> sameSettings a c.
Proof.
  unfold sameSettings.
  intros (A1 & A2 & A3 & A4 & A5 & A6 & A7 & A8 & A9 & A10)
         (B1 & B2 & B3 & B4 & B5 & B6 & B7 & B8 & B9 & B10).
  repeat split; congruence.
Qed.

Lemma mark_frame c :
  (cStatistics (markThreshold c) = cStatistics c
   /\ sameSettings c (markThreshold c)
   /\ keepsOtherService c (markThreshold c))
  /\ (cStatistics (markRatio c) = cStatistics c
      /\ sameSettings c (markRatio c)
      /\ keepsOtherService c (markRatio c)).
Proof.
  unfold markThreshold, markRatio, sameSettings, keepsOtherService.
  destruct (String.eqb_spec (Service (cMessage c)) "telegram") as [Et|Et];
    [|destruct (String.eqb_spec (Service (cMessage c)) "gotify") as [Eg|Eg]];
    cbn [cMessage updMessage updTelegram updGotify Service Telegram Gotify
         setTgThresholdStatus setTgRatioStatus setGoThresholdStatus
         setGoRatioStatus cComparison cStatistics StartDay Interval Device
         Interface Token ChatID URL AppToken];
    repeat split; intros; try reflexivity; try contradiction.
Qed.

Lemma closed_settings Local instant c :
  sameSettings c (closedConfig Local instant c).
Proof. unfold sameSettings, closedConfig. cbn. tauto. Qed.

Lemma performComparison_steps w :
  let c := config w in
  let c' := config (worldAfter performComparison w) in
  c' = c \/ c' = markThreshold c \/ c' = markRatio c
  \/ c' = markRatio (markThreshold c).
Proof.
  intros c c'. subst c'.
  destruct (usageInGB (config w)) as [v|] eqn:U.
  - destruct (performComparison_valid w v U) as (-> & _).
    destruct (bothChecks_run v w) as [-> _]. fold c.
    destruct (thresholdCheck_props v (thresholdStatusOf c) w) as [Ht _].
    fold c in Ht.
    set (w1 := worldAfter (thresholdCheck v (thresholdStatusOf c)) w) in *.
    destruct (ratioCheck_props v (ratioStatusOf c) w1) as [Hr _].
    destruct Hr as [-> | ->], Ht as [-> | ->]; tauto.
  - unfold worldAfter. rewrite (performComparison_invalid w U). cbn. tauto.
Qed.

Lemma mark_service c :
  Service (cMessage (markThreshold c)) = Service (cMessage c)
  /\ Service (cMessage (markRatio c)) = Service (cMessage c).
Proof.
  destruct (mark_frame c) as [(_ & A & _) (_ & B & _)].
  unfold sameSettings in A, B. tauto.
Qed.

Lemma performComparison_frame w :
  let c := config w in
  let c' := config (worldAfter performComparison w) in
  cStatistics c' = cStatistics c
  /\ sameSettings c c'
  /\ keepsOtherService c c'.
Proof.
  intros c c'. subst c'.
  destruct (mark_frame c) as [(A1 & A2 & A3) (B1 & B2 & B3)].
  destruct (mark_frame (markThreshold c)) as [_ (C1 & C2 & C3)].
  destruct (mark_service c) as [S1 _].
  destruct (performComparison_steps w) as [E|[E|[E|E]]]; fold c in E;
    rewrite E; clear E.
  - repeat split; auto using sameSettings_refl.
  - auto.
  - auto.
  - split; [congruence|]. split; [exact (sameSettings_trans _ _ _ A2 C2)|].
    unfold keepsOtherService in *. rewrite S1 in C3.
    split; intros H.
    + rewrite (proj1 C3 H). exact (proj1 A3 H).
    + rewrite (proj2 C3 H). exact (proj2 A3 H).
Qed.

(** X15. [performComparison] changes nothing but the two flags of the
    configured service: the statistics, the settings and the part of the
    message settings that belongs to the other service are as before. *)
Theorem performComparison_changes_flags_only w :
  let c := config w in
  let c' := config (worldAfter performComparison w) in
  cStatistics c' = cStatistics c
  /\ sameSettings c c'
  /\ keepsOtherService c c'.
Proof. exact (performComparison_frame w). Qed.

Lemma iteration_run Local t w :
  let w0 := closing Local t w in
  let e0 :=
    if checkReset Local (checkInstant t) (config w)
    then events (resetStatistics Local (resetInstant t)) w else [] in
  match sample t with
  | None =>
      worldAfter (iteration Local t) w = w0
      /\ events (iteration Local t) w
         = e0 ++ [EvPrint ErrorReadingStats; EvSleep (intervalOf (config w))]
  | Some stats =>
      let w1 := sampled stats w0 in
      let r := if answers w0 (asked w0) then None else Some ErrWriteFile in
      worldAfter (iteration Local t) w = worldAfter performComparison w1
      /\ events (iteration Local t) w
         = e0
           ++ EvSave (config w1) r
              :: match r with
                 | Some e => [EvPrint (FailedUpdateStats e)]
                 | None => []
                 end
              ++ events performComparison w1
              ++ match value performComparison w1 with
                 | Some e => [EvPrint (ComparisonError e)]
                 | None => []
                 end
              ++ [EvSleep (intervalOf (config w))]
  end.
Proof.
  intros w0 e0. subst w0 e0. unfold closing, iteration.
  cbv beta iota zeta delta
    [bind getConfig ret emit modifyConfig saveConfig ask worldAfter events
     value sampled].
  destruct (checkReset Local (checkInstant t) (config w)).
  - destruct (resetStatistics Local (resetInstant t) w) as [[u w0] e0].
    cbn [fst snd]. destruct (sample t) as [stats|].
    + cbn [config answers asked].
      destruct (answers w0 (asked w0));
        match goal with
        | |- context [performComparison ?w1] =>
            destruct (performComparison w1) as [[[e|] w2] e2]
        end; cbn [fst snd app]; rewrite ?app_nil_r; auto.
    + cbn [fst snd app]. auto.
  - destruct (sample t) as [stats|].
    + cbn [config answers asked].
      destruct (answers w (asked w));
        match goal with
        | |- context [performComparison ?w1] =>
            destruct (performComparison w1) as [[[e|] w2] e2]
        end; cbn [fst snd app]; rewrite ?app_nil_r; auto.
    + cbn [fst snd app]. auto.
Qed.

(** X16. When the counters cannot be read the iteration accumulates
    nothing: it leaves the world as the close left it, or untouched when
    no close was due, and after the events of the close it only prints
    the error and sleeps for the interval. *)
Theorem unreadable_counters_change_nothing Local t w :
  sample t = None ->
  worldAfter (iteration Local t) w = closing Local t w
  /\ events (iteration Local t) w
     = (if checkReset Local (checkInstant t) (config w)
        then events (resetStatistics Local (resetInstant t)) w else [])
       ++ [EvPrint ErrorReadingStats; EvSleep (intervalOf (config w))].
Proof.
  intros S. pose proof (iteration_run Local t w) as H. rewrite S in H.
  exact H.
Qed.

Lemma unreadable_counters_change_nothing_witness :
  worldAfter (iteration 0 (mkTick 1707555600000000000 1707555600000000000 None))
    scenarioWorld
  = closing 0 (mkTick 1707555600000000000 1707555600000000000 None)
      scenarioWorld.
Proof.
  apply unreadable_counters_change_nothing. reflexivity.
Defined.

Lemma iteration_statistics Local t w :
  cStatistics (config (worldAfter (iteration Local t) w))
  = match sample t with
    | Some stats => accumulate stats (cStatistics (config (closing Local t w)))
    | None => cStatistics (config (closing Local t w))
    end.
Proof.
  pose proof (iteration_run Local t w) as H.
  destruct (sample t) as [stats|].
  - destruct H as [-> _].
    destruct (performComparison_config (sampled stats (closing Local t w)))
      as (_ & _ & -> & _).
    reflexivity.
  - destruct H as [-> _]. reflexivity.
Qed.

Lemma closing_noReset Local t w :
  checkReset Local (checkInstant t) (config w) = false -> closing Local t w = w.
Proof. intros H. unfold closing. rewrite H. reflexivity. Qed.

(** X17. Over a run in which no cycle is closed the statistics at the
    end are the accumulation, from the statistics at the start, of the
    samples that could be read: failed reads are skipped, and no notice,
    write or command has any effect on the statistics. *)
Theorem run_accumulates_the_samples Local ticks : forall w,
  noReset Local ticks w ->
  cStatistics (config (run Local ticks w))
  = accumulateAll (samplesOf ticks) (cStatistics (config w)).
Proof.
  induction ticks as [|t ticks IH]; intros w H; [reflexivity|].
  destruct H as [H0 H].
  cbn [run]. rewrite (IH _ H), iteration_statistics, (closing_noReset _ _ _ H0).
  unfold samplesOf, accumulateAll. cbn [flat_map].
  destruct (sample t) as [stats|]; reflexivity.
Qed.

Lemma run_accumulates_the_samples_witness :
  cStatistics (config (run 0 scenarioTicks scenarioWorld))
  = accumulateAll (samplesOf scenarioTicks) (cStatistics (config scenarioWorld)).
Proof.
  apply run_accumulates_the_samples. vm_compute. repeat split.
Defined.

(** X18. On an iteration that closes the cycle the sample is
    accumulated after the close: the new cycle starts with what the
    counters gained since the previous sample (the sample itself when it
    is below the last value seen), and the last values become those of
    the sample. *)
Theorem closing_tick_counts_the_sample_in_the_new_cycle Local t w stats :
  checkReset Local (checkInstant t) (config w) = true ->
  sample t = Some stats ->
  let s := cStatistics (config w) in
  let s' := cStatistics (config (worldAfter (iteration Local t) w)) in
  TotalReceive s' = U64.wrap (increment (LastReceive s) (ReceiveBytes stats))
  /\ TotalTransmit s'
     = U64.wrap (increment (LastTransmit s) (TransmitBytes stats))
  /\ LastReceive s' = ReceiveBytes stats
  /\ LastTransmit s' = TransmitBytes stats
  /\ LastReset s' = GoTime.FormatDate (GoTime.Now Local (resetInstant t)).
Proof.
  intros H S s s'. subst s'. rewrite iteration_statistics, S.
  unfold closing. rewrite H, resetStatistics_config.
  destruct (closedConfig_fields Local (resetInstant t) (config w))
    as (A & B & C & D & E & _).
  destruct (increment_step stats
              (cStatistics (closedConfig Local (resetInstant t) (config w))))
    as [-> ->].
  rewrite A, B, C, D, LastReceive_accumulate, LastTransmit_accumulate,
    LastReset_accumulate, E.
  cbn [Z.add]. auto.
Qed.

Lemma closing_tick_counts_the_sample_in_the_new_cycle_witness :
  let t := GoTime.unixNano (GoTime.Date 2024 3 5 9 0 0 0 0) in
  TotalReceive
    (cStatistics
       (config
          (worldAfter (iteration 0 (mkTick t t (Some (mkNetStats 1500 2000))))
             scenarioWorld)))
  = U64.wrap (increment 1000 1500).
Proof.
  intros t.
  refine (proj1 (closing_tick_counts_the_sample_in_the_new_cycle 0
                   (mkTick t t (Some (mkNetStats 1500 2000))) scenarioWorld
                   (mkNetStats 1500 2000) _ _)).
  - vm_compute. reflexivity.
  - reflexivity.
Defined.

Lemma lastSaved_from evs : forall acc,
  fold_left (fun acc e => match e with EvSave c _ => Some c | _ => acc end)
    evs acc
  = match lastSaved evs with Some c => Some c | None => acc end.
Proof.
  unfold lastSaved.
  induction evs as [|e evs IH]; intros acc; [reflexivity|].
  cbn [fold_left]. rewrite IH. rewrite (IH (match e with EvSave c _ => Some c | _ => None end)).
  destruct (fold_left _ evs None); [reflexivity|]. destruct e; reflexivity.
Qed.

Lemma lastSaved_app a b :
  lastSaved (a ++ b)
  = match lastSaved b with Some c => Some c | None => lastSaved a end.
Proof.
  unfold lastSaved at 1. rewrite fold_left_app.
  fold (lastSaved a). apply lastSaved_from.
Qed.

Lemma writtenBack_app e1 e2 a b c :
  writtenBack e1 a b -> writtenBack e2 b c -> writtenBack (e1 ++ e2) a c.
Proof.
  unfold writtenBack. rewrite lastSaved_app.
  destruct (lastSaved e2); [auto|]. intros H ->. exact H.
Qed.

Lemma writtenBack_none evs c :
  lastSaved evs = None -> writtenBack evs c c.
Proof. unfold writtenBack. intros ->. reflexivity. Qed.

Lemma resetStatistics_writtenBack Local instant w :
  writtenBack (events (resetStatistics Local instant) w) (config w)
    (config (worldAfter (resetStatistics Local instant) w)).
Proof.
  unfold writtenBack, lastSaved, resetStatistics, sendStatisticsSummary.
  mcases w; reflexivity.
Qed.

Lemma thresholdCheck_writtenBack v ts w :
  writtenBack (events (thresholdCheck v ts) w) (config w)
    (config (worldAfter (thresholdCheck v ts) w)).
Proof. unfold writtenBack, lastSaved. destruct ts; mcases w; reflexivity. Qed.

Lemma ratioCheck_writtenBack v rs w :
  writtenBack (events (ratioCheck v rs) w) (config w)
    (config (worldAfter (ratioCheck v rs) w)).
Proof. unfold writtenBack, lastSaved. destruct rs; mcases w; reflexivity. Qed.

Lemma performComparison_writtenBack w :
  writtenBack (events performComparison w) (config w)
    (config (worldAfter performComparison w)).
Proof.
  destruct (usageInGB (config w)) as [v|] eqn:U.
  - destruct (performComparison_valid w v U) as (-> & -> & _).
    destruct (bothChecks_run v w) as (-> & -> & _).
    eapply writtenBack_app.
    + apply thresholdCheck_writtenBack.
    + apply ratioCheck_writtenBack.
  - unfold events, worldAfter. rewrite (performComparison_invalid w U).
    reflexivity.
Qed.

(** X19. Every change that an iteration makes to the configuration in
    memory is followed by an attempt to write it to the file: the last
    write of the iteration is of the configuration it ends with, and an
    iteration without a write leaves the configuration as it was. *)
Theorem iteration_writes_back_what_it_changes Local t w :
  writtenBack (events (iteration Local t) w) (config w)
    (config (worldAfter (iteration Local t) w)).
Proof.
  pose proof (iteration_run Local t w) as H.
  assert (H0 : writtenBack
                 (if checkReset Local (checkInstant t) (config w)
                  then events (resetStatistics Local (resetInstant t)) w
                  else [])
                 (config w) (config (closing Local t w))).
  { unfold closing. destruct (checkReset _ _ _).
    - apply resetStatistics_writtenBack.
    - reflexivity. }
  destruct (sample t) as [stats|].
  - destruct H as [-> ->].
    eapply writtenBack_app; [exact H0|].
    set (w1 := sampled stats (closing Local t w)).
    apply (writtenBack_app [EvSave (config w1) _] _ _ (config w1));
      [reflexivity|].
    apply (writtenBack_app _ _ _ (config w1));
      [destruct (answers _ _); reflexivity|].
    eapply writtenBack_app; [apply performComparison_writtenBack|].
    apply writtenBack_none.
    destruct (value performComparison w1); reflexivity.
  - destruct H as [-> ->].
    eapply writtenBack_app; [exact H0|]. reflexivity.
Qed.

Lemma iteration_settings Local t w :
  sameSettings (config w) (config (worldAfter (iteration Local t) w)).
Proof.
  pose proof (iteration_run Local t w) as H.
  assert (H0 : sameSettings (config w) (config (closing Local t w))).
  { unfold closing. destruct (checkReset _ _ _).
    - rewrite resetStatistics_config. apply closed_settings.
    - apply sameSettings_refl. }
  destruct (sample t) as [stats|].
  - destruct H as [-> _].
    eapply sameSettings_trans; [exact H0|].
    eapply sameSettings_trans;
      [|apply (performComparison_frame
                 (sampled stats (closing Local t w)))].
    unfold sameSettings, sampled. cbn. tauto.
  - destruct H as [-> _]. exact H0.
Qed.

Lemma no_sleep_sleepsFor i evs :
  existsb isSleep evs = false -> Forall (sleepsFor i) evs.
Proof.
  induction evs as [|e evs IH]; intros H; [constructor|].
  cbn in H. apply orb_false_iff in H. destruct H as [He H].
  constructor; [|apply IH, H]. destruct e; try exact I. discriminate.
Qed.

Lemma resetStatistics_no_sleep Local instant w :
  existsb isSleep (events (resetStatistics Local instant) w) = false.
Proof.
  unfold resetStatistics, sendStatisticsSummary. mcases w; reflexivity.
Qed.

Lemma ratioCheck_sleeps i v rs w :
  Forall (sleepsFor i) (events (ratioCheck v rs) w).
Proof.
  destruct rs; mcases w;
    repeat (constructor; [cbn [sleepsFor]; first [exact I | left; reflexivity]|]);
    constructor.
Qed.

Lemma performComparison_sleeps i w :
  Forall (sleepsFor i) (events performComparison w).
Proof.
  destruct (usageInGB (config w)) as [v|] eqn:U.
  - destruct (performComparison_valid w v U) as (_ & -> & _).
    destruct (bothChecks_run v w) as (_ & -> & _).
    apply Forall_app. split.
    + apply no_sleep_sleepsFor.
      apply (thresholdCheck_props v (thresholdStatusOf (config w)) w).
    + apply ratioCheck_sleeps.
  - unfold events. rewrite (performComparison_invalid w U). constructor.
Qed.

Lemma iteration_sleeps Local t w :
  Forall (sleepsFor (intervalOf (config w))) (events (iteration Local t) w).
Proof.
  pose proof (iteration_run Local t w) as H.
  assert (H0 : Forall (sleepsFor (intervalOf (config w)))
                 (if checkReset Local (checkInstant t) (config w)
                  then events (resetStatistics Local (resetInstant t)) w
                  else [])).
  { destruct (checkReset _ _ _); [|constructor].
    apply no_sleep_sleepsFor, resetStatistics_no_sleep. }
  destruct (sample t) as [stats|]; destruct H as [_ ->];
    apply Forall_app; split; try exact H0.
  - constructor; [exact I|].
    repeat (apply Forall_app; split).
    + destruct (answers _ _); repeat constructor.
    + apply performComparison_sleeps.
    + destruct (value performComparison _); repeat constructor.
    + repeat constructor; cbn [sleepsFor]; right; reflexivity.
  - repeat constructor; cbn [sleepsFor]; right; reflexivity.
Qed.

Lemma intervalOf_settings c c' :
  sameSettings c c' -> intervalOf c' = intervalOf c.
Proof.
  unfold sameSettings, intervalOf. intros (_ & _ & -> & _). reflexivity.
Qed.

(** X20. The loop never changes the settings: along any run, closes of
    the cycle included, the device, the interface, the interval, the
    start day, the comparison settings, the service and its credentials
    are those of the start. The interval computed once before the loop
    is therefore the one of every iteration: the program sleeps for it,
    and for thirty seconds before a shutdown, and for nothing else. *)
Theorem settings_are_never_changed Local ticks : forall w,
  Forall (fun w' => sameSettings (config w) (config w'))
    (history Local ticks w)
  /\ Forall (sleepsFor (intervalOf (config w))) (eventsOf Local ticks w).
Proof.
  induction ticks as [|t ticks IH]; intros w.
  - split; repeat constructor; apply sameSettings_refl.
  - cbn [history eventsOf].
    pose proof (iteration_settings Local t w) as Hs.
    destruct (IH (worldAfter (iteration Local t) w)) as [A B].
    rewrite (intervalOf_settings _ _ Hs) in B.
    split.
    + constructor; [apply sameSettings_refl|].
      eapply Forall_impl; [|exact A].
      intros w' H. exact (sameSettings_trans _ _ _ Hs H).
    + apply Forall_app. split; [apply iteration_sleeps|exact B].
Qed.

End Loop.

(** ** Reading the counters *)

Section Reading.

Import Strings Strconv.

Lemma append_assoc (a b c : string) : ((a ++ b) ++ c = a ++ (b ++ c))%string.
Proof. induction a as [|x a IH]; cbn; [reflexivity|]. rewrite IH. reflexivity. Qed.

Lemma append_nil_r (a : string) : (a ++ "" = a)%string.
Proof. induction a as [|x a IH]; cbn; [reflexivity|]. rewrite IH. reflexivity. Qed.

Lemma prefix_append (a b : string) : String.prefix a (a ++ b) = true.
Proof.
  induction a as [|x a IH]; cbn; [destruct b; reflexivity|].
  destruct (ascii_dec x x) as [_|N]; [exact IH|contradiction].
Qed.

Lemma Contains_here (sub rest : string) : Contains (sub ++ rest) sub = true.
Proof.
  destruct (sub ++ rest)%string eqn:E; cbn [Contains];
    rewrite <- E, prefix_append; reflexivity.
Qed.

Lemma Contains_append (a s sub : string) :
  Contains s sub = true -> Contains (a ++ s) sub = true.
Proof.
  intros H. induction a as [|x a IH]; [exact H|].
  cbn [append Contains]. rewrite IH. apply orb_true_r.
Qed.

(** *** The outcomes of a line *)

Lemma readLine_not_failed line e : readLine line <> ReadFailed e.
Proof.
  unfold readLine. destruct (Fields line) as [fields|]; [|discriminate].
  destruct (nth_error fields 1); [|discriminate].
  destruct (nth_error fields 9); discriminate.
Qed.

(** X21. [readNetworkStats] reports that the interface is not found
    exactly when no line of the file contains the name followed by a
    colon; a file that cannot be opened is reported as such. *)
Theorem interface_not_found_iff_no_line_names_it lines iface :
  readNetworkStats (Some lines) iface = ReadFailed (ErrInterfaceNotFound iface)
  <-> Forall (fun line => Contains line (iface ++ ":") = false) lines.
Proof.
  cbn [readNetworkStats]. induction lines as [|line lines IH].
  - cbn. split; [constructor|reflexivity].
  - cbn [scanLines]. destruct (Contains line (iface ++ ":")) eqn:E.
    + split.
      * intros H. exfalso. exact (readLine_not_failed _ _ H).
      * intros H. inversion H; subst. congruence.
    + rewrite IH. split.
      * intros H. constructor; assumption.
      * intros H. inversion H; subst. assumption.
Qed.

(** *** The numbers read are 64-bit numbers *)

Lemma parseLoop_range s : forall n,
  0 <= n <= maxUint64 -> 0 <= fst (parseLoop s n) <= maxUint64.
Proof.
  induction s as [|c s IH]; intros n Hn; [exact Hn|].
  cbn [parseLoop]. destruct (GoTime.isDigit c) eqn:Ed; [|cbn; unfold maxUint64; lia].
  destruct (cutoff <=? n); [cbn; unfold maxUint64; lia|].
  cbv zeta.
  destruct (_ || _) eqn:Eo; [cbn; unfold maxUint64; lia|].
  apply IH. apply orb_false_iff in Eo. destruct Eo as [_ Eo].
  apply Z.ltb_ge in Eo. split; [|exact Eo].
  apply (wrap_ok (U64.wrap (n * 10) + GoTime.digitVal c)).
Qed.

Lemma ParseUint_range s : U64.ok (fst (ParseUint s)).
Proof.
  unfold ParseUint, U64.ok, U64.modulus.
  destruct (String.eqb s ""); [cbn; lia|].
  pose proof (parseLoop_range s 0) as H. unfold maxUint64 in H.
  change (2 ^ 64) with 18446744073709551616. lia.
Qed.

(** X22. Whatever the file holds, the counters that [readNetworkStats]
    returns are 64-bit numbers: a field that is not a number counts as
    zero and a number that does not fit in 64 bits as the largest one
    that does. *)
Theorem counters_read_are_64_bit file iface stats :
  readNetworkStats file iface = ReadOk stats ->
  U64.ok (ReceiveBytes stats) /\ U64.ok (TransmitBytes stats).
Proof.
  destruct file as [lines|]; [|discriminate]. cbn [readNetworkStats].
  induction lines as [|line lines IH]; [discriminate|].
  cbn [scanLines]. destruct (Contains line (iface ++ ":")); [|exact IH].
  unfold readLine. destruct (Fields line) as [fields|]; [|discriminate].
  destruct (nth_error fields 1) as [f1|]; [|discriminate].
  destruct (nth_error fields 9) as [f9|]; [|discriminate].
  intros H. injection H as <-. cbn [ReceiveBytes TransmitBytes].
  split; apply ParseUint_range.
Qed.

Lemma counters_read_are_64_bit_witness :
  U64.ok 1215645 /\ U64.ok 99.
Proof.
  apply (counters_read_are_64_bit
           (Some ["  eth0: 1215645 1 0 0 0 0 0 0 99 1 0 0 0 0 0 0"%string])
           "eth0" (mkNetStats 1215645 99)).
  vm_compute. reflexivity.
Defined.

(** *** Decimal numbers are read back *)

Lemma decimal_acc fuel : forall u acc,
  GoTime.decimal fuel u acc = (GoTime.decimal fuel u "" ++ acc)%string.
Proof.
  induction fuel as [|fuel IH]; intros u acc; [reflexivity|].
  cbn [GoTime.decimal]. cbv zeta.
  destruct (u / 10 =? 0); [reflexivity|].
  rewrite (IH (u / 10) (String _ acc)), (IH (u / 10) (String _ "")).
  rewrite append_assoc. reflexivity.
Qed.

Lemma parseLoop_append s : forall n v t,
  parseLoop s n = (v, None) -> parseLoop (s ++ t) n = parseLoop t v.
Proof.
  induction s as [|c s IH]; intros n v t H.
  - cbn in H. injection H as ->. reflexivity.
  - cbn [parseLoop append] in *.
    destruct (GoTime.isDigit c); [|discriminate].
    destruct (cutoff <=? n); [discriminate|]. cbv zeta in *.
    destruct (_ || _); [discriminate|]. apply IH, H.
Qed.

Lemma parseLoop_digit n d :
  0 <= n -> 0 <= d <= 9 -> n * 10 + d <= maxUint64 ->
  parseLoop (String (GoTime.digit d) "") n = (n * 10 + d, None).
Proof.
  intros Hn Hd Hm. cbn [parseLoop].
  destruct (digit_ok d Hd) as [-> ->].
  unfold cutoff, maxUint64 in *.
  replace (18446744073709551615 / 10 + 1 <=? n) with false
    by (symmetry; apply Z.leb_gt; change (18446744073709551615 / 10 + 1)
          with 1844674407370955162; lia).
  cbv zeta. unfold U64.add.
  rewrite (wrap_small (n * 10))
    by (unfold U64.ok, U64.modulus; change (2 ^ 64) with 18446744073709551616; lia).
  rewrite (wrap_small (n * 10 + d))
    by (unfold U64.ok, U64.modulus; change (2 ^ 64) with 18446744073709551616; lia).
  replace (n * 10 + d <? n * 10) with false by (symmetry; apply Z.ltb_ge; lia).
  replace (18446744073709551615 <? n * 10 + d) with false
    by (symmetry; apply Z.ltb_ge; lia).
  reflexivity.
Qed.

Lemma parseLoop_decimal fuel : forall u,
  0 <= u < 2 ^ Z.of_nat fuel -> u <= maxUint64 ->
  parseLoop (GoTime.decimal fuel u "") 0 = (u, None).
Proof.
  induction fuel as [|fuel IH]; intros u Hu Hm.
  - cbn in Hu. assert (u = 0) as -> by lia. reflexivity.
  - cbn [GoTime.decimal]. cbv zeta.
    assert (Hd : 0 <= u mod 10 <= 9) by (Z.div_mod_to_equations; lia).
    destruct (u / 10 =? 0) eqn:E.
    + apply Z.eqb_eq in E.
      rewrite (parseLoop_digit 0 (u mod 10)); [|lia|exact Hd|].
      * f_equal. Z.div_mod_to_equations. lia.
      * unfold maxUint64 in *. Z.div_mod_to_equations. lia.
    + rewrite decimal_acc.
      rewrite (parseLoop_append _ 0 (u / 10)).
      * rewrite (parseLoop_digit (u / 10) (u mod 10)).
        -- f_equal. Z.div_mod_to_equations. lia.
        -- Z.div_mod_to_equations. lia.
        -- exact Hd.
        -- Z.div_mod_to_equations. lia.
      * apply IH.
        -- rewrite Nat2Z.inj_succ, Z.pow_succ_r in Hu by lia.
           generalize dependent (2 ^ Z.of_nat fuel). intros p Hp.
           Z.div_mod_to_equations. lia.
        -- Z.div_mod_to_equations. lia.
Qed.

Lemma decimal_nonempty fuel : forall u acc,
  acc <> EmptyString -> GoTime.decimal fuel u acc <> EmptyString.
Proof.
  induction fuel as [|fuel IH]; intros u acc H; [exact H|].
  cbn [GoTime.decimal]. cbv zeta.
  destruct (u / 10 =? 0); [discriminate|]. apply IH. discriminate.
Qed.

Lemma formatUint_nonempty u : String.eqb (formatUint u) "" = false.
Proof.
  apply String.eqb_neq. unfold formatUint. cbn [GoTime.decimal]. cbv zeta.
  destruct (u / 10 =? 0); [discriminate|]. apply decimal_nonempty. discriminate.
Qed.

Lemma ParseUint_formatUint u : U64.ok u -> ParseUint (formatUint u) = (u, None).
Proof.
  intros [H0 H1]. unfold ParseUint. rewrite formatUint_nonempty.
  unfold formatUint. apply parseLoop_decimal.
  - split; [exact H0|].
    destruct (Z.eq_dec u 0) as [->|N]; [cbn; lia|].
    rewrite Nat2Z.inj_succ, Z2Nat.id by apply Z.log2_nonneg.
    apply Z.log2_spec. lia.
  - unfold U64.modulus in H1. unfold maxUint64.
    change (2 ^ 64) with 18446744073709551616 in H1. lia.
Qed.

(** *** The fields of a line of /proc/net/dev *)

Lemma fieldsFrom_spaces n s : fieldsFrom (spaces n ++ s) "" = fieldsFrom s "".
Proof. induction n as [|n IH]; [reflexivity|]. cbn. exact IH. Qed.

Lemma fieldsFrom_word w : forall s cur,
  isWord w = true -> fieldsFrom (w ++ s) cur = fieldsFrom s (cur ++ w).
Proof.
  induction w as [|c w IH]; intros s cur H.
  - cbn. rewrite append_nil_r. reflexivity.
  - cbn [isWord] in H. apply andb_true_iff in H. destruct H as [H Hw].
    apply andb_true_iff in H. destruct H as [_ Hc].
    apply negb_true_iff in Hc.
    cbn [append fieldsFrom]. rewrite Hc, (IH _ _ Hw), append_assoc.
    reflexivity.
Qed.

Lemma isWord_decimal fuel : forall u acc,
  0 <= u -> isWord acc = true -> isWord (GoTime.decimal fuel u acc) = true.
Proof.
  induction fuel as [|fuel IH]; intros u acc Hu H; [exact H|].
  cbn [GoTime.decimal]. cbv zeta.
  assert (Hd : 0 <= u mod 10 <= 9) by (Z.div_mod_to_equations; lia).
  assert (W : isWord (String (GoTime.digit (u mod 10)) acc) = true).
  { cbn [isWord]. rewrite H, andb_true_r.
    assert (E : u mod 10 = 0 \/ u mod 10 = 1 \/ u mod 10 = 2 \/ u mod 10 = 3
                \/ u mod 10 = 4 \/ u mod 10 = 5 \/ u mod 10 = 6
                \/ u mod 10 = 7 \/ u mod 10 = 8 \/ u mod 10 = 9) by lia.
    repeat (destruct E as [E|E]; [rewrite E; reflexivity|]).
    rewrite E. reflexivity. }
  destruct (u / 10 =? 0); [exact W|].
  apply IH; [Z.div_mod_to_equations; lia|exact W].
Qed.

Lemma isWord_formatUint u : 0 <= u -> isWord (formatUint u) = true.
Proof. intros H. apply isWord_decimal; [exact H|reflexivity]. Qed.

Lemma fieldsFrom_columns cols : forall cur,
  String.eqb cur "" = false ->
  Forall (fun col => 0 <= snd col) cols ->
  fieldsFrom (columns cols) cur = cur :: map formatUint (map snd cols).
Proof.
  induction cols as [|[pad u] cols IH]; intros cur Hc H.
  - cbn. rewrite Hc. reflexivity.
  - inversion H as [|? ? Hu Hcols]; subst. cbn [snd] in Hu.
    cbn [columns spaces append fieldsFrom map snd].
    change (Strings.asciiSpace " ") with true. cbv iota. rewrite Hc.
    f_equal. rewrite fieldsFrom_spaces.
    rewrite (fieldsFrom_word _ _ _ (isWord_formatUint u Hu)).
    cbn [append]. apply IH; [apply formatUint_nonempty|exact Hcols].
Qed.

Lemma allASCII_append a b :
  allASCII (a ++ b) = allASCII a && allASCII b.
Proof.
  induction a as [|c a IH]; [reflexivity|].
  cbn [append allASCII]. rewrite IH, andb_assoc. reflexivity.
Qed.

Lemma allASCII_spaces n : allASCII (spaces n) = true.
Proof. induction n as [|n IH]; [reflexivity|]. cbn [spaces allASCII]. rewrite IH. reflexivity. Qed.

Lemma isWord_allASCII w : isWord w = true -> allASCII w = true.
Proof.
  induction w as [|c w IH]; [reflexivity|]. cbn [isWord allASCII].
  rewrite !andb_true_iff. intros [[H _] Hw]. split; [exact H|apply IH, Hw].
Qed.

Lemma allASCII_columns cols :
  Forall (fun col => 0 <= snd col) cols -> allASCII (columns cols) = true.
Proof.
  induction cols as [|[pad u] cols IH]; intros H; [reflexivity|].
  inversion H as [|? ? Hu Hcols]; subst. cbn [snd] in Hu.
  cbn [columns]. rewrite !allASCII_append, allASCII_spaces, (IH Hcols).
  rewrite (isWord_allASCII _ (isWord_formatUint u Hu)). reflexivity.
Qed.

Lemma name_nonempty name : String.eqb (name ++ ":") "" = false.
Proof. destruct name; reflexivity. Qed.

Lemma isWord_append a b : isWord (a ++ b) = isWord a && isWord b.
Proof.
  induction a as [|c a IH]; [reflexivity|].
  cbn [append isWord]. rewrite IH, !andb_assoc. reflexivity.
Qed.

Lemma Fields_deviceLine pad name cols :
  isWord name = true ->
  Forall (fun col => 0 <= snd col) cols ->
  Fields (deviceLine pad name cols)
  = Some ((name ++ ":")%string :: map formatUint (map snd cols)).
Proof.
  intros Hw Hc. unfold Fields, deviceLine.
  assert (Hw' : isWord (name ++ ":") = true)
    by (rewrite isWord_append, Hw; reflexivity).
  rewrite <- (append_assoc name ":" (columns cols)).
  rewrite (allASCII_append (spaces pad)),
    (allASCII_append (name ++ ":") (columns cols)), allASCII_spaces,
    (isWord_allASCII _ Hw'), (allASCII_columns _ Hc).
  cbn [andb]. f_equal.
  rewrite fieldsFrom_spaces, (fieldsFrom_word _ _ _ Hw'). cbn [append].
  apply fieldsFrom_columns; [apply name_nonempty|exact Hc].
Qed.

Lemma scanLines_skip before : forall line after iface,
  Forall (fun line => Contains line (iface ++ ":") = false) before ->
  Contains line (iface ++ ":") = true ->
  scanLines (before ++ line :: after) iface = readLine line.
Proof.
  induction before as [|l before IH]; intros line after iface Hb Hl.
  - cbn. rewrite Hl. reflexivity.
  - inversion Hb; subst. cbn [app scanLines].
    match goal with H : Contains l _ = false |- _ => rewrite H end.
    apply IH; assumption.
Qed.

Lemma deviceLine_names pad p iface cols :
  Contains (deviceLine pad (p ++ iface) cols) (iface ++ ":") = true.
Proof.
  unfold deviceLine. apply Contains_append.
  rewrite append_assoc. apply Contains_append.
  rewrite <- (append_assoc iface ":" (columns cols)). apply Contains_here.
Qed.

(** X23. The counters are read back from a line of /proc/net/dev: for
    the first line that contains the name followed by a colon,
    [readNetworkStats] returns the first and the ninth number after the
    colon. The name is not compared with the whole name on the line: a
    line for an interface whose name ends with the name asked for is
    taken for it when it comes first. *)
Theorem counters_are_read_from_the_first_matching_line
  before after pad p iface cols rx tx :
  Forall (fun line => Contains line (iface ++ ":") = false) before ->
  isWord (p ++ iface) = true ->
  Forall (fun col => 0 <= snd col) cols ->
  nth_error (map snd cols) 0 = Some rx ->
  nth_error (map snd cols) 8 = Some tx ->
  U64.ok rx -> U64.ok tx ->
  readNetworkStats
    (Some (before ++ deviceLine pad (p ++ iface) cols :: after)) iface
  = ReadOk (mkNetStats rx tx).
Proof.
  intros Hb Hw Hc Erx Etx Hrx Htx. cbn [readNetworkStats].
  rewrite (scanLines_skip _ _ _ _ Hb (deviceLine_names pad p iface cols)).
  unfold readLine. rewrite (Fields_deviceLine _ _ _ Hw Hc).
  set (fs := map formatUint (map snd cols)).
  change (nth_error (_ :: fs) 1) with (nth_error fs 0).
  change (nth_error (_ :: fs) 9) with (nth_error fs 8).
  subst fs.
  rewrite (map_nth_error formatUint 0 _ Erx).
  rewrite (map_nth_error formatUint 8 _ Etx).
  rewrite (ParseUint_formatUint _ Hrx), (ParseUint_formatUint _ Htx).
  reflexivity.
Qed.

Lemma counters_are_read_from_the_first_matching_line_witness :
  readNetworkStats
    (Some (["    lo: 5 1 0 0 0 0 0 0 5 1 0 0 0 0 0 0"%string]
           ++ deviceLine 1 ("v" ++ "eth0")
                [(0%nat, 1215645); (3%nat, 2751); (3%nat, 0); (3%nat, 0);
                 (3%nat, 0); (4%nat, 0); (9%nat, 0); (8%nat, 0);
                 (1%nat, 1782404); (3%nat, 4324)]
              :: ["  eth0: 7 1 0 0 0 0 0 0 9 1 0 0 0 0 0 0"%string]))
    "eth0"
  = ReadOk (mkNetStats 1215645 1782404).
Proof.
  apply counters_are_read_from_the_first_matching_line.
  - repeat constructor.
  - reflexivity.
  - repeat constructor; cbn; lia.
  - reflexivity.
  - reflexivity.
  - unfold U64.ok, U64.modulus. lia.
  - unfold U64.ok, U64.modulus. lia.
Defined.

(** X24. A line that names the interface and has fewer than nine
    numbers after the colon stops the program: the tenth field that
    [readNetworkStats] reads is missing and indexing it panics. *)
Theorem short_line_panics before after pad p iface cols :
  Forall (fun line => Contains line (iface ++ ":") = false) before ->
  isWord (p ++ iface) = true ->
  Forall (fun col => 0 <= snd col) cols ->
  (List.length cols < 9)%nat ->
  readNetworkStats
    (Some (before ++ deviceLine pad (p ++ iface) cols :: after)) iface
  = ReadPanic.
Proof.
  intros Hb Hw Hc Hl. cbn [readNetworkStats].
  rewrite (scanLines_skip _ _ _ _ Hb (deviceLine_names pad p iface cols)).
  unfold readLine. rewrite (Fields_deviceLine _ _ _ Hw Hc).
  assert (E : nth_error ((p ++ iface ++ ":")%string
                         :: map formatUint (map snd cols)) 9 = None).
  { apply nth_error_None. cbn [List.length]. rewrite !length_map. lia. }
  rewrite <- append_assoc in E. rewrite E.
  destruct (nth_error _ 1); reflexivity.
Qed.

Lemma short_line_panics_witness :
  readNetworkStats
    (Some ([] ++ deviceLine 2 ("" ++ "eth0") [(1%nat, 1215645); (3%nat, 2751)] :: []))
    "eth0"
  = ReadPanic.
Proof.
  apply short_line_panics.
  - constructor.
  - reflexivity.
  - repeat constructor; cbn; lia.
  - cbn. lia.
Defined.

(** *** The address of the Gotify server *)

Lemma TrimRightSlash_slashes n : TrimRightSlash (slashes n) = EmptyString.
Proof. induction n as [|n IH]; [reflexivity|]. cbn. rewrite IH. reflexivity. Qed.

Lemma TrimRightSlash_base base n :
  endsWithSlash base = false -> TrimRightSlash (base ++ slashes n) = base.
Proof.
  induction base as [|c base IH]; intros H.
  - apply TrimRightSlash_slashes.
  - cbn [append TrimRightSlash]. destruct base as [|c' base].
    + cbn [append]. rewrite TrimRightSlash_slashes.
      cbn in H. rewrite H. reflexivity.
    + rewrite IH by exact H. reflexivity.
Qed.

(** X25. Slashes at the end of the configured address of the Gotify
    server make no difference: the request goes to the address without
    them, followed by /message. *)
Theorem gotify_address_ignores_final_slashes base n :
  endsWithSlash base = false ->
  gotifyAPIURL (base ++ slashes n) = (base ++ "/message")%string.
Proof.
  intros H. unfold gotifyAPIURL. rewrite (TrimRightSlash_base base n H).
  reflexivity.
Qed.

Lemma gotify_address_ignores_final_slashes_witness :
  gotifyAPIURL ("https://push.example.org" ++ slashes 2)
  = "https://push.example.org/message"%string.
Proof.
  apply (gotify_address_ignores_final_slashes "https://push.example.org" 2).
  reflexivity.
Defined.

End Reading.
